(** * deepkit.context: the job telemetry context

    A shallow embedding of [deepkit/context.py]: the rolling timing window of
    [Context.iteration] and [Context.step], the binary rows built with
    [struct.pack], the flush callbacks of the one-second buffers, lazy metric
    definition and [Context.shutdown].

    Data.  Python floats are IEEE 754 binary64 values and are modelled by
    Rocq's primitive floats, Python ints by [Z], [bytes] by lists of [byte],
    [str] by [string], dicts by insertion-ordered association lists.  What
    [time.time()] and [psutil] return is an argument of the method that
    reads it.

    Effects.  A method is a function from the context to a result and a new
    context.  A method that raises keeps the changes it made before raising.
    The calls made on the client ([patch], [job_action], [shutdown]) and the
    completions of the rx subjects are recorded in a trace.

    The rx pipeline [subject.pipe(buffer(interval(1))).subscribe(callback)]
    belongs to a library, not to the repository: it is modelled by a buffer
    that a tick hands to the callback and empties, and that a completion
    flushes one last time.  Timers fire on other threads; here a tick is one
    more call in a sequence of calls, so calls interleave as wholes.

    [sum(diffs)] is the plain left-to-right float sum (CPython before 3.12;
    later versions compensate the rounding errors of the sum). *)

From Stdlib Require Import ZArith Lia Bool Ascii String List.
From Stdlib.Strings Require Import Byte.
From Stdlib Require Import Floats.
Import ListNotations.

Local Open Scope Z_scope.

(** ** Bytes and little-endian integers *)

Definition bytes := list byte.

Definition byte_of_Z (z : Z) : byte :=
  match Byte.of_N (Z.to_N (z mod 256)) with
  | Some b => b
  | None => x00
  end.

Definition Z_of_byte (b : byte) : Z := Z.of_N (Byte.to_N b).

(** [le_bytes n z]: the [n] low-order bytes of [z], least significant first. *)
Fixpoint le_bytes (n : nat) (z : Z) : bytes :=
  match n with
  | O => []
  | S n' => byte_of_Z z :: le_bytes n' (z / 256)
  end.

Fixpoint le_int (bs : bytes) : Z :=
  match bs with
  | [] => 0
  | b :: rest => Z_of_byte b + 256 * le_int rest
  end.

(** ** IEEE 754 interchange encodings

    [mw] is the width of the trailing significand field and [ew] the width of
    the exponent field: 52 and 11 for binary64, 23 and 8 for binary32. *)

Module IEEE.
Section Interchange.
Variables mw ew : Z.

Definition iprec : Z := mw + 1.
Definition iemax : Z := 2 ^ (ew - 1).
Definition iemin : Z := SpecFloat.emin iprec iemax.

Definition sign_bit (s : bool) : Z := if s then 2 ^ (mw + ew) else 0.

Definition bits_of_SF (f : spec_float) : Z :=
  match f with
  | S754_zero s => sign_bit s
  | S754_infinity s => sign_bit s + (2 ^ ew - 1) * 2 ^ mw
  | S754_nan => (2 ^ ew - 1) * 2 ^ mw + 2 ^ (mw - 1)
  | S754_finite s m e =>
      if Zpos m <? 2 ^ mw
      then sign_bit s + Zpos m
      else sign_bit s + (e - iemin + 1) * 2 ^ mw + (Zpos m - 2 ^ mw)
  end.

Definition SF_of_bits (b : Z) : spec_float :=
  let s := Z.testbit b (mw + ew) in
  let ex := (b / 2 ^ mw) mod 2 ^ ew in
  let mx := b mod 2 ^ mw in
  if ex =? 0 then
    match mx with
    | Zpos p => S754_finite s p iemin
    | _ => S754_zero s
    end
  else if ex =? 2 ^ ew - 1 then
    if mx =? 0 then S754_infinity s else S754_nan
  else
    match mx + 2 ^ mw with
    | Zpos p => S754_finite s p (ex + iemin - 1)
    | _ => S754_nan
    end.
End Interchange.
End IEEE.

(** The 64 bits of a Python float, and the float of 64 bits.  A NaN is
    taken with the quiet bit alone: the payload of a NaN is not modelled. *)
Definition bits64 (f : float) : Z := IEEE.bits_of_SF 52 11 (Prim2SF f).
Definition float_of_bits64 (b : Z) : float := SF2Prim (IEEE.SF_of_bits 52 11 b).

(** The C conversion [(float) x] of a double: round to nearest even in
    binary32. *)
Definition SF32_of_float (f : float) : spec_float :=
  match Prim2SF f with
  | S754_finite s m e => binary_normalize 24 128 (cond_Zopp s (Zpos m)) e s
  | sf => sf
  end.

Definition bits32 (sf : spec_float) : Z := IEEE.bits_of_SF 23 8 sf.

(** ** Python numbers and exceptions *)

Inductive exn : Type :=
  | ZeroDivisionError
  | TypeError
  | OverflowError
  | ValueError
  | StructError.

Inductive result (A : Type) : Type :=
  | Ok (a : A)
  | Raise (e : exn).
Arguments Ok {A} a.
Arguments Raise {A} e.

Definition rbind {A B : Type} (r : result A) (k : A -> result B) : result B :=
  match r with
  | Ok a => k a
  | Raise e => Raise e
  end.

Declare Scope result_scope.
Delimit Scope result_scope with result.
Notation "'let?' x ':=' r 'in' k" := (rbind r (fun x => k))
  (at level 10, x name, r at level 100, k at level 200) : result_scope.

Fixpoint rmap {A B : Type} (f : A -> result B) (l : list A) : result (list B) :=
  match l with
  | [] => Ok []
  | a :: rest =>
      (let? b := f a in
       let? bs := rmap f rest in
       Ok (b :: bs))%result
  end.

(** A Python number: an [int] or a [float]. *)
Inductive num : Type :=
  | PyInt (z : Z)
  | PyFloat (f : float).

(** [float(z)] for an int: the nearest double, ties to even, and
    [OverflowError] when the int is too large. *)
Definition float_of_int (z : Z) : result float :=
  match binary_normalize 53 1024 z 0 false with
  | S754_infinity _ => Raise OverflowError
  | sf => Ok (SF2Prim sf)
  end.

Definition to_float (x : num) : result float :=
  match x with
  | PyInt z => float_of_int z
  | PyFloat f => Ok f
  end.

(** [float(v)] for an optional number; [float(None)] raises [TypeError]. *)
Definition float_of_opt (x : option num) : result float :=
  match x with
  | None => Raise TypeError
  | Some n => to_float n
  end.

(** [int(f)]: truncation towards zero. *)
Definition int_of_float (f : float) : result Z :=
  match Prim2SF f with
  | S754_zero _ => Ok 0
  | S754_finite s m e =>
      Ok (cond_Zopp s (if 0 <=? e then Zpos m * 2 ^ e else Zpos m / 2 ^ (- e)))
  | S754_infinity _ => Raise OverflowError
  | S754_nan => Raise ValueError
  end.

(** [bool(x)] for a number. *)
Definition truthy (x : num) : bool :=
  match x with
  | PyInt z => negb (z =? 0)
  | PyFloat f => negb (f =? 0)%float
  end.

(** [a / b] on two ints: the correctly rounded quotient. *)
Definition int_truediv (a b : Z) : result float :=
  if b =? 0 then Raise ZeroDivisionError
  else if a =? 0 then Ok (if b <? 0 then (-0)%float else 0%float)
  else
    let '(q, e, l) := SFdiv_core_binary 53 1024 (Z.abs a) 0 (Z.abs b) 0 in
    match binary_round_aux 53 1024 (xorb (a <? 0) (b <? 0)) q e l with
    | S754_infinity _ => Raise OverflowError
    | sf => Ok (SF2Prim sf)
    end.

Definition float_truediv (a b : float) : result float :=
  if (b =? 0)%float then Raise ZeroDivisionError else Ok (a / b)%float.

Definition num_truediv (a b : num) : result float :=
  match a, b with
  | PyInt x, PyInt y => int_truediv x y
  | _, _ =>
      (let? fa := to_float a in
       let? fb := to_float b in
       float_truediv fa fb)%result
  end.

Definition num_mul (a b : num) : result num :=
  match a, b with
  | PyInt x, PyInt y => Ok (PyInt (x * y))
  | _, _ =>
      (let? fa := to_float a in
       let? fb := to_float b in
       Ok (PyFloat (fa * fb)%float))%result
  end.

(** ** [struct.pack] with the ['<'] prefix: little-endian, standard sizes,
    no padding *)

Inductive fmt : Type :=
  | fmt_B   (* unsigned char, 1 byte *)
  | fmt_H   (* unsigned short, 2 bytes *)
  | fmt_d   (* double, 8 bytes *)
  | fmt_f.  (* float, 4 bytes *)

Inductive pack_arg : Type :=
  | AInt (z : Z)
  | AFloat (f : float).

Definition pack_uint (n : nat) (z : Z) : result bytes :=
  if (0 <=? z) && (z <? 256 ^ Z.of_nat n)
  then Ok (le_bytes n z)
  else Raise StructError.

Definition pack_d (f : float) : bytes := le_bytes 8 (bits64 f).

Definition unpack_d (bs : bytes) : float := float_of_bits64 (le_int bs).

(** ['f'] fails with [OverflowError] when a finite double rounds to an
    infinite single. *)
Definition pack_f (f : float) : result bytes :=
  match Prim2SF f, SF32_of_float f with
  | S754_finite _ _ _, S754_infinity _ => Raise OverflowError
  | _, sf => Ok (le_bytes 4 (bits32 sf))
  end.

Definition pack_one (c : fmt) (a : pack_arg) : result bytes :=
  match c, a with
  | fmt_B, AInt z => pack_uint 1 z
  | fmt_H, AInt z => pack_uint 2 z
  | fmt_d, AFloat f => Ok (pack_d f)
  | fmt_d, AInt z => (let? f := float_of_int z in Ok (pack_d f))%result
  | fmt_f, AFloat f => pack_f f
  | fmt_f, AInt z => (let? f := float_of_int z in pack_f f)%result
  | _, AFloat _ => Raise StructError
  end.

Fixpoint struct_pack (fs : list fmt) (args : list pack_arg) : result bytes :=
  match fs, args with
  | [], [] => Ok []
  | c :: fs', a :: args' =>
      (let? b := pack_one c a in
       let? rest := struct_pack fs' args' in
       Ok (b ++ rest))%result
  | _, _ => Raise StructError
  end.

(** ** [base64.b64encode(...).decode('utf8')] *)

Definition b64_alphabet : string :=
  "ABCDEFGHIJKLMNOPQRSTUVWXYZabcdefghijklmnopqrstuvwxyz0123456789+/".

Definition b64_char (n : Z) : ascii :=
  match String.get (Z.to_nat n) b64_alphabet with
  | Some c => c
  | None => "="%char
  end.

Fixpoint b64encode (bs : bytes) : string :=
  match bs with
  | [] => EmptyString
  | [a] =>
      let n := Z_of_byte a in
      String (b64_char (n / 4))
        (String (b64_char (n mod 4 * 16)) "==")
  | [a; b] =>
      let n := Z_of_byte a * 256 + Z_of_byte b in
      String (b64_char (n / 1024))
        (String (b64_char (n / 16 mod 64))
           (String (b64_char (n mod 16 * 4)) "="))
  | a :: b :: c :: rest =>
      let n := (Z_of_byte a * 256 + Z_of_byte b) * 256 + Z_of_byte c in
      String (b64_char (n / 262144))
        (String (b64_char (n / 4096 mod 64))
           (String (b64_char (n / 64 mod 64))
              (String (b64_char (n mod 64)) (b64encode rest))))
  end.

(** ** Python dicts: insertion-ordered maps with string keys *)

Definition dict (V : Type) := list (string * V).

Definition dict_mem {V : Type} (k : string) (d : dict V) : bool :=
  existsb (fun kv => String.eqb (fst kv) k) d.

Fixpoint dict_get {V : Type} (k : string) (d : dict V) : option V :=
  match d with
  | [] => None
  | (k', v) :: rest => if String.eqb k' k then Some v else dict_get k rest
  end.

(** [d[k] = v]: an existing key keeps its position, a new key goes last. *)
Fixpoint dict_set {V : Type} (k : string) (v : V) (d : dict V) : dict V :=
  match d with
  | [] => [(k, v)]
  | (k', v') :: rest =>
      if String.eqb k' k then (k', v) :: rest else (k', v') :: dict_set k v rest
  end.

(** ** The collaborators: the client and the rx subjects *)

(** Values handed to the client. *)
#[local] Unset Elimination Schemes.
Inductive value : Type :=
  | VNone
  | VInt (z : Z)
  | VFloat (f : float)
  | VStr (s : string)
  | VList (l : list value)
  | VDict (d : list (string * value)).
#[local] Set Elimination Schemes.

Definition value_of_num (x : num) : value :=
  match x with
  | PyInt z => VInt z
  | PyFloat f => VFloat f
  end.

Definition value_of_opt (x : option num) : value :=
  match x with
  | None => VNone
  | Some n => value_of_num n
  end.

Inductive dispatcher : Type :=
  | MetricDispatcher
  | LogDispatcher
  | SpeedDispatcher
  | HardwareDispatcher.

(** The calls the context makes on its collaborators. *)
Inductive event : Type :=
  | Patch (key : string) (v : value)              (* client.patch(key, v) *)
  | JobAction (name : string) (args : list value) (* client.job_action(name, args) *)
  | Completed (d : dispatcher)                    (* subject.on_completed() *)
  | ClientShutdown.                               (* client.shutdown() *)

(** An rx [Subject] piped through [buffer(interval(1))]: the items pushed
    since the last tick, and whether the subject has completed. *)
Record Subject (A : Type) : Type := mkSubject {
  pending : list A;
  is_stopped : bool
}.
Arguments mkSubject {A} pending is_stopped.
Arguments pending {A} s.
Arguments is_stopped {A} s.

Definition new_subject {A : Type} : Subject A := mkSubject [] false.

(** [subject.on_next(x)]: dropped once the subject has completed. *)
Definition on_next {A : Type} (x : A) (s : Subject A) : Subject A :=
  if is_stopped s then s else mkSubject (pending s ++ [x]) false.

(** ** The context *)

Record sample : Type := mkSample {
  diff : float;
  when : float
}.

Record metric_item : Type := mkItem {
  item_id : string;
  item_row : bytes
}.

Record Context : Type := mkContext {
  defined_metrics : dict value;
  log_subject : Subject string;
  metric_subject : Subject metric_item;
  speed_report_subject : Subject bytes;
  shutting_down : bool;
  last_iteration_time : num;
  last_batch_time : num;
  job_iteration : Z;
  job_iterations : Z;
  seconds_per_iteration : num;
  seconds_per_iterations : list sample;
  (** every call made on the collaborators so far, oldest first *)
  trace : list event
}.

(** The state [Context.__init__] leaves behind; [last_logs] is the text
    captured before the context existed. *)
Definition init (last_logs : string) : Context :=
  {| defined_metrics := [];
     log_subject :=
       if (0 <? String.length last_logs)%nat
       then on_next last_logs new_subject else new_subject;
     metric_subject := new_subject;
     speed_report_subject := new_subject;
     shutting_down := false;
     last_iteration_time := PyInt 0;
     last_batch_time := PyInt 0;
     job_iteration := 0;
     job_iterations := 0;
     seconds_per_iteration := PyInt 0;
     seconds_per_iterations := [];
     trace := [] |}.

Definition set_defined_metrics (v : dict value) (c : Context) : Context :=
  mkContext v (log_subject c) (metric_subject c) (speed_report_subject c)
    (shutting_down c) (last_iteration_time c) (last_batch_time c)
    (job_iteration c) (job_iterations c) (seconds_per_iteration c)
    (seconds_per_iterations c) (trace c).

Definition set_log_subject (v : Subject string) (c : Context) : Context :=
  mkContext (defined_metrics c) v (metric_subject c) (speed_report_subject c)
    (shutting_down c) (last_iteration_time c) (last_batch_time c)
    (job_iteration c) (job_iterations c) (seconds_per_iteration c)
    (seconds_per_iterations c) (trace c).

Definition set_metric_subject (v : Subject metric_item) (c : Context) : Context :=
  mkContext (defined_metrics c) (log_subject c) v (speed_report_subject c)
    (shutting_down c) (last_iteration_time c) (last_batch_time c)
    (job_iteration c) (job_iterations c) (seconds_per_iteration c)
    (seconds_per_iterations c) (trace c).

Definition set_speed_report_subject (v : Subject bytes) (c : Context) : Context :=
  mkContext (defined_metrics c) (log_subject c) (metric_subject c) v
    (shutting_down c) (last_iteration_time c) (last_batch_time c)
    (job_iteration c) (job_iterations c) (seconds_per_iteration c)
    (seconds_per_iterations c) (trace c).

Definition set_shutting_down (v : bool) (c : Context) : Context :=
  mkContext (defined_metrics c) (log_subject c) (metric_subject c)
    (speed_report_subject c) v (last_iteration_time c) (last_batch_time c)
    (job_iteration c) (job_iterations c) (seconds_per_iteration c)
    (seconds_per_iterations c) (trace c).

Definition set_last_iteration_time (v : num) (c : Context) : Context :=
  mkContext (defined_metrics c) (log_subject c) (metric_subject c)
    (speed_report_subject c) (shutting_down c) v (last_batch_time c)
    (job_iteration c) (job_iterations c) (seconds_per_iteration c)
    (seconds_per_iterations c) (trace c).

Definition set_last_batch_time (v : num) (c : Context) : Context :=
  mkContext (defined_metrics c) (log_subject c) (metric_subject c)
    (speed_report_subject c) (shutting_down c) (last_iteration_time c) v
    (job_iteration c) (job_iterations c) (seconds_per_iteration c)
    (seconds_per_iterations c) (trace c).

Definition set_job_iteration (v : Z) (c : Context) : Context :=
  mkContext (defined_metrics c) (log_subject c) (metric_subject c)
    (speed_report_subject c) (shutting_down c) (last_iteration_time c)
    (last_batch_time c) v (job_iterations c) (seconds_per_iteration c)
    (seconds_per_iterations c) (trace c).

Definition set_job_iterations (v : Z) (c : Context) : Context :=
  mkContext (defined_metrics c) (log_subject c) (metric_subject c)
    (speed_report_subject c) (shutting_down c) (last_iteration_time c)
    (last_batch_time c) (job_iteration c) v (seconds_per_iteration c)
    (seconds_per_iterations c) (trace c).

Definition set_seconds_per_iteration (v : num) (c : Context) : Context :=
  mkContext (defined_metrics c) (log_subject c) (metric_subject c)
    (speed_report_subject c) (shutting_down c) (last_iteration_time c)
    (last_batch_time c) (job_iteration c) (job_iterations c) v
    (seconds_per_iterations c) (trace c).

Definition set_seconds_per_iterations (v : list sample) (c : Context) : Context :=
  mkContext (defined_metrics c) (log_subject c) (metric_subject c)
    (speed_report_subject c) (shutting_down c) (last_iteration_time c)
    (last_batch_time c) (job_iteration c) (job_iterations c)
    (seconds_per_iteration c) v (trace c).

Definition set_trace (v : list event) (c : Context) : Context :=
  mkContext (defined_metrics c) (log_subject c) (metric_subject c)
    (speed_report_subject c) (shutting_down c) (last_iteration_time c)
    (last_batch_time c) (job_iteration c) (job_iterations c)
    (seconds_per_iteration c) (seconds_per_iterations c) v.

(** ** Methods as state transformers that may raise

    A method runs on the context and either returns or raises; what it
    changed before raising stays changed, as in Python. *)

Definition M (A : Type) : Type := Context -> result A * Context.

Definition ret {A : Type} (a : A) : M A := fun c => (Ok a, c).

Definition bind {A B : Type} (m : M A) (k : A -> M B) : M B :=
  fun c =>
    match m c with
    | (Ok a, c') => k a c'
    | (Raise e, c') => (Raise e, c')
    end.

Definition lift {A : Type} (r : result A) : M A := fun c => (r, c).

Definition self : M Context := fun c => (Ok c, c).

Definition modify (f : Context -> Context) : M unit := fun c => (Ok tt, f c).

Definition when_ (b : bool) (m : M unit) : M unit := if b then m else ret tt.

Declare Scope ctx_scope.
Delimit Scope ctx_scope with ctx.
Notation "x <- m ;; k" := (bind m (fun x => k))
  (at level 61, m at next level, right associativity) : ctx_scope.
Notation "m ;; k" := (bind m (fun _ => k))
  (at level 61, right associativity) : ctx_scope.

(** [for a in l: body(a)] *)
Fixpoint for_each {A : Type} (l : list A) (body : A -> M unit) : M unit :=
  match l with
  | [] => ret tt
  | a :: rest => (body a ;; for_each rest body)%ctx
  end.

Definition emit (e : event) : M unit :=
  modify (fun c => set_trace (trace c ++ [e]) c).

Definition client_patch (key : string) (v : value) : M unit :=
  emit (Patch key v).

Definition client_job_action (name : string) (args : list value) : M unit :=
  emit (JobAction name args).

Definition client_shutdown : M unit := emit ClientShutdown.

(** ** Flush callbacks of the one-second buffers *)

(** The loop of [on_metric] that fills [packed]. *)
Definition pack_item (packed : dict bytes) (d : metric_item) : dict bytes :=
  let packed :=
    if negb (dict_mem (item_id d) packed)
    then dict_set (item_id d) [] packed
    else packed in
  match dict_get (item_id d) packed with
  | Some v => dict_set (item_id d) (v ++ item_row d) packed
  | None => packed
  end.

Definition on_metric (data : list metric_item) : M unit :=
  if (length data =? 0)%nat then ret tt
  else
    let packed := fold_left pack_item data [] in
    for_each packed (fun iv =>
      client_job_action "channelData" [VStr (fst iv); VStr (b64encode (snd iv))]).

(** [rows[-1]] *)
Definition last_row (rows : list bytes) : bytes := last rows [].

Definition on_speed_report (rows : list bytes) : M unit :=
  if (length rows =? 0)%nat then ret tt
  else client_job_action "streamFile"
         [VStr ".deepkit/speed.metric"; VStr (b64encode (last_row rows))].

Definition on_log (data : list string) : M unit :=
  if (length data =? 0)%nat then ret tt
  else
    let packed := fold_left String.append data EmptyString in
    client_job_action "log" [VStr "main_0"; VStr packed].

(** What [psutil] and the clock report at one hardware tick. *)
Record hardware_reading : Type := mkReading {
  hw_time : float;          (* time.time() *)
  cpu_percent : float;      (* p.cpu_percent(interval=None) *)
  cpu_count : Z;            (* psutil.cpu_count() *)
  memory_percent : float;   (* p.memory_percent() *)
  bytes_recv : Z;           (* net.bytes_recv *)
  bytes_sent : Z;           (* net.bytes_sent *)
  write_bytes : Z;          (* disk.write_bytes *)
  read_bytes : Z            (* disk.read_bytes *)
}.

Definition hardware_fmt : list fmt :=
  [fmt_B; fmt_H; fmt_d; fmt_H; fmt_H; fmt_f; fmt_f; fmt_f; fmt_f].

(** [(p.cpu_percent(interval=None) / 100) / psutil.cpu_count()] *)
Definition cpu_share (r : hardware_reading) : result float :=
  (let? n := float_of_int (cpu_count r) in
   float_truediv (cpu_percent r / 100)%float n)%result.

(** [p.memory_percent() / 100] *)
Definition memory_share (r : hardware_reading) : float :=
  (memory_percent r / 100)%float.

(** [int(fraction * 65535)] *)
Definition scale16 (fraction : float) : result Z :=
  int_of_float (fraction * 65535)%float.

Definition cpu_field (r : hardware_reading) : result Z :=
  (let? share := cpu_share r in scale16 share)%result.

Definition mem_field (r : hardware_reading) : result Z :=
  scale16 (memory_share r).

Definition hardware_row (r : hardware_reading) : result bytes :=
  (let? cpu := cpu_field r in
   let? mem := mem_field r in
   let? recv := float_of_int (bytes_recv r) in
   let? sent := float_of_int (bytes_sent r) in
   let? written := float_of_int (write_bytes r) in
   let? read := float_of_int (read_bytes r) in
   struct_pack hardware_fmt
     [AInt 1; AInt 0; AFloat (hw_time r); AInt cpu; AInt mem;
      AFloat recv; AFloat sent; AFloat written; AFloat read])%result.

Definition on_hardware_metrics (r : hardware_reading) : M unit :=
  (data <- lift (hardware_row r) ;;
   client_job_action "streamFile"
     [VStr ".deepkit/hardware/main_0.hardware"; VStr (b64encode data)])%ctx.

(** One firing of [interval(1)] on a buffered subject: the buffer is handed
    to the callback and emptied.  A completed pipeline emits nothing. *)
Definition tick_metric : M unit :=
  (c <- self ;;
   if is_stopped (metric_subject c) then ret tt
   else
     modify (set_metric_subject new_subject) ;;
     on_metric (pending (metric_subject c)))%ctx.

Definition tick_speed : M unit :=
  (c <- self ;;
   if is_stopped (speed_report_subject c) then ret tt
   else
     modify (set_speed_report_subject new_subject) ;;
     on_speed_report (pending (speed_report_subject c)))%ctx.

Definition tick_log : M unit :=
  (c <- self ;;
   if is_stopped (log_subject c) then ret tt
   else
     modify (set_log_subject new_subject) ;;
     on_log (pending (log_subject c)))%ctx.

Definition tick_hardware (r : hardware_reading) : M unit :=
  on_hardware_metrics r.

(** [subject.on_completed()]: the buffer emits what is pending and the
    pipeline ends; a second completion does nothing. *)
Definition metric_subject_on_completed : M unit :=
  (emit (Completed MetricDispatcher) ;;
   c <- self ;;
   if is_stopped (metric_subject c) then ret tt
   else
     modify (set_metric_subject (mkSubject [] true)) ;;
     on_metric (pending (metric_subject c)))%ctx.

Definition log_subject_on_completed : M unit :=
  (emit (Completed LogDispatcher) ;;
   c <- self ;;
   if is_stopped (log_subject c) then ret tt
   else
     modify (set_log_subject (mkSubject [] true)) ;;
     on_log (pending (log_subject c)))%ctx.

(** ** The rolling timing window *)

(** [(now - x['when']) < 20] *)
Definition recent (now : float) (x : sample) : bool :=
  (now - when x <? 20)%float.

(** [l[-n:]] *)
Definition last_n {A : Type} (n : nat) (l : list A) : list A :=
  skipn (length l - n) l.

(** The two pruning assignments of [iteration] and [step]. *)
Definition prune (now : float) (l : list sample) : list sample :=
  last_n 30 (filter (recent now) l).

(** [sum(diffs)]: the running float sum, left to right, from 0. *)
Definition sum_floats (l : list float) : float :=
  fold_left PrimFloat.add l 0%float.

(** [sum(diffs) / len(diffs)] *)
Definition mean (diffs : list float) : result float :=
  num_truediv (PyFloat (sum_floats diffs)) (PyInt (Z.of_nat (length diffs))).

Definition truthy_opt (x : option Z) : bool :=
  match x with
  | None => false
  | Some z => negb (z =? 0)
  end.

(** [float - number], [float * int], [int + float], [int / float] *)
Definition float_sub_num (a : float) (b : num) : result float :=
  (let? fb := to_float b in Ok (a - fb)%float)%result.

Definition float_mul_int (a : float) (z : Z) : result float :=
  (let? fz := float_of_int z in Ok (a * fz)%float)%result.

Definition int_add_float (z : Z) (b : float) : result float :=
  (let? fz := float_of_int z in Ok (fz + b)%float)%result.

Definition int_div_float (z : Z) (b : float) : result float :=
  (let? fz := float_of_int z in float_truediv fz b)%result.

Definition append_sample (x : sample) : M unit :=
  modify (fun c => set_seconds_per_iterations (seconds_per_iterations c ++ [x]) c).

Definition prune_window (now : float) : M unit :=
  modify (fun c => set_seconds_per_iterations (prune now (seconds_per_iterations c)) c).

(** ** Methods of [Context] *)

(** [iteration(current, total)]; [now] is what [time.time()] returns. *)
Definition iteration (current : Z) (total : option Z) (now : float) : M unit :=
  (modify (set_job_iteration current) ;;
   when_ (truthy_opt total)
     (modify (set_job_iterations (match total with Some t => t | None => 0 end))) ;;
   c <- self ;;
   when_ (truthy (last_iteration_time c))
     (d <- lift (float_sub_num now (last_iteration_time c)) ;;
      append_sample {| diff := d; when := now |}) ;;
   modify (set_last_iteration_time (PyFloat now)) ;;
   modify (set_last_batch_time (PyFloat now)) ;;
   prune_window now ;;
   c <- self ;;
   when_ (0 <? length (seconds_per_iterations c))%nat
     (m <- lift (mean (map diff (seconds_per_iterations c))) ;;
      modify (set_seconds_per_iteration (PyFloat m))) ;;
   c <- self ;;
   when_ (truthy (seconds_per_iteration c))
     (client_patch "secondsPerIteration" (value_of_num (seconds_per_iteration c))) ;;
   client_patch "iteration" (VInt (job_iteration c)) ;;
   when_ (truthy_opt total)
     (client_patch "iterations" (VInt (job_iterations c))) ;;
   let iterations_left := job_iterations c - job_iteration c in
   if 0 <? iterations_left then
     eta <- lift (num_mul (seconds_per_iteration c) (PyInt iterations_left)) ;;
     client_patch "eta" (value_of_num eta)
   else client_patch "eta" (VInt 0))%ctx.

Definition epoch (current : Z) (total : option Z) (now : float) : M unit :=
  iteration current total now.

Definition speed_fmt : list fmt := [fmt_B; fmt_d; fmt_d; fmt_d].

(** [step(current, total, size)]; [total] and [size] default to [None]. *)
Definition step (current : Z) (total size : option Z) (now : float) : M unit :=
  (client_patch "step" (VInt current) ;;
   c <- self ;;
   frac <- lift (match total with
                 | None => Raise TypeError
                 | Some t => int_truediv current t
                 end) ;;
   x <- lift (int_add_float (job_iteration c) frac) ;;
   speed_per_second <-
     lift (if truthy (last_batch_time c) then
             (let? elapsed := float_sub_num now (last_batch_time c) in
              match size with
              | None => Raise TypeError
              | Some sz =>
                  let? v := int_div_float sz elapsed in Ok (Some (PyFloat v))
              end)%result
           else Ok (option_map PyInt size)) ;;
   when_ (truthy (last_batch_time c))
     (d <- lift (let? elapsed := float_sub_num now (last_batch_time c) in
                 match total with
                 | None => Raise TypeError
                 | Some t => float_mul_int elapsed t
                 end)%result ;;
      append_sample {| diff := d; when := now |}) ;;
   prune_window now ;;
   c <- self ;;
   when_ (0 <? length (seconds_per_iterations c))%nat
     (m <- lift (mean (map diff (seconds_per_iterations c))) ;;
      modify (set_seconds_per_iteration (PyFloat m)) ;;
      let iterations_left := job_iterations c - job_iteration c in
      eta <- lift (float_mul_int m iterations_left) ;;
      client_patch "eta" (VFloat eta)) ;;
   modify (set_last_batch_time (PyFloat now)) ;;
   c <- self ;;
   when_ (truthy (seconds_per_iteration c))
     (client_patch "secondsPerIteration" (value_of_num (seconds_per_iteration c))) ;;
   client_patch "speed" (value_of_opt speed_per_second) ;;
   speed_value <- lift (float_of_opt speed_per_second) ;;
   speed <- lift (struct_pack speed_fmt
                    [AInt 1; AFloat x; AFloat now; AFloat speed_value]) ;;
   modify (fun c => set_speed_report_subject (on_next speed (speed_report_subject c)) c) ;;
   when_ (truthy_opt total)
     (client_patch "steps" (value_of_opt (option_map PyInt total))))%ctx.

Definition define_metric (name : string) (options : dict value) : M unit :=
  (modify (fun c => set_defined_metrics (dict_set name (VDict []) (defined_metrics c)) c) ;;
   client_job_action "defineMetric" [VStr name; VDict options])%ctx.

(** The [y] argument of [metric]: a list of values or a single value. *)
Inductive metric_y : Type :=
  | YList (l : list (option num))
  | YScalar (v : option num).

Definition metric_fmt : list fmt := [fmt_B; fmt_H; fmt_d; fmt_d].

(** [float(y1) if y1 is not None else 0.0] *)
Definition value_float (v : option num) : result float :=
  match v with
  | Some n => to_float n
  | None => Ok 0%float
  end.

(** The loop of [metric] that appends one double per value. *)
Fixpoint pack_values (row_binary : bytes) (y : list (option num)) : result bytes :=
  match y with
  | [] => Ok row_binary
  | y1 :: rest =>
      (let? v := value_float y1 in
       let? b := struct_pack [fmt_d] [AFloat v] in
       pack_values (row_binary ++ b) rest)%result
  end.

(** The bytes [metric] builds for one row. *)
Definition metric_row (x : num) (y : list (option num)) (now : float) : result bytes :=
  (let? fx := to_float x in
   let? row_binary :=
     struct_pack metric_fmt
       [AInt 1; AInt (Z.of_nat (length y)); AFloat fx; AFloat now] in
   pack_values row_binary y)%result.

(** [if not isinstance(y, list): y = [y]] *)
Definition as_list (y : metric_y) : list (option num) :=
  match y with
  | YList l => l
  | YScalar v => [v]
  end.

(** [metric(name, x, y)] on numbers; [now] is what [time.time()] returns.
    [Untyped.metric] below is the same method on arguments of any built-in
    type. *)
Definition metric (name : string) (x : num) (y : metric_y) (now : float) : M unit :=
  (c <- self ;;
   when_ (negb (dict_mem name (defined_metrics c))) (define_metric name []) ;;
   let y := as_list y in
   row_binary <- lift (metric_row x y now) ;;
   modify (fun c => set_metric_subject
                      (on_next {| item_id := name; item_row := row_binary |}
                         (metric_subject c)) c) ;;
   client_patch ("channels." ++ name ++ ".lastValue") (VList (map value_of_opt y)))%ctx.

Definition log (s : string) : M unit :=
  modify (fun c => set_log_subject (on_next s (log_subject c)) c).

Definition shutdown : M unit :=
  (c <- self ;;
   if shutting_down c then ret tt
   else
     modify (set_shutting_down true) ;;
     metric_subject_on_completed ;;
     log_subject_on_completed ;;
     client_shutdown)%ctx.

(** ** Runs: the calls a job and the timers make, one after another *)

Inductive call : Type :=
  | CallIteration (current : Z) (total : option Z) (now : float)
  | CallStep (current : Z) (total size : option Z) (now : float)
  | CallMetric (name : string) (x : num) (y : metric_y) (now : float)
  | CallDefineMetric (name : string) (options : dict value)
  | CallLog (s : string)
  | CallShutdown
  | TickMetric
  | TickSpeed
  | TickLog
  | TickHardware (r : hardware_reading).

Definition perform (k : call) : M unit :=
  match k with
  | CallIteration current total now => iteration current total now
  | CallStep current total size now => step current total size now
  | CallMetric name x y now => metric name x y now
  | CallDefineMetric name options => define_metric name options
  | CallLog s => log s
  | CallShutdown => shutdown
  | TickMetric => tick_metric
  | TickSpeed => tick_speed
  | TickLog => tick_log
  | TickHardware r => tick_hardware r
  end.

(** The context after a call, whether it returned or raised. *)
Definition after (k : call) (c : Context) : Context := snd (perform k c).

(** A caller that catches what a call raises goes on with the context as
    the call left it. *)
Definition run (ks : list call) (c : Context) : Context :=
  fold_left (fun c k => after k c) ks c.

(** The events a call added to the trace of [c], given the context [c']
    it left. *)
Definition emitted (c c' : Context) : list event :=
  skipn (length (trace c)) (trace c').

(** ** [JobDebuggerController] *)

(** [del d[k]] *)
Fixpoint dict_del {V : Type} (k : string) (d : dict V) : dict V :=
  match d with
  | [] => []
  | (k', v) :: rest =>
      if String.eqb k' k then rest else (k', v) :: dict_del k rest
  end.

Record JobDebuggerController : Type := mkDebugger {
  watching_layers : dict bool;
  (** what [snapshot.on_next] was given so far, oldest first *)
  snapshot : list (dict value)
}.

(** [JobDebuggerController.__init__] *)
Definition new_debugger : JobDebuggerController :=
  {| watching_layers := []; snapshot := [] |}.

Definition debugSnapshot (j : JobDebuggerController) : JobDebuggerController :=
  {| watching_layers := watching_layers j;
     snapshot := snapshot j ++ [[("mode"%string, VStr "all")]] |}.

Definition debugStopWatchLayer (id : string) (j : JobDebuggerController)
  : JobDebuggerController :=
  if dict_mem id (watching_layers j)
  then {| watching_layers := dict_del id (watching_layers j);
          snapshot := snapshot j |}
  else j.

Definition debugStartWatchLayer (id : string) (j : JobDebuggerController)
  : JobDebuggerController :=
  {| watching_layers := dict_set id true (watching_layers j);
     snapshot := snapshot j |}.

(** The calls the backend can make on the debugger controller. *)
Inductive debugger_call : Type :=
  | DebugSnapshot
  | DebugStartWatchLayer (id : string)
  | DebugStopWatchLayer (id : string).

Definition debugger_perform (k : debugger_call) (j : JobDebuggerController)
  : JobDebuggerController :=
  match k with
  | DebugSnapshot => debugSnapshot j
  | DebugStartWatchLayer id => debugStartWatchLayer id j
  | DebugStopWatchLayer id => debugStopWatchLayer id j
  end.

Definition debugger_run (ks : list debugger_call) (j : JobDebuggerController)
  : JobDebuggerController :=
  fold_left (fun j k => debugger_perform k j) ks j.

(** ** [metric] on arguments of any built-in type

    [metric(name, x, y)] has no annotations: [x] and the values of [y] are
    whatever the caller passes, and [float()] decides.  [metric] above is
    this function on numbers; here the arguments are [None], numbers,
    strings, lists and tuples.  [float()] on a string parses it and raises
    [ValueError] when it is not a numeral; the parser is the interpreter's
    and is a parameter here. *)

Module Untyped.

#[local] Unset Elimination Schemes.
Inductive pyobj : Type :=
  | ONone
  | ONum (n : num)
  | OStr (s : string)
  | OList (l : list pyobj)
  | OTuple (l : list pyobj).
#[local] Set Elimination Schemes.

(** What the client is handed for an object. *)
Fixpoint value_of_obj (o : pyobj) : value :=
  match o with
  | ONone => VNone
  | ONum n => value_of_num n
  | OStr s => VStr s
  | OList l => VList (map value_of_obj l)
  | OTuple l => VList (map value_of_obj l)
  end.

(** [if not isinstance(y, list): y = [y]] *)
Definition as_list (y : pyobj) : list pyobj :=
  match y with
  | OList l => l
  | _ => [y]
  end.

Section Parser.

(** [float(s)] for a string: its value, or nothing when [s] is not a
    numeral. *)
Variable float_of_str : string -> option float.

(** [float(o)] *)
Definition float_of_obj (o : pyobj) : result float :=
  match o with
  | ONum n => to_float n
  | OStr s =>
      match float_of_str s with
      | Some f => Ok f
      | None => Raise ValueError
      end
  | ONone | OList _ | OTuple _ => Raise TypeError
  end.

(** [float(y1) if y1 is not None else 0.0] *)
Definition value_float (v : pyobj) : result float :=
  match v with
  | ONone => Ok 0%float
  | _ => float_of_obj v
  end.

Fixpoint pack_values (row_binary : bytes) (y : list pyobj) : result bytes :=
  match y with
  | [] => Ok row_binary
  | y1 :: rest =>
      (let? v := value_float y1 in
       let? b := struct_pack [fmt_d] [AFloat v] in
       pack_values (row_binary ++ b) rest)%result
  end.

Definition metric_row (x : pyobj) (y : list pyobj) (now : float) : result bytes :=
  (let? fx := float_of_obj x in
   let? row_binary :=
     struct_pack metric_fmt
       [AInt 1; AInt (Z.of_nat (length y)); AFloat fx; AFloat now] in
   pack_values row_binary y)%result.

Definition metric (name : string) (x y : pyobj) (now : float) : M unit :=
  (c <- self ;;
   when_ (negb (dict_mem name (defined_metrics c))) (define_metric name []) ;;
   let y := as_list y in
   row_binary <- lift (metric_row x y now) ;;
   modify (fun c => set_metric_subject
                      (on_next {| item_id := name; item_row := row_binary |}
                         (metric_subject c)) c) ;;
   client_patch ("channels." ++ name ++ ".lastValue") (VList (map value_of_obj y)))%ctx.

End Parser.

End Untyped.

(** * The vocabulary of the properties *)

(** ** The eta patch *)

(** The value of the ['eta'] patch of [iteration], from the rate, the total
    and the current iteration. *)
Definition eta_of (rate : num) (total current : Z) : result value :=
  if 0 <? total - current
  then (let? eta := num_mul rate (PyInt (total - current)) in
        Ok (value_of_num eta))%result
  else Ok (VInt 0).

(** ** Flushes *)

Definition channel_data_call (iv : string * bytes) : event :=
  JobAction "channelData" [VStr (fst iv); VStr (b64encode (snd iv))].

Definition stream_speed_call (row : bytes) : event :=
  JobAction "streamFile" [VStr ".deepkit/speed.metric"; VStr (b64encode row)].

(** The rows a window receives, pushed one by one. *)
Definition push_all {A : Type} (xs : list A) (s : Subject A) : Subject A :=
  fold_left (fun s x => on_next x s) xs s.

(** ** Grouping a window of metric rows by channel *)

(** A dict given by its keys [ks] and a function from keys to values. *)
Definition tabulate {V : Type} (f : string -> V) (ks : list string) : dict V :=
  map (fun k => (k, f k)) ks.

(** The names in [ids], each once, in order of first appearance. *)
Fixpoint channels (ids : list string) : list string :=
  match ids with
  | [] => []
  | i :: rest => i :: filter (fun j => negb (String.eqb j i)) (channels rest)
  end.

(** The rows pushed for channel [i], concatenated in arrival order. *)
Definition rows_of (i : string) (data : list metric_item) : bytes :=
  concat (map item_row (filter (fun d => String.eqb (item_id d) i) data)).

(** One group per channel of the window. *)
Definition grouped (data : list metric_item) : dict bytes :=
  tabulate (fun i => rows_of i data) (channels (map item_id data)).

(** [e] is a [channelData] call for channel [i]. *)
Definition is_channel_data_for (i : string) (e : event) : bool :=
  match e with
  | JobAction name (VStr j :: _) => String.eqb name "channelData" && String.eqb j i
  | _ => false
  end.

(** The window of the example: ["a"] and ["b"] for channel ["x"], ["c"] for
    channel ["y"]. *)
Definition example_window : list metric_item :=
  [ {| item_id := "x"; item_row := list_byte_of_string "a" |};
    {| item_id := "x"; item_row := list_byte_of_string "b" |};
    {| item_id := "y"; item_row := list_byte_of_string "c" |} ].

(** ** Reading a metric row back *)

(** A metric row read back field by field. *)
Record metric_record : Type := mkRecord {
  version : Z;
  value_count : Z;
  x_coordinate : float;
  timestamp : float;
  values : list float
}.

(** The next [n] bytes and what follows them. *)
Definition take (n : nat) (bs : bytes) : option (bytes * bytes) :=
  if (n <=? length bs)%nat then Some (firstn n bs, skipn n bs) else None.

Fixpoint unpack_doubles (count : nat) (bs : bytes) : option (list float) :=
  match count with
  | O => match bs with [] => Some [] | _ :: _ => None end
  | S n =>
      match take 8 bs with
      | Some (v, rest) =>
          match unpack_doubles n rest with
          | Some vs => Some (unpack_d v :: vs)
          | None => None
          end
      | None => None
      end
  end.

(** Modelled from the spec: the reader of a metric row, which the
    repository does not contain (it only writes rows).  It follows the
    layout of the specification: version (1 byte), value count (2 bytes,
    unsigned), x coordinate (8 bytes, float), timestamp (8 bytes, float),
    then one 8-byte float per value, all little-endian, and nothing after
    the last value. *)
Definition unpack_metric_row (bs : bytes) : option metric_record :=
  match take 1 bs with
  | Some (v, bs1) =>
      match take 2 bs1 with
      | Some (n, bs2) =>
          match take 8 bs2 with
          | Some (x, bs3) =>
              match take 8 bs3 with
              | Some (t, bs4) =>
                  match unpack_doubles (Z.to_nat (le_int n)) bs4 with
                  | Some vs =>
                      Some {| version := le_int v;
                              value_count := le_int n;
                              x_coordinate := unpack_d x;
                              timestamp := unpack_d t;
                              values := vs |}
                  | None => None
                  end
              | None => None
              end
          | None => None
          end
      | None => None
      end
  | None => None
  end.

(** ** The hardware row *)

(** Modelled from the spec: [round(v)], the integer nearest to [v], a tie
    going to the even one.  The repository never rounds; this is the
    scaling the specification describes, to compare [scale16] with. *)
Definition round_float (f : float) : result Z :=
  match Prim2SF f with
  | S754_zero _ => Ok 0
  | S754_finite s m e =>
      if 0 <=? e then Ok (cond_Zopp s (Zpos m * 2 ^ e))
      else
        let q := Zpos m / 2 ^ (- e) in
        let r := Zpos m mod 2 ^ (- e) in
        let up := (2 ^ (- e) <? 2 * r) || ((2 ^ (- e) =? 2 * r) && Z.odd q) in
        Ok (cond_Zopp s (if up then q + 1 else q))
  | S754_infinity _ => Raise OverflowError
  | S754_nan => Raise ValueError
  end.

(** [row[off : off + len]] *)
Definition slice (off len : nat) (row : bytes) : bytes :=
  firstn len (skipn off row).

(** [z] is [f] with its fractional part dropped: [z] has the sign of [f]
    and [|z| <= |f| < |z| + 1], where [|f| = m * 2 ^ e]. *)
Definition truncation_of (f : float) (z : Z) : Prop :=
  match Prim2SF f with
  | S754_zero _ => z = 0
  | S754_finite s m e =>
      z = cond_Zopp s (Z.abs z)
      /\ (0 <= e -> Z.abs z = Zpos m * 2 ^ e)
      /\ (e < 0 -> Z.abs z * 2 ^ (- e) <= Zpos m < (Z.abs z + 1) * 2 ^ (- e))
  | S754_infinity _ | S754_nan => False
  end.

(** The four bytes of ['<f'] for a double that fits. *)
Definition single_bytes (f : float) : bytes :=
  le_bytes 4 (bits32 (SF32_of_float f)).

(** A reading with both shares at 0.99. *)
Definition example_reading : hardware_reading :=
  {| hw_time := 1700000000.25;
     cpu_percent := 99;
     cpu_count := 1;
     memory_percent := 99;
     bytes_recv := 1024;
     bytes_sent := 2048;
     write_bytes := 4096;
     read_bytes := 8192 |}.

Definition example_hardware_row : bytes :=
  Eval vm_compute in
    match hardware_row example_reading with
    | Ok row => row
    | Raise _ => []
    end.

(** ** The rolling window *)

(** [l1] is [l2] with some elements left out, the order kept. *)
Inductive subseq {A : Type} : list A -> list A -> Prop :=
  | subseq_nil : subseq [] []
  | subseq_skip (x : A) (l1 l2 : list A) : subseq l1 l2 -> subseq l1 (x :: l2)
  | subseq_keep (x : A) (l1 l2 : list A) : subseq l1 l2 -> subseq (x :: l1) (x :: l2).

#[local] Hint Constructors subseq : core.

(** The calls that record a sample, and the clock reading they take. *)
Definition records (k : call) : bool :=
  match k with
  | CallIteration _ _ _ | CallStep _ _ _ _ => true
  | _ => false
  end.

Definition clock_of (k : call) : list float :=
  match k with
  | CallIteration _ _ now | CallStep _ _ _ now => [now]
  | _ => []
  end.

Definition clocks (ks : list call) : list float := flat_map clock_of ks.

(** What a recording call that got as far as pruning leaves behind: the
    old window, with or without a new sample stamped [now], pruned; and a
    rate that is the mean of the new window, or the old rate when the new
    window is empty. *)
Definition recorded (now : float) (c c' : Context) : Prop :=
  (seconds_per_iterations c' = prune now (seconds_per_iterations c)
   \/ exists d, seconds_per_iterations c' =
                  prune now (seconds_per_iterations c ++ [{| diff := d; when := now |}]))
  /\ ((seconds_per_iterations c' = [] /\ seconds_per_iteration c' = seconds_per_iteration c)
      \/ exists m, mean (map diff (seconds_per_iterations c')) = Ok m
                   /\ seconds_per_iteration c' = PyFloat m).

Definition untouched (c c' : Context) : Prop :=
  seconds_per_iterations c' = seconds_per_iterations c
  /\ seconds_per_iteration c' = seconds_per_iteration c.

(** The window holds at most 30 samples and, when it is not empty, the
    rate is the mean of its diffs. *)
Definition window_ok (c : Context) : Prop :=
  (length (seconds_per_iterations c) <= 30)%nat
  /\ (seconds_per_iterations c <> [] ->
      exists m, mean (map diff (seconds_per_iterations c)) = Ok m
                /\ seconds_per_iteration c = PyFloat m).

(** Modelled from the spec: the arithmetic mean of some values, their sum
    divided by their number, in double precision: the values are added one
    by one, in order, starting from zero, and the number of values is
    converted to a double. *)
Fixpoint sum_onto (acc : float) (l : list float) : float :=
  match l with
  | [] => acc
  | d :: rest => sum_onto (acc + d)%float rest
  end.

Definition number_of (l : list float) : float :=
  PrimFloat.of_uint63 (Uint63.of_Z (Z.of_nat (length l))).

Definition arithmetic_mean (l : list float) : float :=
  (sum_onto 0 l / number_of l)%float.

(** The clock never goes back: every reading is at most every later one. *)
Definition clock_monotone (ts : list float) : Prop :=
  ForallOrdPairs (fun a b => (a <=? b)%float = true) ts.

(** Oldest first. *)
Definition chronological (w : list sample) : Prop :=
  ForallOrdPairs (fun a b => (when a <=? when b)%float = true) w.

(** ** Shutdown *)

Definition dispatcher_eqb (a b : dispatcher) : bool :=
  match a, b with
  | MetricDispatcher, MetricDispatcher
  | LogDispatcher, LogDispatcher
  | SpeedDispatcher, SpeedDispatcher
  | HardwareDispatcher, HardwareDispatcher => true
  | _, _ => false
  end.

Definition is_completed (d : dispatcher) (e : event) : bool :=
  match e with
  | Completed d' => dispatcher_eqb d d'
  | _ => false
  end.

Definition is_client_shutdown (e : event) : bool :=
  match e with
  | ClientShutdown => true
  | _ => false
  end.

(** The events of tearing down: completions and the close of the client. *)
Definition teardown (e : event) : bool :=
  match e with
  | Completed _ | ClientShutdown => true
  | _ => false
  end.

(** How many events of [t] satisfy [p]. *)
Definition count (p : event -> bool) (t : list event) : nat := length (filter p t).

Definition is_shutdown_call (k : call) : bool :=
  match k with
  | CallShutdown => true
  | _ => false
  end.

(** ** Lazy definition of metric channels *)

(** [e] is a [defineMetric] call for channel [i]. *)
Definition is_define_metric_for (i : string) (e : event) : bool :=
  match e with
  | JobAction name (VStr j :: _) => String.eqb name "defineMetric" && String.eqb j i
  | _ => false
  end.

(** The calls that hand the metric buffer to [on_metric]. *)
Definition flushes_metrics (k : call) : bool :=
  match k with
  | TickMetric | CallShutdown => true
  | _ => false
  end.

(** The metric buffer is live and holds a row for channel [name]. *)
Definition holds_row_for (name : string) (c : Context) : Prop :=
  is_stopped (metric_subject c) = false
  /\ In name (map item_id (pending (metric_subject c))).

(** ** The debugger controller *)

(** Whether layer [i] is watched after the calls [ks], when it was
    ([before = true]) or was not watched before them: what the last call
    about [i] asked for. *)
Fixpoint watched_after (i : string) (ks : list debugger_call) (before : bool) : bool :=
  match ks with
  | [] => before
  | DebugStartWatchLayer j :: rest =>
      watched_after i rest (if String.eqb j i then true else before)
  | DebugStopWatchLayer j :: rest =>
      watched_after i rest (if String.eqb j i then false else before)
  | DebugSnapshot :: rest => watched_after i rest before
  end.

Definition is_snapshot_call (k : debugger_call) : bool :=
  match k with
  | DebugSnapshot => true
  | _ => false
  end.

(** ** Logs *)

(** The text of a [log] call, and nothing for any other event. *)
Definition log_payload (e : event) : string :=
  match e with
  | JobAction name [_; VStr s] => if String.eqb name "log" then s else EmptyString
  | _ => EmptyString
  end.

(** All the text sent in [log] calls, in the order sent. *)
Fixpoint sent_log (t : list event) : string :=
  match t with
  | [] => EmptyString
  | e :: rest => (log_payload e ++ sent_log rest)%string
  end.

(** The text waiting in the log buffer. *)
Definition buffered_log (c : Context) : string :=
  fold_left String.append (pending (log_subject c)) EmptyString.

(** The text given to [log] before the first [shutdown], in order. *)
Fixpoint logged (ks : list call) : string :=
  match ks with
  | [] => EmptyString
  | CallShutdown :: _ => EmptyString
  | CallLog s :: rest => (s ++ logged rest)%string
  | _ :: rest => logged rest
  end.

(** The latch and the two completed subjects agree: before [shutdown] the
    metric and log subjects are live, after it they are completed and their
    buffers are empty; the speed subject is always live. *)
Definition latch_ok (c : Context) : Prop :=
  is_stopped (log_subject c) = shutting_down c
  /\ is_stopped (metric_subject c) = shutting_down c
  /\ is_stopped (speed_report_subject c) = false
  /\ (shutting_down c = true ->
      pending (log_subject c) = [] /\ pending (metric_subject c) = []).

(** [e] is a [job_action] call named [name]. *)
Definition is_action (name : string) (e : event) : bool :=
  match e with
  | JobAction n _ => String.eqb n name
  | _ => false
  end.

(** Neither a [channelData] nor a [log] call. *)
Definition carries_no_data (e : event) : Prop :=
  is_action "channelData" e = false /\ is_action "log" e = false.

(** ** Reading a speed row back *)

Record speed_record : Type := mkSpeedRecord {
  speed_version : Z;
  iteration_fraction : float;
  speed_timestamp : float;
  speed_per_second : float
}.

(** Modelled from the spec: the reader of a speed row, which the
    repository does not contain.  The layout is version (1 byte), iteration
    fraction, timestamp and speed per second (8 bytes each, float),
    little-endian, and nothing after them. *)
Definition unpack_speed_row (bs : bytes) : option speed_record :=
  match take 1 bs with
  | Some (v, bs1) =>
      match take 8 bs1 with
      | Some (x, bs2) =>
          match take 8 bs2 with
          | Some (t, bs3) =>
              match take 8 bs3 with
              | Some (s, []) =>
                  Some {| speed_version := le_int v;
                          iteration_fraction := unpack_d x;
                          speed_timestamp := unpack_d t;
                          speed_per_second := unpack_d s |}
              | _ => None
              end
          | None => None
          end
      | None => None
      end
  | None => None
  end.

(** ** Clock fields *)

(** What [last_iteration_time] and [last_batch_time] hold: the initial
    int [0] or a reading of the clock. *)
Definition is_clock (x : num) : Prop := x = PyInt 0 \/ exists f, x = PyFloat f.

Definition clocks_ok (c : Context) : Prop :=
  is_clock (last_iteration_time c) /\ is_clock (last_batch_time c).

(** ** The metric rows of a channel *)

(** The fixed part of a metric row: version, value count, x and time. *)
Definition metric_header (n : Z) (fx now : float) : bytes :=
  le_bytes 1 1 ++ le_bytes 2 n ++ pack_d fx ++ pack_d now ++ [].

(** ** The progress fields *)

(** The fields that [iteration] and [step] maintain are the same in [c']
    as in [c]. *)
Definition progress_untouched (c c' : Context) : Prop :=
  last_iteration_time c' = last_iteration_time c
  /\ last_batch_time c' = last_batch_time c
  /\ job_iteration c' = job_iteration c
  /\ job_iterations c' = job_iterations c
  /\ seconds_per_iteration c' = seconds_per_iteration c
  /\ seconds_per_iterations c' = seconds_per_iterations c.

(** No [iteration] and no [step] among the calls. *)
Definition no_progress_call (ks : list call) : bool :=
  forallb (fun k => negb (records k)) ks.

(** ** Which call touches what *)

(** The fields that [metric], [define_metric], [log] and [shutdown]
    maintain are the same in [c'] as in [c]. *)
Definition telemetry_untouched (c c' : Context) : Prop :=
  defined_metrics c' = defined_metrics c
  /\ log_subject c' = log_subject c
  /\ metric_subject c' = metric_subject c
  /\ shutting_down c' = shutting_down c.

Definition touches_speed_buffer (k : call) : bool :=
  match k with
  | CallStep _ _ _ _ | TickSpeed => true
  | _ => false
  end.

(** ** Reading the rows of a channel back *)

(** What one [metric] call should read back as: version 1, the number of
    values, [float(x)], the clock reading and the values as floats. *)
Definition record_of (x : num) (y : list (option num)) (now : float)
  : result metric_record :=
  (let? fx := to_float x in
   let? fys := rmap value_float y in
   Ok {| version := 1;
         value_count := Z.of_nat (length y);
         x_coordinate := fx;
         timestamp := now;
         values := fys |})%result.

(** Modelled from the spec: the reader of a channel payload, which the
    repository does not contain.  A payload is rows one after another with
    nothing between them; the value count in the header of a row says
    where the row ends, 19 + 8 * count bytes after its start.  [fuel]
    bounds the number of rows read. *)
Fixpoint unpack_metric_rows (fuel : nat) (bs : bytes) : option (list metric_record) :=
  match bs with
  | [] => Some []
  | _ :: _ =>
      match fuel with
      | O => None
      | S fuel' =>
          match take 1 bs with
          | Some (_, bs1) =>
              match take 2 bs1 with
              | Some (n, _) =>
                  match take (19 + 8 * Z.to_nat (le_int n)) bs with
                  | Some (row, rest) =>
                      match unpack_metric_row row, unpack_metric_rows fuel' rest with
                      | Some r, Some rs => Some (r :: rs)
                      | _, _ => None
                      end
                  | None => None
                  end
              | None => None
              end
          | None => None
          end
      end
  end.

(** The arguments of one [metric] call and the clock reading it took. *)
Definition metric_args : Type := num * list (option num) * float.

Definition row_of_args (a : metric_args) : result bytes :=
  let '(x, y, now) := a in metric_row x y now.

Definition record_of_args (a : metric_args) : result metric_record :=
  let '(x, y, now) := a in record_of x y now.

(** ** The arguments of [metric] *)

(** The numbers and [None] among the objects. *)
Definition obj_of_opt (v : option num) : Untyped.pyobj :=
  match v with
  | Some n => Untyped.ONum n
  | None => Untyped.ONone
  end.

Definition obj_of_y (y : metric_y) : Untyped.pyobj :=
  match y with
  | YList l => Untyped.OList (map obj_of_opt l)
  | YScalar v => obj_of_opt v
  end.

Definition is_number (o : Untyped.pyobj) : bool :=
  match o with
  | Untyped.ONum _ => true
  | _ => false
  end.

Definition number_or_none (o : Untyped.pyobj) : bool :=
  match o with
  | Untyped.ONum _ | Untyped.ONone => true
  | _ => false
  end.

(** * Properties *)

(** ** Facts about the encodings *)

Lemma Z_of_byte_of_Z (z : Z) : Z_of_byte (byte_of_Z z) = z mod 256.
Proof.
  unfold Z_of_byte, byte_of_Z.
  assert (Hr : 0 <= z mod 256 < 256) by (apply Z.mod_pos_bound; lia).
  destruct (Byte.of_N (Z.to_N (z mod 256))) as [b|] eqn:E.
  - apply Byte.to_of_N in E. rewrite E. lia.
  - apply Byte.of_N_None_iff in E. lia.
Qed.

Lemma le_bytes_length (n : nat) (z : Z) : length (le_bytes n z) = n.
Proof. revert z. induction n; intros z; simpl; [reflexivity | now rewrite IHn]. Qed.

Lemma le_int_le_bytes (n : nat) (z : Z) :
  0 <= z < 256 ^ Z.of_nat n -> le_int (le_bytes n z) = z.
Proof.
  revert z. induction n as [|n IH]; intros z Hz.
  - simpl in *. lia.
  - cbn [le_bytes le_int]. rewrite Z_of_byte_of_Z.
    rewrite Nat2Z.inj_succ, Z.pow_succ_r in Hz by lia.
    rewrite IH.
    + pose proof (Z.div_mod z 256). lia.
    + split; [apply Z.div_pos; lia | apply Z.div_lt_upper_bound; lia].
Qed.

Lemma digits2_pos_bounds (m : positive) :
  2 ^ (Zpos (digits2_pos m) - 1) <= Zpos m < 2 ^ Zpos (digits2_pos m).
Proof.
  induction m as [m IH|m IH|]; cbn [digits2_pos].
  - rewrite Pos2Z.inj_succ.
    replace (Z.succ (Zpos (digits2_pos m)) - 1) with (Z.succ (Zpos (digits2_pos m) - 1)) by lia.
    rewrite !Z.pow_succ_r by lia. lia.
  - rewrite Pos2Z.inj_succ.
    replace (Z.succ (Zpos (digits2_pos m)) - 1) with (Z.succ (Zpos (digits2_pos m) - 1)) by lia.
    rewrite !Z.pow_succ_r by lia. lia.
  - simpl. lia.
Qed.

Module IEEEFacts.
Import IEEE.
Section Interchange.
Variables mw ew : Z.
Hypothesis Hmw : 0 < mw.
Hypothesis Hew : 1 < ew.

Local Abbreviation prec := (iprec mw).
Local Abbreviation emax := (iemax ew).
Local Abbreviation emin := (iemin mw ew).

(** A word assembled from a sign, an exponent field and a significand
    field gives the three fields back. *)
Lemma fields (s : bool) (E M : Z) :
  0 <= E < 2 ^ ew -> 0 <= M < 2 ^ mw ->
  let b := sign_bit mw ew s + E * 2 ^ mw + M in
  Z.testbit b (mw + ew) = s /\ (b / 2 ^ mw) mod 2 ^ ew = E /\ b mod 2 ^ mw = M.
Proof.
  intros HE HM b.
  assert (Hp : 0 < 2 ^ mw) by (apply Z.pow_pos_nonneg; lia).
  assert (Hq : 0 < 2 ^ ew) by (apply Z.pow_pos_nonneg; lia).
  assert (Hs : sign_bit mw ew s = Z.b2z s * 2 ^ ew * 2 ^ mw).
  { unfold sign_bit. rewrite Z.pow_add_r by lia. destruct s; cbn [Z.b2z]; ring. }
  assert (Hdiv : b / 2 ^ mw = Z.b2z s * 2 ^ ew + E).
  { unfold b. rewrite Hs.
    replace (Z.b2z s * 2 ^ ew * 2 ^ mw + E * 2 ^ mw + M)
      with (M + (Z.b2z s * 2 ^ ew + E) * 2 ^ mw) by ring.
    rewrite Z.div_add by lia. rewrite Z.div_small by lia. lia. }
  repeat split.
  - apply Z.b2z_inj. rewrite Z.testbit_spec' by lia.
    rewrite Z.pow_add_r by lia.
    rewrite <- Z.div_div by lia. rewrite Hdiv.
    rewrite Z.add_comm, Z.div_add by lia. rewrite (Z.div_small E) by lia.
    destruct s; reflexivity.
  - rewrite Hdiv. rewrite Z.add_comm, Z.mod_add by lia. apply Z.mod_small; lia.
  - unfold b. rewrite Hs.
    replace (Z.b2z s * 2 ^ ew * 2 ^ mw + E * 2 ^ mw + M)
      with (M + (Z.b2z s * 2 ^ ew + E) * 2 ^ mw) by ring.
    rewrite Z.mod_add by lia. apply Z.mod_small; lia.
Qed.

Lemma emax_double : 2 ^ ew = 2 * emax.
Proof.
  unfold iemax. replace ew with (Z.succ (ew - 1)) at 1 by lia.
  rewrite Z.pow_succ_r by lia. reflexivity.
Qed.

(** Decoding the interchange encoding of a valid float gives it back. *)
Lemma SF_of_bits_of_SF (f : spec_float) :
  SpecFloat.valid_binary prec emax f = true ->
  SF_of_bits mw ew (bits_of_SF mw ew f) = f.
Proof.
  intros Hv.
  assert (Hp : 0 < 2 ^ mw) by (apply Z.pow_pos_nonneg; lia).
  assert (Hq : 2 < 2 ^ ew).
  { replace 2 with (2 ^ 1) at 1 by reflexivity. apply Z.pow_lt_mono_r; lia. }
  assert (Hh : 0 < 2 ^ (mw - 1) < 2 ^ mw).
  { split; [apply Z.pow_pos_nonneg; lia | apply Z.pow_lt_mono_r; lia]. }
  destruct f as [s|s| |s m e]; cbn [bits_of_SF].
  - destruct (fields s 0 0) as (Hb & He & Hm); [lia | lia |].
    cbn [Z.mul] in *. rewrite ?Z.add_0_r in *.
    unfold SF_of_bits. rewrite Hb, He, Hm. reflexivity.
  - destruct (fields s (2 ^ ew - 1) 0) as (Hb & He & Hm); [lia | lia |].
    rewrite ?Z.add_0_r in *. unfold SF_of_bits. rewrite Hb, He, Hm.
    destruct (Z.eqb_spec (2 ^ ew - 1) 0); [lia |].
    rewrite Z.eqb_refl. reflexivity.
  - destruct (fields false (2 ^ ew - 1) (2 ^ (mw - 1))) as (Hb & He & Hm); [lia | lia |].
    unfold sign_bit in *. cbn [Z.add] in *.
    unfold SF_of_bits. rewrite He, Hm.
    destruct (Z.eqb_spec (2 ^ ew - 1) 0); [lia |].
    rewrite Z.eqb_refl.
    destruct (Z.eqb_spec (2 ^ (mw - 1)) 0); [lia | reflexivity].
  - cbn [SpecFloat.valid_binary] in Hv. unfold bounded, canonical_mantissa in Hv.
    apply andb_prop in Hv. destruct Hv as [Hc Hle].
    apply Z.eqb_eq in Hc. apply Z.leb_le in Hle.
    pose proof (digits2_pos_bounds m) as Hd.
    unfold fexp in Hc. fold emin in Hc.
    destruct (Z.ltb_spec (Zpos m) (2 ^ mw)) as [Hsub|Hnorm].
    + (* subnormal: the exponent field is zero *)
      assert (He : e = emin).
      { destruct (Z_lt_le_dec (Zpos (digits2_pos m) + e - prec) emin) as [|Hge]; [lia|].
        exfalso.
        assert (Zpos (digits2_pos m) = prec) by lia.
        assert (2 ^ mw <= Zpos m); [| lia].
        replace mw with (Zpos (digits2_pos m) - 1) by (unfold iprec in *; lia).
        apply Hd. }
      destruct (fields s 0 (Zpos m)) as (Hb & Hex & Hm); [lia | lia |].
      cbn [Z.mul] in *. rewrite Z.add_0_r in *.
      unfold SF_of_bits. rewrite Hb, Hex, Hm. cbn [Z.eqb]. now subst e.
    + (* normal: the leading bit is implicit *)
      assert (Hdig : Zpos (digits2_pos m) = prec).
      { destruct (Z_lt_le_dec prec (Zpos (digits2_pos m))) as [Hgt|Hle'].
        - exfalso. unfold SpecFloat.emin in *. fold emin in *. lia.
        - destruct (Z_lt_le_dec (Zpos (digits2_pos m)) prec) as [Hlt|]; [|lia].
          exfalso.
          assert (Zpos m < 2 ^ mw); [| lia].
          eapply Z.lt_le_trans; [apply Hd |].
          apply Z.pow_le_mono_r; unfold iprec in *; lia. }
      assert (Hm2 : Zpos m < 2 * 2 ^ mw).
      { rewrite <- Z.pow_succ_r by lia. rewrite Hdig in Hd. apply Hd. }
      assert (Hemin : emin <= e) by lia.
      pose proof emax_double as Hed.
      assert (HE : 0 < e - emin + 1 < 2 ^ ew - 1).
      { unfold iemin, SpecFloat.emin in *. fold prec emax in *. lia. }
      destruct (fields s (e - emin + 1) (Zpos m - 2 ^ mw)) as (Hb & Hex & Hm); [lia | lia |].
      unfold SF_of_bits. rewrite Hb, Hex, Hm.
      destruct (Z.eqb_spec (e - emin + 1) 0); [lia |].
      destruct (Z.eqb_spec (e - emin + 1) (2 ^ ew - 1)); [lia |].
      replace (Zpos m - 2 ^ mw + 2 ^ mw) with (Zpos m) by lia.
      f_equal. lia.
Qed.

(** Every encoding fits in [1 + ew + mw] bits. *)
Lemma bits_of_SF_range (f : spec_float) :
  SpecFloat.valid_binary prec emax f = true ->
  0 <= bits_of_SF mw ew f < 2 ^ (mw + ew + 1).
Proof.
  intros Hv.
  assert (Hp : 0 < 2 ^ mw) by (apply Z.pow_pos_nonneg; lia).
  assert (Hq : 2 < 2 ^ ew).
  { replace 2 with (2 ^ 1) at 1 by reflexivity. apply Z.pow_lt_mono_r; lia. }
  assert (Hh : 0 < 2 ^ (mw - 1) < 2 ^ mw).
  { split; [apply Z.pow_pos_nonneg; lia | apply Z.pow_lt_mono_r; lia]. }
  assert (Htop : 2 ^ (mw + ew + 1) = 2 * (2 ^ ew * 2 ^ mw)).
  { replace (mw + ew + 1) with (Z.succ (mw + ew)) by lia.
    rewrite Z.pow_succ_r, Z.pow_add_r by lia. ring. }
  assert (Hsb : forall s, sign_bit mw ew s = 0 \/ sign_bit mw ew s = 2 ^ ew * 2 ^ mw).
  { intros []; unfold sign_bit; [right | left; reflexivity].
    rewrite Z.pow_add_r by lia. ring. }
  assert (Hfit : forall s E M, 0 <= E < 2 ^ ew -> 0 <= M < 2 ^ mw ->
            0 <= sign_bit mw ew s + E * 2 ^ mw + M < 2 ^ (mw + ew + 1)).
  { intros s E M HE HM. rewrite Htop. destruct (Hsb s) as [-> | ->]; nia. }
  destruct f as [s|s| |s m e]; cbn [bits_of_SF].
  - specialize (Hfit s 0 0). lia.
  - specialize (Hfit s (2 ^ ew - 1) 0). lia.
  - specialize (Hfit false (2 ^ ew - 1) (2 ^ (mw - 1))). unfold sign_bit in Hfit. lia.
  - cbn [SpecFloat.valid_binary] in Hv. unfold bounded, canonical_mantissa in Hv.
    apply andb_prop in Hv. destruct Hv as [Hc Hle].
    apply Z.eqb_eq in Hc. apply Z.leb_le in Hle.
    pose proof (digits2_pos_bounds m) as Hd.
    unfold fexp in Hc. fold emin in Hc.
    destruct (Z.ltb_spec (Zpos m) (2 ^ mw)) as [Hsub|Hnorm].
    + specialize (Hfit s 0 (Zpos m)). lia.
    + assert (Hdig : Zpos (digits2_pos m) <= prec).
      { destruct (Z_lt_le_dec prec (Zpos (digits2_pos m))) as [Hgt|Hle']; [|lia].
        exfalso. unfold SpecFloat.emin in *. fold emin in *. lia. }
      assert (Hm2 : Zpos m < 2 * 2 ^ mw).
      { rewrite <- Z.pow_succ_r by lia.
        eapply Z.lt_le_trans; [apply Hd |].
        apply Z.pow_le_mono_r; unfold iprec in *; lia. }
      pose proof emax_double as Hed.
      assert (HE : 0 < e - emin + 1 < 2 ^ ew - 1).
      { unfold iemin, SpecFloat.emin in *. fold prec emax in *. lia. }
      specialize (Hfit s (e - emin + 1) (Zpos m - 2 ^ mw)). lia.
Qed.
End Interchange.
End IEEEFacts.

(** ** Basic facts about the monad and the trace *)

Lemma run_app (ks1 ks2 : list call) (c : Context) :
  run (ks1 ++ ks2) c = run ks2 (run ks1 c).
Proof. unfold run. apply fold_left_app. Qed.

Lemma run_snoc (ks : list call) (k : call) (c : Context) :
  run (ks ++ [k]) c = after k (run ks c).
Proof. rewrite run_app. reflexivity. Qed.

Lemma skipn_length_app {A : Type} (l es : list A) : skipn (length l) (l ++ es) = es.
Proof. induction l; simpl; auto. Qed.

(** Symbolic execution of a method body: unfold the monad, then split on
    whatever test or fallible computation the execution is stuck on. *)
Ltac reduce_m :=
  cbv beta iota zeta delta
    [bind ret lift self modify when_ emit client_patch client_job_action
     client_shutdown append_sample prune_window fst snd
     set_defined_metrics set_log_subject set_metric_subject
     set_speed_report_subject set_shutting_down set_last_iteration_time
     set_last_batch_time set_job_iteration set_job_iterations
     set_seconds_per_iteration set_seconds_per_iterations set_trace
     defined_metrics log_subject metric_subject speed_report_subject
     shutting_down last_iteration_time last_batch_time job_iteration
     job_iterations seconds_per_iteration seconds_per_iterations trace].

Ltac split_m :=
  match goal with
  | |- context [match ?x with _ => _ end] =>
      lazymatch x with
      | context [match _ with _ => _ end] => fail
      | _ =>
          lazymatch type of x with
          | result _ => destruct x eqn:?
          | bool => destruct x eqn:?
          | option _ => destruct x eqn:?
          | num => destruct x eqn:?
          | _ => is_var x; destruct x
          end
      end
  end.

Ltac exec_m := reduce_m; repeat (split_m; reduce_m).

Lemma set_trace_nil (c : Context) : set_trace (trace c ++ []) c = c.
Proof. destruct c. unfold set_trace. cbn. now rewrite app_nil_r. Qed.

Lemma set_trace_set_trace (c : Context) (t1 t2 : list event) :
  set_trace t2 (set_trace t1 c) = set_trace t2 c.
Proof. reflexivity. Qed.

Lemma trace_set_trace (c : Context) (t : list event) : trace (set_trace t c) = t.
Proof. reflexivity. Qed.

Lemma emitted_set_trace (c : Context) (es : list event) :
  emitted c (set_trace (trace c ++ es) c) = es.
Proof. unfold emitted. rewrite trace_set_trace. apply skipn_length_app. Qed.

(** A loop whose body makes one call on the client makes one call per
    element, in order, and returns. *)
Lemma for_each_emit {A : Type} (f : A -> event) (l : list A) (c : Context) :
  for_each l (fun a => emit (f a)) c = (Ok tt, set_trace (trace c ++ map f l) c).
Proof.
  revert c. induction l as [|a l IH]; intros c; cbn [for_each map].
  - unfold ret. now rewrite set_trace_nil.
  - unfold bind at 1. unfold emit at 1, modify. rewrite IH.
    rewrite trace_set_trace, set_trace_set_trace, <- app_assoc. reflexivity.
Qed.

(** ** Step with a zero total *)

(** C9, amended: nothing guards [total].  [step] called with [total=0]
    raises [ZeroDivisionError] at the division [current / total]; by then
    the call has sent its ['step'] patch, and that is all it has done: the
    context is otherwise untouched, with no further patch, no speed row
    and no sample. *)
Theorem step_total_zero_fails_fast
    (current : Z) (size : option Z) (now : float) (c : Context) :
  step current (Some 0) size now c =
    (Raise ZeroDivisionError, set_trace (trace c ++ [Patch "step" (VInt current)]) c)
  /\ emitted c (after (CallStep current (Some 0) size now) c) =
       [Patch "step" (VInt current)]
  /\ speed_report_subject (after (CallStep current (Some 0) size now) c) =
       speed_report_subject c
  /\ seconds_per_iterations (after (CallStep current (Some 0) size now) c) =
       seconds_per_iterations c.
Proof.
  assert (H : step current (Some 0) size now c =
    (Raise ZeroDivisionError, set_trace (trace c ++ [Patch "step" (VInt current)]) c))
    by reflexivity.
  split; [exact H |].
  unfold after, perform. rewrite H. cbn [snd].
  rewrite emitted_set_trace. repeat split.
Qed.

(** C9 as stated fails: the failing call has produced a state patch, the
    ['step'] patch, so the context it leaves is not the one it found; and
    what it raises is the [ZeroDivisionError] of the division, the
    exception that a [step] with a valid total raises when the clock has not
    moved, so the error does not tell the contract violation from that. *)
Lemma zero_total_error_is_generic :
  let c := after (CallIteration 0 (Some 10) 100) (init "") in
  let c' := after (CallStep 1 (Some 0) (Some 32) 101) c in
  fst (step 1 (Some 0) (Some 32) 101 c) = Raise ZeroDivisionError
  /\ fst (step 1 (Some 10) (Some 32) 100 c) = Raise ZeroDivisionError
  /\ emitted c c' = [Patch "step" (VInt 1)]
  /\ c' <> c.
Proof.
  repeat split; try (vm_compute; reflexivity).
  intros H. apply (f_equal (fun c => length (trace c))) in H.
  vm_compute in H. discriminate H.
Qed.

(** ** Iteration without a total *)

Ltac trace_norm :=
  unfold emitted; cbn [trace];
  repeat rewrite <- app_assoc; rewrite ?skipn_length_app, ?skipn_all; cbn [app].

(** C10: when [iteration(current, total)] is called with [total] equal to
    [None] or [0], [job_iterations] keeps its previous value, no
    ['iterations'] patch is emitted, and the ['eta'] patch, emitted whenever
    the call returns, is computed from that previous total. *)
Theorem iteration_without_total_keeps_iterations
    (current : Z) (total : option Z) (now : float) (c : Context) :
  total = None \/ total = Some 0 ->
  let c' := after (CallIteration current total now) c in
  job_iterations c' = job_iterations c
  /\ (forall v, ~ In (Patch "iterations" v) (emitted c c'))
  /\ (forall v, In (Patch "eta" v) (emitted c c') ->
        eta_of (seconds_per_iteration c') (job_iterations c) current = Ok v)
  /\ (fst (iteration current total now c) = Ok tt ->
        exists v, In (Patch "eta" v) (emitted c c')).
Proof.
  intros Htotal c'. subst c'. unfold eta_of, after, perform, iteration.
  destruct c.
  destruct Htotal as [-> | ->]; cbn [truthy_opt Z.eqb negb].
  all: exec_m.
  all: trace_norm.
  all: split; [reflexivity | split; [| split]].
  all: try (intros v Hin; cbn [In] in Hin;
            repeat (destruct Hin as [Hin | Hin]; try discriminate Hin);
            try contradiction;
            inversion Hin; subst;
            repeat match goal with
                   | H : _ = Ok _ |- _ => rewrite H
                   end;
            reflexivity).
  all: try (intros Hret; discriminate Hret).
  all: intros _; eexists; cbn [In]; eauto 6.
Qed.

Lemma iteration_without_total_witness :
  (@None Z = None \/ @None Z = Some 0)
  /\ let c := after (CallIteration 5 (Some 10) 100) (init "") in
     let c' := after (CallIteration 6 None 101) c in
     job_iterations c' = job_iterations c
     /\ (forall v, ~ In (Patch "iterations" v) (emitted c c'))
     /\ (forall v, In (Patch "eta" v) (emitted c c') ->
           eta_of (seconds_per_iteration c') (job_iterations c) 6 = Ok v)
     /\ (fst (iteration 6 None 101 c) = Ok tt ->
           exists v, In (Patch "eta" v) (emitted c c')).
Proof.
  split.
  - left. reflexivity.
  - exact (iteration_without_total_keeps_iterations 6 None 101
             (after (CallIteration 5 (Some 10) 100) (init ""))
             (or_introl eq_refl)).
Defined.

(** ** The flush callbacks *)

(** What [on_metric] does with a buffer: one call per entry of [packed]. *)
Lemma on_metric_run (data : list metric_item) (c : Context) :
  on_metric data c =
    (Ok tt,
     set_trace (trace c ++ map channel_data_call (fold_left pack_item data [])) c).
Proof.
  unfold on_metric. destruct data as [|d data].
  - cbn. now rewrite set_trace_nil.
  - cbn [length Nat.eqb]. unfold client_job_action.
    apply (for_each_emit channel_data_call).
Qed.

Lemma on_speed_report_run (rows : list bytes) (c : Context) :
  on_speed_report rows c =
    (Ok tt,
     set_trace (trace c ++ match rows with
                           | [] => []
                           | _ => [stream_speed_call (last rows [])]
                           end) c).
Proof.
  unfold on_speed_report. destruct rows as [|r rows].
  - cbn. now rewrite set_trace_nil.
  - reflexivity.
Qed.

Lemma on_log_run (data : list string) (c : Context) :
  on_log data c =
    (Ok tt,
     set_trace (trace c ++ match data with
                           | [] => []
                           | _ => [JobAction "log"
                                     [VStr "main_0";
                                      VStr (fold_left String.append data EmptyString)]]
                           end) c).
Proof.
  unfold on_log. destruct data as [|d data].
  - cbn. now rewrite set_trace_nil.
  - reflexivity.
Qed.

Lemma push_all_live {A : Type} (xs : list A) (s : Subject A) :
  is_stopped s = false ->
  push_all xs s = mkSubject (pending s ++ xs) false.
Proof.
  revert s. induction xs as [|x xs IH]; intros [p st] Hs; cbn in Hs; subst st.
  - cbn. now rewrite app_nil_r.
  - unfold push_all in *. cbn [fold_left]. unfold on_next at 2.
    cbn [is_stopped pending]. rewrite IH by reflexivity.
    cbn [pending]. now rewrite <- app_assoc.
Qed.

Lemma tick_speed_run (c : Context) :
  is_stopped (speed_report_subject c) = false ->
  let c' := after TickSpeed c in
  pending (speed_report_subject c') = []
  /\ (pending (speed_report_subject c) = [] -> emitted c c' = [])
  /\ (forall earlier row,
        pending (speed_report_subject c) = earlier ++ [row] ->
        emitted c c' = [stream_speed_call row]).
Proof.
  intros Hlive c'. subst c'. unfold after, perform, tick_speed.
  destruct c as [dm ls ms ss sd lit lbt ji jis spi w tr].
  cbn [speed_report_subject] in Hlive.
  reduce_m. rewrite Hlive, on_speed_report_run. reduce_m.
  cbn [pending new_subject].
  split; [reflexivity |]. split.
  - intros ->. now trace_norm.
  - intros earlier row ->. rewrite last_last.
    destruct (earlier ++ [row]) eqn:E.
    + now destruct earlier.
    + now trace_norm.
Qed.

(** C8: when the rows [rows] are pushed into an empty, live speed buffer
    and the timer fires, the flush makes exactly one [streamFile] call,
    carrying the last row pushed, if there was at least one row (every
    earlier row of the window is dropped), and no call at all if there was
    none; the buffer is empty afterwards. *)
Theorem speed_flush_keeps_latest (c : Context) (rows : list bytes) :
  is_stopped (speed_report_subject c) = false ->
  pending (speed_report_subject c) = [] ->
  let c1 := set_speed_report_subject (push_all rows (speed_report_subject c)) c in
  let c' := after TickSpeed c1 in
  pending (speed_report_subject c') = []
  /\ (rows = [] -> emitted c1 c' = [])
  /\ (forall earlier row,
        rows = earlier ++ [row] -> emitted c1 c' = [stream_speed_call row]).
Proof.
  intros Hlive Hempty c1 c'.
  assert (Hc1 : speed_report_subject c1 = mkSubject rows false).
  { subst c1. cbn [speed_report_subject set_speed_report_subject].
    rewrite push_all_live by exact Hlive. now rewrite Hempty. }
  destruct (tick_speed_run c1) as (Hp & Hnone & Hlast).
  { now rewrite Hc1. }
  rewrite Hc1 in Hnone, Hlast. cbn [pending] in Hnone, Hlast.
  repeat split; assumption.
Qed.

Lemma speed_flush_keeps_latest_witness :
  let rows := [list_byte_of_string "r1"; list_byte_of_string "r2"] in
  let c1 := set_speed_report_subject
              (push_all rows (speed_report_subject (init ""))) (init "") in
  let c' := after TickSpeed c1 in
  pending (speed_report_subject c') = []
  /\ (rows = [] -> emitted c1 c' = [])
  /\ (forall earlier row,
        rows = earlier ++ [row] -> emitted c1 c' = [stream_speed_call row]).
Proof.
  exact (speed_flush_keeps_latest (init "")
           [list_byte_of_string "r1"; list_byte_of_string "r2"]
           eq_refl eq_refl).
Defined.

(** ** Dicts *)

Lemma dict_mem_In {V : Type} (k : string) (d : dict V) :
  dict_mem k d = true <-> In k (map fst d).
Proof.
  unfold dict_mem. rewrite existsb_exists. split.
  - intros ((k', v) & Hin & Heq). apply String.eqb_eq in Heq. cbn in Heq. subst k'.
    apply (in_map fst) in Hin. exact Hin.
  - intros Hin. apply in_map_iff in Hin. destruct Hin as ((k', v) & Heq & Hin).
    cbn in Heq. subst k'. exists (k, v). split; [exact Hin | apply String.eqb_refl].
Qed.

Lemma dict_mem_false {V : Type} (k : string) (d : dict V) :
  dict_mem k d = false <-> ~ In k (map fst d).
Proof.
  rewrite <- dict_mem_In. destruct (dict_mem k d); split; congruence.
Qed.

Lemma dict_get_app_notin {V : Type} (k : string) (d1 d2 : dict V) :
  ~ In k (map fst d1) -> dict_get k (d1 ++ d2) = dict_get k d2.
Proof.
  induction d1 as [|(k', v) d1 IH]; intros Hnin; cbn [app dict_get map fst In] in *.
  - reflexivity.
  - destruct (String.eqb_spec k' k) as [->|Hne].
    + exfalso. apply Hnin. now left.
    + apply IH. intros Hin. apply Hnin. now right.
Qed.

Lemma dict_set_app_notin {V : Type} (k : string) (v : V) (d1 d2 : dict V) :
  ~ In k (map fst d1) -> dict_set k v (d1 ++ d2) = d1 ++ dict_set k v d2.
Proof.
  induction d1 as [|(k', v') d1 IH]; intros Hnin; cbn [app dict_set map fst In] in *.
  - reflexivity.
  - destruct (String.eqb_spec k' k) as [->|Hne].
    + exfalso. apply Hnin. now left.
    + f_equal. apply IH. intros Hin. apply Hnin. now right.
Qed.

Lemma tabulate_keys {V : Type} (f : string -> V) (ks : list string) :
  map fst (tabulate f ks) = ks.
Proof. unfold tabulate. rewrite map_map. cbn. apply map_id. Qed.

Lemma dict_get_tabulate {V : Type} (f : string -> V) (ks : list string) (k : string) :
  In k ks -> dict_get k (tabulate f ks) = Some (f k).
Proof.
  induction ks as [|k' ks IH]; intros Hin; cbn [tabulate map dict_get In] in *.
  - contradiction.
  - destruct (String.eqb_spec k' k) as [->|Hne]; [reflexivity |].
    destruct Hin as [->|Hin]; [contradiction | now apply IH].
Qed.

Lemma tabulate_ext_in {V : Type} (f g : string -> V) (ks : list string) :
  (forall k, In k ks -> f k = g k) -> tabulate f ks = tabulate g ks.
Proof.
  intros H. unfold tabulate. apply map_ext_in. intros k Hk. now rewrite H.
Qed.

Lemma dict_set_tabulate {V : Type} (f : string -> V) (ks : list string)
    (k : string) (v : V) :
  NoDup ks -> In k ks ->
  dict_set k v (tabulate f ks) =
    tabulate (fun j => if String.eqb j k then v else f j) ks.
Proof.
  induction ks as [|k' ks IH]; intros Hnd Hin; [contradiction |].
  inversion Hnd as [|? ? Hnotin Hnd']; subst.
  cbn [tabulate map dict_set]. fold (tabulate f ks).
  fold (tabulate (fun j => if String.eqb j k then v else f j) ks).
  destruct (String.eqb_spec k' k) as [->|Hne].
  - f_equal. apply tabulate_ext_in. intros j Hj.
    destruct (String.eqb_spec j k) as [->|]; [contradiction | reflexivity].
  - f_equal. destruct Hin as [->|Hin]; [contradiction | now apply IH].
Qed.

(** ** Grouping a window of metric rows by channel *)

Lemma channels_In (ids : list string) (i : string) : In i (channels ids) <-> In i ids.
Proof.
  induction ids as [|a ids IH]; cbn [channels In]; [tauto |].
  rewrite filter_In, IH, negb_true_iff.
  destruct (String.eqb_spec i a) as [->|Hne]; split; intros H; auto.
  - destruct H as [H|[H _]]; auto.
  - destruct H as [H|H]; auto.
Qed.

Lemma channels_NoDup (ids : list string) : NoDup (channels ids).
Proof.
  induction ids as [|a ids IH]; cbn [channels]; constructor.
  - rewrite filter_In, String.eqb_refl. cbn. intros [_ H]. discriminate.
  - now apply NoDup_filter.
Qed.

Lemma channels_snoc (ids : list string) (i : string) :
  channels (ids ++ [i]) =
    if existsb (String.eqb i) ids then channels ids else channels ids ++ [i].
Proof.
  induction ids as [|a ids IH]; cbn [app channels existsb]; [reflexivity |].
  rewrite IH. destruct (existsb (String.eqb i) ids).
  - now rewrite orb_true_r.
  - rewrite orb_false_r, filter_app. cbn [filter].
    destruct (String.eqb_spec i a) as [->|Hne]; cbn [negb app].
    + now rewrite app_nil_r.
    + reflexivity.
Qed.

Lemma rows_of_snoc (j : string) (data : list metric_item) (d : metric_item) :
  rows_of j (data ++ [d]) =
    rows_of j data ++ (if String.eqb (item_id d) j then item_row d else []).
Proof.
  unfold rows_of. rewrite filter_app, map_app, concat_app. f_equal.
  cbn [filter]. destruct (String.eqb (item_id d) j); cbn; [apply app_nil_r | reflexivity].
Qed.

Lemma rows_of_absent (j : string) (data : list metric_item) :
  ~ In j (map item_id data) -> rows_of j data = [].
Proof.
  intros Hnin. unfold rows_of.
  replace (filter (fun d => String.eqb (item_id d) j) data) with (@nil metric_item);
    [reflexivity |].
  symmetry. induction data as [|d data IH]; [reflexivity |].
  cbn [filter map In] in *. destruct (String.eqb_spec (item_id d) j) as [E|E].
  - exfalso. apply Hnin. now left.
  - apply IH. intros H. apply Hnin. now right.
Qed.

Lemma existsb_eqb_In (i : string) (ids : list string) :
  existsb (String.eqb i) ids = true <-> In i ids.
Proof.
  rewrite existsb_exists. split.
  - intros (x & Hx & E). apply String.eqb_eq in E. now subst.
  - intros H. exists i. split; [exact H | apply String.eqb_refl].
Qed.

(** The dict [on_metric] builds is the grouping of the window. *)
Lemma packed_grouped (data : list metric_item) :
  fold_left pack_item data [] = grouped data.
Proof.
  induction data as [|d data IH] using rev_ind; [reflexivity |].
  rewrite fold_left_app. cbn [fold_left]. rewrite IH. clear IH.
  unfold grouped at 2. rewrite map_app. cbn [map]. rewrite channels_snoc.
  unfold pack_item.
  destruct (existsb (String.eqb (item_id d)) (map item_id data)) eqn:Eseen.
  - (* the channel is already in the dict: its entry grows *)
    apply existsb_eqb_In in Eseen.
    assert (Hmem : dict_mem (item_id d) (grouped data) = true).
    { apply dict_mem_In. unfold grouped. rewrite tabulate_keys. now apply channels_In. }
    rewrite Hmem. cbn [negb]. unfold grouped at 1 2.
    rewrite dict_get_tabulate by now apply channels_In.
    rewrite dict_set_tabulate by (try apply channels_NoDup; now apply channels_In).
    apply tabulate_ext_in. intros j _. rewrite rows_of_snoc.
    rewrite (String.eqb_sym j). destruct (String.eqb (item_id d) j) eqn:E.
    + apply String.eqb_eq in E. now subst.
    + now rewrite app_nil_r.
  - (* a new channel: a new entry at the end *)
    assert (Hnin : ~ In (item_id d) (map item_id data)).
    { intros H. apply existsb_eqb_In in H. congruence. }
    assert (Hkeys : ~ In (item_id d) (map fst (grouped data))).
    { unfold grouped. rewrite tabulate_keys, channels_In. exact Hnin. }
    assert (Hmem : dict_mem (item_id d) (grouped data) = false).
    { now apply dict_mem_false. }
    rewrite Hmem. cbn [negb].
    replace (dict_set (item_id d) [] (grouped data))
      with (grouped data ++ [(item_id d, @nil byte)]).
    2:{ rewrite <- (app_nil_r (grouped data)) at 2.
        now rewrite dict_set_app_notin. }
    rewrite dict_get_app_notin by exact Hkeys.
    cbn [dict_get]. rewrite String.eqb_refl.
    rewrite dict_set_app_notin by exact Hkeys.
    cbn [dict_set]. rewrite String.eqb_refl.
    unfold tabulate. rewrite map_app. cbn [map app]. f_equal.
    + unfold grouped, tabulate. apply map_ext_in. intros j Hj.
      rewrite rows_of_snoc. destruct (String.eqb_spec (item_id d) j) as [E|Hne].
      * exfalso. apply Hnin. rewrite E. now apply channels_In.
      * now rewrite app_nil_r.
    + rewrite rows_of_snoc, String.eqb_refl, rows_of_absent by exact Hnin.
      reflexivity.
Qed.

Lemma count_in_NoDup (i : string) (l : list string) :
  NoDup l ->
  length (filter (fun j => String.eqb j i) l) = if existsb (String.eqb i) l then 1%nat else 0%nat.
Proof.
  induction 1 as [|a l Hnotin Hnd IH]; [reflexivity |].
  cbn [filter existsb]. rewrite (String.eqb_sym i a).
  destruct (String.eqb_spec a i) as [->|Hne]; cbn [orb length].
  - destruct (existsb (String.eqb i) l) eqn:E.
    + apply existsb_eqb_In in E. contradiction.
    + now rewrite IH.
  - exact IH.
Qed.

Lemma channel_calls_count (i : string) (data : list metric_item) :
  length (filter (is_channel_data_for i) (map channel_data_call (grouped data))) =
    if existsb (String.eqb i) (map item_id data) then 1%nat else 0%nat.
Proof.
  unfold grouped, tabulate. rewrite map_map.
  assert (E : forall l : list string,
             filter (is_channel_data_for i)
               (map (fun k => channel_data_call (k, rows_of k data)) l) =
             map (fun k => channel_data_call (k, rows_of k data))
               (filter (fun j => String.eqb j i) l)).
  { induction l as [|a l IH]; [reflexivity |].
    cbn [map filter]. cbn [is_channel_data_for channel_data_call fst].
    rewrite String.eqb_refl. cbn [andb].
    destruct (String.eqb a i); cbn [map]; now rewrite IH. }
  rewrite E, length_map, count_in_NoDup by apply channels_NoDup.
  destruct (existsb (String.eqb i) (map item_id data)) eqn:E1;
    destruct (existsb (String.eqb i) (channels (map item_id data))) eqn:E2;
    try reflexivity.
  - apply (proj1 (existsb_eqb_In _ _)) in E1. apply (proj2 (channels_In _ _)) in E1.
    apply (proj2 (existsb_eqb_In _ _)) in E1. congruence.
  - apply (proj1 (existsb_eqb_In _ _)) in E2. apply (proj1 (channels_In _ _)) in E2.
    apply (proj2 (existsb_eqb_In _ _)) in E2. congruence.
Qed.

Lemma tick_metric_run (c : Context) :
  is_stopped (metric_subject c) = false ->
  let c' := after TickMetric c in
  emitted c c' = map channel_data_call (grouped (pending (metric_subject c)))
  /\ metric_subject c' = new_subject
  /\ defined_metrics c' = defined_metrics c.
Proof.
  intros Hlive c'. subst c'. unfold after, perform, tick_metric.
  destruct c as [dm ls ms ss sd lit lbt ji jis spi w tr].
  cbn [metric_subject] in Hlive.
  reduce_m. rewrite Hlive, on_metric_run. reduce_m.
  rewrite packed_grouped. split; [now trace_norm | split; reflexivity].
Qed.

(** C3: when the items [data] are pushed into an empty, live metric buffer
    and the timer fires, the flush makes one [channelData] call per group
    of [grouped data]: the channels come in order of first appearance, each
    with its rows concatenated in arrival order, so there is exactly one
    call for every channel of the window, and no call when nothing was
    pushed. *)
Theorem metric_flush_groups_by_channel (c : Context) (data : list metric_item) :
  is_stopped (metric_subject c) = false ->
  pending (metric_subject c) = [] ->
  let c1 := set_metric_subject (push_all data (metric_subject c)) c in
  let c' := after TickMetric c1 in
  emitted c1 c' =
    map (fun i => JobAction "channelData" [VStr i; VStr (b64encode (rows_of i data))])
      (channels (map item_id data))
  /\ (forall i, In i (map item_id data) ->
        length (filter (is_channel_data_for i) (emitted c1 c')) = 1%nat)
  /\ (forall i, ~ In i (map item_id data) ->
        length (filter (is_channel_data_for i) (emitted c1 c')) = 0%nat)
  /\ (data = [] -> emitted c1 c' = [])
  /\ pending (metric_subject c') = [].
Proof.
  intros Hlive Hempty c1 c'.
  assert (Hc1 : metric_subject c1 = mkSubject data false).
  { subst c1. cbn [metric_subject set_metric_subject].
    rewrite push_all_live by exact Hlive. now rewrite Hempty. }
  destruct (tick_metric_run c1) as (Hem & Hsub & _).
  { now rewrite Hc1. }
  rewrite Hc1 in Hem. cbn [pending] in Hem. fold c' in Hem, Hsub.
  split; [| split; [| split; [| split]]].
  - rewrite Hem. unfold grouped, tabulate. now rewrite map_map.
  - intros i Hi. rewrite Hem, channel_calls_count.
    apply existsb_eqb_In in Hi. now rewrite Hi.
  - intros i Hi. rewrite Hem, channel_calls_count.
    destruct (existsb (String.eqb i) (map item_id data)) eqn:E; [| reflexivity].
    apply existsb_eqb_In in E. contradiction.
  - intros ->. now rewrite Hem.
  - now rewrite Hsub.
Qed.

Lemma metric_flush_groups_by_channel_witness :
  grouped example_window =
    [("x"%string, list_byte_of_string "ab"); ("y"%string, list_byte_of_string "c")]
  /\ let c1 := set_metric_subject
                 (push_all example_window (metric_subject (init ""))) (init "") in
     let c' := after TickMetric c1 in
     emitted c1 c' =
       map (fun i => JobAction "channelData"
                       [VStr i; VStr (b64encode (rows_of i example_window))])
         (channels (map item_id example_window))
     /\ (forall i, In i (map item_id example_window) ->
           length (filter (is_channel_data_for i) (emitted c1 c')) = 1%nat)
     /\ (forall i, ~ In i (map item_id example_window) ->
           length (filter (is_channel_data_for i) (emitted c1 c')) = 0%nat)
     /\ (example_window = [] -> emitted c1 c' = [])
     /\ pending (metric_subject c') = [].
Proof.
  split.
  - reflexivity.
  - exact (metric_flush_groups_by_channel (init "") example_window eq_refl eq_refl).
Defined.

(** ** The metric row and its layout *)

Lemma bits64_range (f : float) : 0 <= bits64 f < 256 ^ 8.
Proof.
  unfold bits64.
  pose proof (IEEEFacts.bits_of_SF_range 52 11 ltac:(lia) ltac:(lia) (Prim2SF f)
                (Prim2SF_valid f)) as H.
  exact H.
Qed.

(** A double packed with ['<d'] and read back is the same double. *)
Lemma unpack_d_pack_d (f : float) : unpack_d (pack_d f) = f.
Proof.
  unfold unpack_d, pack_d, float_of_bits64.
  rewrite le_int_le_bytes by apply bits64_range.
  unfold bits64.
  rewrite (IEEEFacts.SF_of_bits_of_SF 52 11 ltac:(lia) ltac:(lia) (Prim2SF f)
             (Prim2SF_valid f)).
  apply SF2Prim_Prim2SF.
Qed.

Lemma pack_d_length (f : float) : length (pack_d f) = 8%nat.
Proof. apply le_bytes_length. Qed.

Lemma take_app (n : nat) (a b : bytes) :
  length a = n -> take n (a ++ b) = Some (a, b).
Proof.
  intros <-. unfold take. rewrite length_app.
  destruct (Nat.leb_spec (length a) (length a + length b)); [| lia].
  rewrite firstn_app, skipn_app, Nat.sub_diag, firstn_all, skipn_all.
  cbn [firstn skipn]. now rewrite app_nil_r.
Qed.

Lemma unpack_doubles_packed (fs : list float) :
  unpack_doubles (length fs) (concat (map pack_d fs)) = Some fs.
Proof.
  induction fs as [|f fs IH]; [reflexivity |].
  cbn [length map concat unpack_doubles].
  rewrite take_app by apply pack_d_length.
  now rewrite IH, unpack_d_pack_d.
Qed.

Lemma rmap_length {A B : Type} (f : A -> result B) (l : list A) (l' : list B) :
  rmap f l = Ok l' -> length l' = length l.
Proof.
  revert l'. induction l as [|a l IH]; intros l' H; cbn [rmap] in H.
  - now inversion H.
  - destruct (f a); [| discriminate]. cbn [rbind] in H.
    destruct (rmap f l) as [bs|]; [| discriminate]. cbn [rbind] in H.
    inversion H; subst. cbn [length]. now rewrite (IH bs).
Qed.

(** The loop of [metric] appends the packed values in order. *)
Lemma pack_values_ok (y : list (option num)) (fys : list float) (acc : bytes) :
  rmap value_float y = Ok fys ->
  pack_values acc y = Ok (acc ++ concat (map pack_d fys)).
Proof.
  revert fys acc. induction y as [|y1 y IH]; intros fys acc H; cbn [rmap] in H.
  - inversion H; subst. cbn. now rewrite app_nil_r.
  - cbn [pack_values]. destruct (value_float y1) as [v|]; [| discriminate].
    cbn [rbind] in *.
    destruct (rmap value_float y) as [vs|] eqn:E; [| discriminate].
    cbn [rbind] in H. inversion H; subst.
    cbn [struct_pack pack_one rbind]. rewrite (IH vs) by reflexivity.
    cbn [map concat]. now rewrite app_nil_r, <- app_assoc.
Qed.

(** C2: the row [metric] builds, read back by the layout (version, value
    count, x, timestamp, values), gives version 1, the number of values,
    [float(x)], the timestamp and the values as floats, [None] read as
    [0.0].  The row is built whenever there are at most 65535 values and
    the conversions to float succeed. *)
Theorem metric_row_roundtrip
    (x : num) (y : list (option num)) (now fx : float) (fys : list float) :
  Z.of_nat (length y) <= 65535 ->
  to_float x = Ok fx ->
  rmap value_float y = Ok fys ->
  exists row,
    metric_row x y now = Ok row
    /\ length row = (19 + 8 * length y)%nat
    /\ unpack_metric_row row =
         Some {| version := 1;
                 value_count := Z.of_nat (length y);
                 x_coordinate := fx;
                 timestamp := now;
                 values := fys |}.
Proof.
  intros Hlen Hx Hy.
  set (n := Z.of_nat (length y)).
  set (hdr := le_bytes 1 1 ++ le_bytes 2 n ++ pack_d fx ++ pack_d now ++ []).
  assert (Hhdr : struct_pack metric_fmt [AInt 1; AInt n; AFloat fx; AFloat now] = Ok hdr).
  { unfold metric_fmt. cbn [struct_pack pack_one]. unfold pack_uint.
    replace ((0 <=? 1) && (1 <? 256 ^ Z.of_nat 1)) with true by reflexivity.
    replace ((0 <=? n) && (n <? 256 ^ Z.of_nat 2)) with true.
    2:{ symmetry. apply andb_true_iff. split; [apply Z.leb_le | apply Z.ltb_lt].
        - subst n. lia.
        - change (256 ^ Z.of_nat 2) with 65536. lia. }
    reflexivity. }
  exists (hdr ++ concat (map pack_d fys)).
  split; [| split].
  - unfold metric_row. rewrite Hx. cbn [rbind]. fold n. rewrite Hhdr. cbn [rbind].
    now apply pack_values_ok.
  - rewrite length_app. subst hdr. rewrite !length_app, !le_bytes_length, !pack_d_length.
    cbn [length]. rewrite <- (rmap_length _ _ _ Hy).
    assert (E : forall fs, length (concat (map pack_d fs)) = (8 * length fs)%nat).
    { induction fs as [|f fs IH]; [reflexivity |].
      cbn [map concat length]. rewrite length_app, pack_d_length, IH. lia. }
    rewrite E. lia.
  - unfold unpack_metric_row. subst hdr. rewrite <- !app_assoc.
    rewrite take_app by apply le_bytes_length.
    rewrite take_app by apply le_bytes_length.
    rewrite take_app by apply pack_d_length.
    rewrite take_app by apply pack_d_length.
    cbn [app].
    rewrite (le_int_le_bytes 2 n).
    2:{ change (256 ^ Z.of_nat 2) with 65536. subst n. lia. }
    subst n. rewrite Nat2Z.id, <- (rmap_length _ _ _ Hy).
    rewrite unpack_doubles_packed, !unpack_d_pack_d.
    rewrite (rmap_length _ _ _ Hy). reflexivity.
Qed.

Lemma metric_row_roundtrip_witness :
  let x := PyInt 3 in
  let y := [Some (PyFloat 1.5); Some (PyFloat (-2))] in
  let T := 1700000000.25%float in
  exists row,
    metric_row x y T = Ok row
    /\ length row = (19 + 8 * length y)%nat
    /\ unpack_metric_row row =
         Some {| version := 1;
                 value_count := 2;
                 x_coordinate := 3%float;
                 timestamp := T;
                 values := [1.5%float; (-2)%float] |}.
Proof.
  exact (metric_row_roundtrip (PyInt 3) [Some (PyFloat 1.5); Some (PyFloat (-2))]
           1700000000.25%float 3%float [1.5%float; (-2)%float]
           ltac:(cbn; lia) eq_refl eq_refl).
Defined.

(** ** The hardware row *)

Lemma pack_f_ok (f : float) (b : bytes) : pack_f f = Ok b -> b = single_bytes f.
Proof.
  unfold pack_f, single_bytes. generalize (SF32_of_float f). intros sf.
  destruct (Prim2SF f), sf; intros H; congruence.
Qed.

Lemma pack_uint_ok (n : nat) (z : Z) (b : bytes) :
  pack_uint n z = Ok b -> 0 <= z < 256 ^ Z.of_nat n /\ b = le_bytes n z.
Proof.
  unfold pack_uint.
  destruct ((0 <=? z) && (z <? 256 ^ Z.of_nat n)) eqn:E; intros H;
    [injection H as <- | discriminate H].
  apply andb_true_iff in E. destruct E as [E1 E2].
  apply Z.leb_le in E1. apply Z.ltb_lt in E2. auto.
Qed.

(** [int(f)] drops the fractional part. *)
Lemma int_of_float_truncation (f : float) (z : Z) :
  int_of_float f = Ok z -> truncation_of f z.
Proof.
  unfold int_of_float, truncation_of.
  destruct (Prim2SF f) as [s|s| |s m e]; intros Hz; try discriminate Hz.
  - congruence.
  - assert (Hz' : z = cond_Zopp s (if 0 <=? e then Zpos m * 2 ^ e else Zpos m / 2 ^ (- e)))
      by congruence.
    clear Hz. subst z.
    destruct (Z.leb_spec 0 e) as [He|He].
    + assert (0 < 2 ^ e) by (apply Z.pow_pos_nonneg; lia).
      assert (Habs : Z.abs (cond_Zopp s (Zpos m * 2 ^ e)) = Zpos m * 2 ^ e).
      { destruct s; cbn [cond_Zopp]; lia. }
      rewrite Habs. split; [reflexivity | split; [intros _; reflexivity | intros; lia]].
    + assert (Hp : 0 < 2 ^ (- e)) by (apply Z.pow_pos_nonneg; lia).
      assert (Hq : 0 <= Zpos m / 2 ^ (- e)) by (apply Z.div_pos; lia).
      assert (Habs : Z.abs (cond_Zopp s (Zpos m / 2 ^ (- e))) = Zpos m / 2 ^ (- e)).
      { destruct s; cbn [cond_Zopp]; lia. }
      rewrite Habs. split; [reflexivity | split; [intros; lia | intros _; split]].
      * rewrite Z.mul_comm. apply Z.mul_div_le. lia.
      * rewrite Z.mul_comm. apply Z.mul_succ_div_gt. lia.
Qed.

(** C6, as the code has it: an encoded hardware row is version 1, two
    reserved zero bytes, the timestamp as a double, the CPU share and the
    memory share each scaled to 16 bits by [int(share * 65535)], which
    truncates, and the four byte counters as singles: 31 bytes,
    little-endian, and the version, the reserved field, the timestamp and
    the two scaled shares read back from their offsets. *)
Theorem hardware_row_layout (r : hardware_reading) (row : bytes) :
  hardware_row r = Ok row ->
  exists share cpu mem recv sent written read,
    cpu_share r = Ok share
    /\ int_of_float (share * 65535)%float = Ok cpu
    /\ int_of_float (memory_share r * 65535)%float = Ok mem
    /\ truncation_of (share * 65535)%float cpu
    /\ truncation_of (memory_share r * 65535)%float mem
    /\ 0 <= cpu <= 65535 /\ 0 <= mem <= 65535
    /\ float_of_int (bytes_recv r) = Ok recv
    /\ float_of_int (bytes_sent r) = Ok sent
    /\ float_of_int (write_bytes r) = Ok written
    /\ float_of_int (read_bytes r) = Ok read
    /\ row = le_bytes 1 1 ++ le_bytes 2 0 ++ pack_d (hw_time r)
               ++ le_bytes 2 cpu ++ le_bytes 2 mem
               ++ single_bytes recv ++ single_bytes sent
               ++ single_bytes written ++ single_bytes read
    /\ length row = 31%nat
    /\ le_int (slice 0 1 row) = 1
    /\ le_int (slice 1 2 row) = 0
    /\ unpack_d (slice 3 8 row) = hw_time r
    /\ le_int (slice 11 2 row) = cpu
    /\ le_int (slice 13 2 row) = mem.
Proof.
  unfold hardware_row, cpu_field, mem_field, scale16. intros H.
  destruct (cpu_share r) as [share|] eqn:Eshare; [| discriminate]. cbn [rbind] in H.
  destruct (int_of_float (share * 65535)) as [cpu|] eqn:Ecpu; [| discriminate].
  cbn [rbind] in H.
  destruct (int_of_float (memory_share r * 65535)) as [mem|] eqn:Emem; [| discriminate].
  cbn [rbind] in H.
  destruct (float_of_int (bytes_recv r)) as [recv|] eqn:Erecv; [| discriminate].
  destruct (float_of_int (bytes_sent r)) as [sent|] eqn:Esent; [| discriminate].
  destruct (float_of_int (write_bytes r)) as [written|] eqn:Ewritten; [| discriminate].
  destruct (float_of_int (read_bytes r)) as [read|] eqn:Eread; [| discriminate].
  cbn [rbind] in H. unfold hardware_fmt in H. cbn [struct_pack pack_one] in H.
  change (pack_uint 1 1) with (Ok (le_bytes 1 1)) in H.
  change (pack_uint 2 0) with (Ok (le_bytes 2 0)) in H.
  cbn [rbind] in H.
  destruct (pack_uint 2 cpu) as [bcpu|] eqn:Ebcpu; [| discriminate].
  destruct (pack_uint 2 mem) as [bmem|] eqn:Ebmem; [| discriminate].
  destruct (pack_f recv) as [brecv|] eqn:Ebrecv; [| discriminate].
  destruct (pack_f sent) as [bsent|] eqn:Ebsent; [| discriminate].
  destruct (pack_f written) as [bwritten|] eqn:Ebwritten; [| discriminate].
  destruct (pack_f read) as [bread|] eqn:Ebread; [| discriminate].
  cbn [rbind] in H.
  assert (Hrow : row = le_bytes 1 1 ++ le_bytes 2 0 ++ pack_d (hw_time r)
                         ++ bcpu ++ bmem ++ brecv ++ bsent ++ bwritten ++ bread ++ [])
    by congruence.
  clear H.
  apply pack_uint_ok in Ebcpu, Ebmem.
  destruct Ebcpu as [Rcpu ->]. destruct Ebmem as [Rmem ->].
  apply pack_f_ok in Ebrecv, Ebsent, Ebwritten, Ebread. subst.
  change (256 ^ Z.of_nat 2) with 65536 in *.
  exists share, cpu, mem, recv, sent, written, read.
  rewrite app_nil_r.
  pose proof (int_of_float_truncation _ _ Ecpu) as Tcpu.
  pose proof (int_of_float_truncation _ _ Emem) as Tmem.
  repeat (split; [first [assumption | lia | reflexivity] |]).
  assert (Hd : forall b : bytes, length b = 8%nat ->
            exists b0 b1 b2 b3 b4 b5 b6 b7, b = [b0; b1; b2; b3; b4; b5; b6; b7]).
  { intros b Hb. do 8 (destruct b as [|? b]; [discriminate |]).
    destruct b; [| discriminate]. repeat eexists. }
  pose proof (unpack_d_pack_d (hw_time r)) as Hrt.
  destruct (Hd _ (pack_d_length (hw_time r))) as (b0 & b1 & b2 & b3 & b4 & b5 & b6 & b7 & Et).
  rewrite Et in *. unfold single_bytes. cbn [le_bytes app length slice firstn skipn].
  split; [exact Hrt |].
  split.
  - change [byte_of_Z cpu; byte_of_Z (cpu / 256)] with (le_bytes 2 cpu).
    apply le_int_le_bytes. change (256 ^ Z.of_nat 2) with 65536. lia.
  - change [byte_of_Z mem; byte_of_Z (mem / 256)] with (le_bytes 2 mem).
    apply le_int_le_bytes. change (256 ^ Z.of_nat 2) with 65536. lia.
Qed.

Lemma hardware_row_layout_witness :
  hardware_row example_reading = Ok example_hardware_row
  /\ exists share cpu mem recv sent written read,
       cpu_share example_reading = Ok share
       /\ int_of_float (share * 65535)%float = Ok cpu
       /\ int_of_float (memory_share example_reading * 65535)%float = Ok mem
       /\ truncation_of (share * 65535)%float cpu
       /\ truncation_of (memory_share example_reading * 65535)%float mem
       /\ 0 <= cpu <= 65535 /\ 0 <= mem <= 65535
       /\ float_of_int (bytes_recv example_reading) = Ok recv
       /\ float_of_int (bytes_sent example_reading) = Ok sent
       /\ float_of_int (write_bytes example_reading) = Ok written
       /\ float_of_int (read_bytes example_reading) = Ok read
       /\ example_hardware_row =
            le_bytes 1 1 ++ le_bytes 2 0 ++ pack_d (hw_time example_reading)
              ++ le_bytes 2 cpu ++ le_bytes 2 mem
              ++ single_bytes recv ++ single_bytes sent
              ++ single_bytes written ++ single_bytes read
       /\ length example_hardware_row = 31%nat
       /\ le_int (slice 0 1 example_hardware_row) = 1
       /\ le_int (slice 1 2 example_hardware_row) = 0
       /\ unpack_d (slice 3 8 example_hardware_row) = hw_time example_reading
       /\ le_int (slice 11 2 example_hardware_row) = cpu
       /\ le_int (slice 13 2 example_hardware_row) = mem.
Proof.
  split.
  - vm_compute. reflexivity.
  - apply hardware_row_layout. vm_compute. reflexivity.
Defined.

(** C6 as stated fails: with both shares at 0.99 (inside [0,1]) the two
    16-bit fields of the encoded row hold 64879, the truncation of
    0.99 * 65535 = 64879.65, while rounding gives 64880. *)
Lemma scale16_is_not_rounding :
  exists row share,
    hardware_row example_reading = Ok row
    /\ cpu_share example_reading = Ok share
    /\ (0 <=? share)%float = true /\ (share <=? 1)%float = true
    /\ le_int (slice 11 2 row) = 64879
    /\ round_float (share * 65535)%float = Ok 64880
    /\ le_int (slice 13 2 row) = 64879
    /\ round_float (memory_share example_reading * 65535)%float = Ok 64880.
Proof.
  exists example_hardware_row. eexists.
  repeat split; vm_compute; reflexivity.
Qed.

(** ** The rolling window *)

Lemma subseq_refl {A : Type} (l : list A) : subseq l l.
Proof. induction l; auto. Qed.

Lemma subseq_nil_l {A : Type} (l : list A) : subseq [] l.
Proof. induction l; auto. Qed.

Lemma subseq_trans {A : Type} (l1 l2 l3 : list A) :
  subseq l1 l2 -> subseq l2 l3 -> subseq l1 l3.
Proof.
  intros H12 H23. revert l1 H12.
  induction H23 as [|x l2 l3 H IH|x l2 l3 H IH]; intros l1 H12.
  - exact H12.
  - auto.
  - inversion H12; subst; auto.
Qed.

Lemma subseq_filter {A : Type} (f : A -> bool) (l : list A) : subseq (filter f l) l.
Proof. induction l as [|a l IH]; cbn [filter]; [auto | destruct (f a); auto]. Qed.

Lemma subseq_skipn {A : Type} (n : nat) (l : list A) : subseq (skipn n l) l.
Proof.
  revert n. induction l as [|a l IH]; intros [|n]; cbn [skipn]; auto using subseq_refl.
Qed.

Lemma subseq_app {A : Type} (l1 l2 l1' l2' : list A) :
  subseq l1 l2 -> subseq l1' l2' -> subseq (l1 ++ l1') (l2 ++ l2').
Proof. induction 1; intros H'; cbn [app]; auto. Qed.

Lemma subseq_map {A B : Type} (f : A -> B) (l1 l2 : list A) :
  subseq l1 l2 -> subseq (map f l1) (map f l2).
Proof. induction 1; cbn [map]; auto. Qed.

Lemma subseq_Forall {A : Type} (P : A -> Prop) (l1 l2 : list A) :
  subseq l1 l2 -> Forall P l2 -> Forall P l1.
Proof.
  induction 1 as [|x l1 l2 H IH|x l1 l2 H IH]; intros HF; auto.
  - inversion HF; subst. auto.
  - inversion HF; subst. constructor; auto.
Qed.

Lemma subseq_ordered {A : Type} (R : A -> A -> Prop) (l1 l2 : list A) :
  subseq l1 l2 -> ForallOrdPairs R l2 -> ForallOrdPairs R l1.
Proof.
  induction 1 as [|x l1 l2 H IH|x l1 l2 H IH]; intros HF.
  - constructor.
  - inversion HF; subst. auto.
  - inversion HF; subst. constructor; [| auto].
    eapply subseq_Forall; eassumption.
Qed.

Lemma ordered_map {A B : Type} (f : A -> B) (R : B -> B -> Prop) (l : list A) :
  ForallOrdPairs R (map f l) -> ForallOrdPairs (fun a b => R (f a) (f b)) l.
Proof.
  induction l as [|a l IH]; cbn [map]; intros H; [constructor |].
  inversion H as [|? ? Ha Hl]; subst. constructor; [| auto].
  clear -Ha. induction l as [|b l IH]; [constructor |].
  cbn [map] in Ha. inversion Ha; subst. constructor; auto.
Qed.

Lemma last_n_length {A : Type} (n : nat) (l : list A) : (length (last_n n l) <= n)%nat.
Proof. unfold last_n. rewrite length_skipn. lia. Qed.

Lemma prune_length (now : float) (l : list sample) : (length (prune now l) <= 30)%nat.
Proof. apply last_n_length. Qed.

Lemma prune_subseq (now : float) (l : list sample) : subseq (prune now l) l.
Proof.
  unfold prune, last_n. eapply subseq_trans; [apply subseq_skipn | apply subseq_filter].
Qed.

Lemma prune_recent (now : float) (l : list sample) :
  Forall (fun x => recent now x = true) (prune now l).
Proof.
  unfold prune, last_n. eapply subseq_Forall; [apply subseq_skipn |].
  apply Forall_forall. intros x Hx. apply filter_In in Hx. tauto.
Qed.

(** The length of a window is never too large for a float and never
    zero when the window holds a sample, so the mean does not raise. *)
Lemma float_of_small_nat (n : nat) :
  (0 < n <= 30)%nat ->
  exists f, float_of_int (Z.of_nat n) = Ok f /\ (f =? 0)%float = false.
Proof.
  intros [Hpos Hle].
  destruct n as [|n]; [lia |].
  do 30 (destruct n as [|n]; [eexists; split; vm_compute; reflexivity |]).
  lia.
Qed.

Lemma mean_ok (diffs : list float) :
  (0 < length diffs <= 30)%nat -> exists m, mean diffs = Ok m.
Proof.
  intros H. destruct (float_of_small_nat _ H) as (f & Hf & Hnz).
  unfold mean, num_truediv. cbn [to_float rbind]. rewrite Hf. cbn [rbind].
  unfold float_truediv. rewrite Hnz. eauto.
Qed.

Lemma mean_pruned (now : float) (l : list sample) :
  (0 <? length (prune now l))%nat = true ->
  exists m, mean (map diff (prune now l)) = Ok m.
Proof.
  intros H. apply Nat.ltb_lt in H. apply mean_ok. rewrite length_map.
  split; [exact H | apply prune_length].
Qed.

(** What the code computes for a window is the arithmetic mean of its
    diffs. *)
Lemma sum_floats_onto (l : list float) (acc : float) :
  fold_left PrimFloat.add l acc = sum_onto acc l.
Proof. revert acc. induction l as [|d l IH]; intros acc; [reflexivity | apply IH]. Qed.

Lemma float_of_count (n : nat) :
  (0 < n <= 30)%nat ->
  float_of_int (Z.of_nat n) = Ok (PrimFloat.of_uint63 (Uint63.of_Z (Z.of_nat n)))
  /\ (PrimFloat.of_uint63 (Uint63.of_Z (Z.of_nat n)) =? 0)%float = false.
Proof.
  intros [Hpos Hle].
  destruct n as [|n]; [lia |].
  do 30 (destruct n as [|n]; [split; vm_compute; reflexivity |]).
  lia.
Qed.

Lemma mean_is_arithmetic (diffs : list float) :
  (0 < length diffs <= 30)%nat -> mean diffs = Ok (arithmetic_mean diffs).
Proof.
  intros H. destruct (float_of_count _ H) as [Hf Hnz].
  unfold mean, num_truediv. cbn [to_float rbind]. rewrite Hf. cbn [rbind].
  unfold float_truediv. fold (number_of diffs) in Hnz |- *. rewrite Hnz.
  unfold arithmetic_mean, sum_floats. now rewrite sum_floats_onto.
Qed.

(** Symbolic execution through the flush callbacks as well. *)
Ltac exec_all :=
  reduce_m;
  repeat (first [ split_m
                | rewrite on_metric_run
                | rewrite on_log_run
                | rewrite on_speed_report_run ];
          reduce_m).

Ltac unfold_methods :=
  unfold after, perform, epoch, iteration, step, metric, define_metric, log,
    shutdown, metric_subject_on_completed, log_subject_on_completed,
    tick_metric, tick_speed, tick_log, tick_hardware, on_hardware_metrics.

(** Only [iteration] and [step] touch the window and the rate. *)
Lemma other_calls_keep_timing (k : call) (c : Context) :
  records k = false ->
  seconds_per_iterations (after k c) = seconds_per_iterations c
  /\ seconds_per_iteration (after k c) = seconds_per_iteration c.
Proof.
  intros Hk. destruct k; try discriminate Hk; destruct c; unfold_methods.
  all: exec_all; split; reflexivity.
Qed.

Ltac no_mean_failure :=
  match goal with
  | H1 : (0 <? length (prune ?now ?l))%nat = true,
    H2 : mean (map diff (prune ?now ?l)) = Raise _ |- _ =>
      exfalso; destruct (mean_pruned now l H1) as [? ?]; congruence
  end.

Ltac empty_window :=
  match goal with
  | H : (0 <? length ?w)%nat = false |- _ =>
      let E := fresh "E" in
      assert (E : w = []) by
        (apply Nat.ltb_ge in H; destruct w; [reflexivity | cbn in H; lia]);
      rewrite E
  end.

Ltac solve_recorded :=
  unfold recorded; cbn [seconds_per_iterations seconds_per_iteration];
  split;
  [ first [ left; reflexivity | right; eexists; reflexivity ]
  | first [ right; eexists; split; [eassumption | reflexivity]
          | left; split; [empty_window; reflexivity | reflexivity] ] ].

Lemma record_call_timing (k : call) (now : float) (c : Context) :
  clock_of k = [now] ->
  (fst (perform k c) = Ok tt -> recorded now c (after k c))
  /\ (untouched c (after k c) \/ recorded now c (after k c)).
Proof.
  intros Hk. destruct k; try discriminate Hk; cbn [clock_of] in Hk;
    injection Hk as ->; destruct c; unfold_methods.
  all: exec_all; try no_mean_failure.
  all: split;
    [ intros Hret; first [discriminate Hret | solve_recorded]
    | first [ left; split; reflexivity | right; solve_recorded ] ].
Qed.

Lemma call_cases (k : call) :
  (records k = false /\ clock_of k = []) \/ exists now, clock_of k = [now].
Proof. destruct k; cbn; eauto. Qed.

Lemma recorded_window_ok (now : float) (c c' : Context) :
  recorded now c c' -> window_ok c'.
Proof.
  intros [Hw Hr]. split.
  - destruct Hw as [-> | [d ->]]; apply prune_length.
  - intros Hne. destruct Hr as [[He _] | Hm]; [contradiction | exact Hm].
Qed.

Lemma after_window_ok (k : call) (c : Context) : window_ok c -> window_ok (after k c).
Proof.
  intros Hc. destruct (call_cases k) as [[Hk _] | [now Hk]].
  - destruct (other_calls_keep_timing k c Hk) as [Hw Hr].
    unfold window_ok. rewrite Hw, Hr. exact Hc.
  - destruct (record_call_timing k now c Hk) as [_ [[Hw Hr] | Hrec]].
    + unfold window_ok. rewrite Hw, Hr. exact Hc.
    + eapply recorded_window_ok; eassumption.
Qed.

Lemma init_window_ok (logs : string) : window_ok (init logs).
Proof. split; cbn; [lia | congruence]. Qed.

Lemma run_window_ok (ks : list call) (c : Context) : window_ok c -> window_ok (run ks c).
Proof.
  revert c. induction ks as [|k ks IH]; intros c Hc; [exact Hc |].
  cbn [run fold_left]. apply IH, after_window_ok, Hc.
Qed.

(** The stamps of the window are readings of the clock, in the order in
    which they were taken. *)
Lemma after_stamps (k : call) (c : Context) :
  subseq (map when (seconds_per_iterations (after k c)))
         (map when (seconds_per_iterations c) ++ clock_of k).
Proof.
  assert (Hgrow : forall l : list float, subseq l (l ++ clock_of k)).
  { intros l. rewrite <- (app_nil_r l) at 1.
    apply subseq_app; [apply subseq_refl | apply subseq_nil_l]. }
  destruct (call_cases k) as [[Hk _] | [now Hk]].
  - destruct (other_calls_keep_timing k c Hk) as [-> _]. apply Hgrow.
  - destruct (record_call_timing k now c Hk) as [_ [[-> _] | [Hw _]]]; [apply Hgrow |].
    rewrite Hk. destruct Hw as [-> | [d ->]].
    + eapply subseq_trans; [apply subseq_map, prune_subseq |].
      rewrite <- Hk. apply Hgrow.
    + eapply subseq_trans; [apply subseq_map, prune_subseq |].
      rewrite map_app. apply subseq_refl.
Qed.

Lemma clocks_snoc (ks : list call) (k : call) : clocks (ks ++ [k]) = clocks ks ++ clock_of k.
Proof. unfold clocks. rewrite flat_map_app. cbn. now rewrite app_nil_r. Qed.

Lemma run_stamps (logs : string) (ks : list call) :
  subseq (map when (seconds_per_iterations (run ks (init logs)))) (clocks ks).
Proof.
  induction ks as [|k ks IH] using rev_ind; [constructor |].
  rewrite run_snoc, clocks_snoc.
  eapply subseq_trans; [apply after_stamps |].
  apply subseq_app; [exact IH | apply subseq_refl].
Qed.

(** C1: after any sequence of calls the window holds at most 30 samples;
    its stamps are clock readings in the order in which they were taken, so
    the samples are in chronological order, oldest first, when the clock has
    never gone back; when the window is not empty the rate is the
    arithmetic mean of the diffs it holds, their sum in order divided by
    their number; and when the last call is an [iteration] or a [step]
    that ran to its end with clock reading [now], every sample of the window
    has [now - when < 20]. *)
Theorem rolling_window_invariant (logs : string) (ks : list call) :
  let c := run ks (init logs) in
  (length (seconds_per_iterations c) <= 30)%nat
  /\ subseq (map when (seconds_per_iterations c)) (clocks ks)
  /\ (clock_monotone (clocks ks) -> chronological (seconds_per_iterations c))
  /\ (seconds_per_iterations c <> [] ->
      exists m, mean (map diff (seconds_per_iterations c)) = Ok m
                /\ seconds_per_iteration c = PyFloat m)
  /\ (seconds_per_iterations c <> [] ->
      seconds_per_iteration c =
        PyFloat (arithmetic_mean (map diff (seconds_per_iterations c))))
  /\ (forall earlier k now,
        ks = earlier ++ [k] ->
        clock_of k = [now] ->
        fst (perform k (run earlier (init logs))) = Ok tt ->
        Forall (fun x => (now - when x <? 20)%float = true) (seconds_per_iterations c)).
Proof.
  intros c.
  pose proof (run_stamps logs ks) as Hstamps. fold c in Hstamps.
  destruct (run_window_ok ks (init logs) (init_window_ok logs)) as [Hlen Hrate].
  fold c in Hlen, Hrate.
  split; [exact Hlen |]. split; [exact Hstamps |].
  split; [| split; [exact Hrate | split]].
  - intros Hclock. unfold chronological.
    apply (ordered_map when (fun a b => (a <=? b)%float = true)).
    eapply subseq_ordered; eassumption.
  - intros Hne. destruct (Hrate Hne) as (m & Hm & ->).
    rewrite mean_is_arithmetic in Hm.
    + congruence.
    + rewrite length_map. split; [| exact Hlen].
      destruct (seconds_per_iterations c); [congruence | cbn [length]; lia].
  - intros earlier k now Hks Hk Hret.
    assert (Hc : c = after k (run earlier (init logs))).
    { unfold c. rewrite Hks. apply run_snoc. }
    destruct (record_call_timing k now (run earlier (init logs)) Hk) as [Hrec _].
    specialize (Hrec Hret). rewrite <- Hc in Hrec.
    destruct Hrec as [[-> | [d ->]] _]; apply prune_recent.
Qed.

Lemma rolling_window_invariant_witness :
  let ks := [CallIteration 5 (Some 10) 100; CallIteration 6 (Some 10) 101;
             CallStep 1 (Some 3) (Some 32) 102] in
  let c := run ks (init "") in
  seconds_per_iterations c = [{| diff := 1; when := 101 |}; {| diff := 3; when := 102 |}]
  /\ (length (seconds_per_iterations c) <= 30)%nat
  /\ chronological (seconds_per_iterations c)
  /\ arithmetic_mean (map diff (seconds_per_iterations c)) = 2%float
  /\ seconds_per_iteration c = PyFloat 2
  /\ Forall (fun x => (102 - when x <? 20)%float = true) (seconds_per_iterations c).
Proof.
  pose proof (rolling_window_invariant ""
                [CallIteration 5 (Some 10) 100; CallIteration 6 (Some 10) 101;
                 CallStep 1 (Some 3) (Some 32) 102])
    as H.
  cbv zeta in H. destruct H as (Hlen & _ & Hchrono & _ & Hmean & Hrecent).
  split; [reflexivity |]. split; [exact Hlen |]. split; [| split; [| split]].
  - apply Hchrono. repeat constructor.
  - reflexivity.
  - rewrite Hmean by discriminate. reflexivity.
  - exact (Hrecent [CallIteration 5 (Some 10) 100; CallIteration 6 (Some 10) 101]
             (CallStep 1 (Some 3) (Some 32) 102)
             102%float eq_refl eq_refl eq_refl).
Defined.

(** ** The rate when the window is empty *)

Lemma after_empty_keeps_rate (k : call) (c : Context) :
  seconds_per_iterations (after k c) = [] ->
  seconds_per_iteration (after k c) = seconds_per_iteration c.
Proof.
  intros Hempty. destruct (call_cases k) as [[Hk _] | [now Hk]].
  - apply (other_calls_keep_timing k c Hk).
  - destruct (record_call_timing k now c Hk) as [_ [[_ Hr] | [_ Hr]]]; [exact Hr |].
    destruct Hr as [[_ Hr] | [m [Hm _]]]; [exact Hr |].
    rewrite Hempty in Hm. discriminate Hm.
Qed.

(** As long as the window has never held a sample, the rate is 0. *)
Lemma rate_zero_until_first_sample (logs : string) (ks : list call) :
  (forall n, seconds_per_iterations (run (firstn n ks) (init logs)) = []) ->
  seconds_per_iteration (run ks (init logs)) = PyInt 0.
Proof.
  induction ks as [|k ks IH] using rev_ind; intros Hnever; [reflexivity |].
  rewrite run_snoc, after_empty_keeps_rate.
  - apply IH. intros n. destruct (Nat.le_gt_cases n (length ks)) as [Hn|Hn].
    + specialize (Hnever n). rewrite firstn_app in Hnever.
      replace (n - length ks)%nat with 0%nat in Hnever by lia.
      cbn [firstn] in Hnever. now rewrite app_nil_r in Hnever.
    + rewrite firstn_all2 by lia.
      specialize (Hnever (length ks)). rewrite firstn_app, Nat.sub_diag in Hnever.
      cbn [firstn] in Hnever. now rewrite app_nil_r, firstn_all in Hnever.
  - rewrite <- run_snoc. specialize (Hnever (length (ks ++ [k]))).
    now rewrite firstn_all in Hnever.
Qed.

(** C7, as the code has it: the rate starts at 0 and is 0 as long as the
    window has never held a sample; after any call, a non-empty window has
    its mean as the rate, and an empty window leaves the rate as it was
    before the call. *)
Theorem rate_follows_window (logs : string) (ks : list call) (k : call) :
  let c := run ks (init logs) in
  let c' := after k c in
  seconds_per_iteration (init logs) = PyInt 0
  /\ ((forall n, seconds_per_iterations (run (firstn n ks) (init logs)) = []) ->
      seconds_per_iteration c = PyInt 0)
  /\ (seconds_per_iterations c' <> [] ->
      exists m, mean (map diff (seconds_per_iterations c')) = Ok m
                /\ seconds_per_iteration c' = PyFloat m)
  /\ (seconds_per_iterations c' = [] ->
      seconds_per_iteration c' = seconds_per_iteration c).
Proof.
  intros c c'. split; [reflexivity |]. split; [| split].
  - apply rate_zero_until_first_sample.
  - apply (after_window_ok k c). apply run_window_ok, init_window_ok.
  - apply after_empty_keeps_rate.
Qed.

(** C7 as stated fails: two steps leave one sample and the rate 10; an
    [iteration] 29 seconds later appends nothing (it is the first one),
    prunes that sample, and the rate of the empty window is still 10. *)
Lemma stale_rate_after_pruning :
  let ks := [CallStep 0 (Some 10) (Some 1) 100; CallStep 1 (Some 10) (Some 1) 101] in
  let c := run ks (init "") in
  let c' := after (CallIteration 1 (Some 5) 130) c in
  seconds_per_iterations c = [{| diff := 10; when := 101 |}]
  /\ seconds_per_iteration c = PyFloat 10
  /\ fst (iteration 1 (Some 5) 130 c) = Ok tt
  /\ seconds_per_iterations c' = []
  /\ seconds_per_iteration c' = PyFloat 10
  /\ seconds_per_iteration c' <> PyInt 0
  /\ truthy (seconds_per_iteration c') = true.
Proof.
  repeat split; try (vm_compute; reflexivity).
  vm_compute. discriminate.
Qed.

(** ** Shutdown *)

Lemma filter_channel_calls (l : dict bytes) : filter teardown (map channel_data_call l) = [].
Proof. induction l as [|a l IH]; [reflexivity | exact IH]. Qed.

Ltac filter_norm :=
  cbn [trace shutting_down];
  repeat match goal with
         | |- context [match ?l with [] => _ | _ :: _ => _ end] => destruct l
         end;
  rewrite ?filter_app; cbn [filter teardown];
  rewrite ?filter_channel_calls, ?app_nil_r.

Lemma other_calls_no_teardown (k : call) (c : Context) :
  is_shutdown_call k = false ->
  filter teardown (trace (after k c)) = filter teardown (trace c)
  /\ shutting_down (after k c) = shutting_down c.
Proof.
  intros Hk. destruct k; try discriminate Hk; destruct c; unfold_methods.
  all: exec_all; filter_norm; split; reflexivity.
Qed.

Lemma shutdown_first (c : Context) :
  shutting_down c = false ->
  fst (shutdown c) = Ok tt
  /\ filter teardown (trace (after CallShutdown c)) =
       filter teardown (trace c)
         ++ [Completed MetricDispatcher; Completed LogDispatcher; ClientShutdown]
  /\ shutting_down (after CallShutdown c) = true.
Proof.
  intros Hc. destruct c. cbn [shutting_down] in Hc. subst. unfold_methods.
  exec_all; filter_norm; rewrite <- ?app_assoc; repeat split; reflexivity.
Qed.

(** The latch: a second [shutdown] returns at once and changes nothing. *)
Lemma shutdown_again (c : Context) :
  shutting_down c = true -> shutdown c = (Ok tt, c).
Proof.
  intros Hc. destruct c. cbn [shutting_down] in Hc. subst. reflexivity.
Qed.

Lemma run_teardown (logs : string) (ks : list call) :
  filter teardown (trace (run ks (init logs))) =
    (if existsb is_shutdown_call ks
     then [Completed MetricDispatcher; Completed LogDispatcher; ClientShutdown]
     else [])
  /\ shutting_down (run ks (init logs)) = existsb is_shutdown_call ks.
Proof.
  induction ks as [|k ks [IHt IHs]] using rev_ind; [split; reflexivity |].
  rewrite run_snoc, existsb_app. cbn [existsb]. rewrite orb_false_r.
  destruct (is_shutdown_call k) eqn:Hk.
  - destruct k; try discriminate Hk. rewrite orb_true_r.
    destruct (existsb is_shutdown_call ks) eqn:Hseen.
    + unfold after, perform. rewrite shutdown_again by exact IHs.
      cbn [snd]. split; assumption.
    + destruct (shutdown_first _ IHs) as (_ & Ht & Hs).
      rewrite Ht, IHt, Hs. split; reflexivity.
  - destruct (other_calls_no_teardown k (run ks (init logs)) Hk) as [Ht Hs].
    rewrite Ht, Hs, orb_false_r. split; assumption.
Qed.

Lemma count_teardown (p : event -> bool) (t : list event) :
  (forall e, p e = true -> teardown e = true) ->
  count p t = count p (filter teardown t).
Proof.
  intros Hp. unfold count. induction t as [|e t IH]; [reflexivity |].
  cbn [filter]. destruct (p e) eqn:Hpe.
  - rewrite (Hp e Hpe). cbn [filter]. rewrite Hpe. cbn [length]. now rewrite IH.
  - destruct (teardown e); [cbn [filter]; rewrite Hpe |]; exact IH.
Qed.

(** C5, as the code has it: however [shutdown] calls are mixed with other
    calls, the metric subject and the log subject are each completed
    exactly once and the client is closed exactly once as soon as there is
    one [shutdown], and never before; the periodic hardware sampler is never
    completed; and a [shutdown] after the first returns without doing
    anything. *)
Theorem shutdown_is_single_shot (logs : string) (ks : list call) :
  let t := trace (run ks (init logs)) in
  let n := if existsb is_shutdown_call ks then 1%nat else 0%nat in
  count (is_completed MetricDispatcher) t = n
  /\ count (is_completed LogDispatcher) t = n
  /\ count is_client_shutdown t = n
  /\ count (is_completed HardwareDispatcher) t = 0%nat
  /\ (forall c, shutting_down c = true -> shutdown c = (Ok tt, c))
  /\ shutting_down (run ks (init logs)) = existsb is_shutdown_call ks.
Proof.
  intros t n. destruct (run_teardown logs ks) as [Ht Hs]. fold t in Ht.
  assert (H1 : forall d e, is_completed d e = true -> teardown e = true)
    by (intros d []; cbn; congruence).
  assert (H2 : forall e, is_client_shutdown e = true -> teardown e = true)
    by (intros []; cbn; congruence).
  rewrite (count_teardown _ t (H1 MetricDispatcher)).
  rewrite (count_teardown _ t (H1 LogDispatcher)).
  rewrite (count_teardown _ t (H1 HardwareDispatcher)).
  rewrite (count_teardown _ t H2).
  rewrite Ht. subst n.
  destruct (existsb is_shutdown_call ks);
    repeat split; try reflexivity; try exact Hs; apply shutdown_again.
Qed.

(** C5 as stated fails: after two [shutdown] calls the speed subject and
    the hardware sampler have not been completed at all, while the metric
    and log subjects and the client have been, once. *)
Lemma shutdown_leaves_speed_and_hardware :
  let t := trace (run [CallShutdown; CallShutdown] (init "")) in
  count (is_completed SpeedDispatcher) t = 0%nat
  /\ count (is_completed HardwareDispatcher) t = 0%nat
  /\ count (is_completed MetricDispatcher) t = 1%nat
  /\ count (is_completed LogDispatcher) t = 1%nat
  /\ count is_client_shutdown t = 1%nat
  /\ is_stopped (speed_report_subject (run [CallShutdown; CallShutdown] (init ""))) = false.
Proof. repeat split. Qed.

(** ** Lazy definition of metric channels *)

Lemma dict_mem_set {V : Type} (n k : string) (v : V) (d : dict V) :
  dict_mem n (dict_set k v d) = dict_mem n d || String.eqb k n.
Proof.
  unfold dict_mem. induction d as [|(k', v') d IH]; cbn [dict_set existsb fst].
  - now rewrite orb_false_r.
  - destruct (String.eqb_spec k' k) as [->|Hne]; cbn [existsb fst].
    + destruct (String.eqb k n), (existsb _ d); reflexivity.
    + rewrite IH. now rewrite orb_assoc.
Qed.

(** A channel, once defined, stays defined. *)
Lemma defined_stays_defined (name : string) (k : call) (c : Context) :
  dict_mem name (defined_metrics c) = true ->
  dict_mem name (defined_metrics (after k c)) = true.
Proof.
  intros Hc. destruct c. cbn [defined_metrics] in Hc. destruct k; unfold_methods.
  all: exec_all; rewrite ?dict_mem_set, ?Hc; reflexivity.
Qed.

Lemma run_defined_stays_defined (name : string) (ks : list call) (c : Context) :
  dict_mem name (defined_metrics c) = true ->
  dict_mem name (defined_metrics (run ks c)) = true.
Proof.
  revert c. induction ks as [|k ks IH]; intros c Hc; [exact Hc |].
  cbn [run fold_left]. apply IH, defined_stays_defined, Hc.
Qed.

(** Between two flushes the metric buffer only grows. *)
Lemma metric_subject_grows (k : call) (c : Context) :
  flushes_metrics k = false ->
  metric_subject (after k c) = metric_subject c
  \/ exists item, metric_subject (after k c) = on_next item (metric_subject c).
Proof.
  intros Hk. destruct k; try discriminate Hk; destruct c; unfold_methods.
  all: exec_all; first [left; reflexivity | right; eexists; reflexivity].
Qed.

Lemma on_next_holds (name : string) (item : metric_item) (s : Subject metric_item) :
  is_stopped s = false ->
  In name (map item_id (pending s)) ->
  is_stopped (on_next item s) = false
  /\ In name (map item_id (pending (on_next item s))).
Proof.
  intros Hs Hin. unfold on_next. rewrite Hs. cbn [is_stopped pending].
  split; [reflexivity |]. rewrite map_app. apply in_or_app. now left.
Qed.

Lemma run_holds_row (name : string) (ks : list call) (c : Context) :
  existsb flushes_metrics ks = false ->
  holds_row_for name c -> holds_row_for name (run ks c).
Proof.
  revert c. induction ks as [|k ks IH]; intros c Hks Hc; [exact Hc |].
  cbn [existsb] in Hks. apply orb_false_elim in Hks. destruct Hks as [Hk Hks].
  cbn [run fold_left]. apply IH; [exact Hks |].
  destruct Hc as [Hlive Hin]. unfold holds_row_for.
  destruct (metric_subject_grows k c Hk) as [-> | [item ->]].
  - split; assumption.
  - now apply on_next_holds.
Qed.

(** [metric] on a channel that is not defined: one [defineMetric] call,
    and, when the row is built, the row in the buffer. *)
Lemma metric_on_new_channel
    (name : string) (x : num) (y : metric_y) (now : float) (c : Context) :
  dict_mem name (defined_metrics c) = false ->
  is_stopped (metric_subject c) = false ->
  fst (metric name x y now c) = Ok tt ->
  let c1 := after (CallMetric name x y now) c in
  count (is_define_metric_for name) (emitted c c1) = 1%nat
  /\ dict_mem name (defined_metrics c1) = true
  /\ holds_row_for name c1.
Proof.
  intros Hnew Hlive Hret c1. subst c1. revert Hret.
  destruct c as [dm ls [p st] ss sd lit lbt ji jis spi w tr].
  cbn [defined_metrics metric_subject is_stopped] in Hnew, Hlive. subst st.
  unfold_methods. reduce_m. rewrite Hnew. cbn [negb]. exec_all.
  all: intros Hret; try discriminate Hret.
  unfold count, holds_row_for. trace_norm.
  cbn [filter is_define_metric_for]. rewrite !String.eqb_refl. cbn [andb filter].
  rewrite dict_mem_set, String.eqb_refl, orb_true_r.
  cbn [metric_subject on_next is_stopped pending]. rewrite map_app.
  repeat split. apply in_or_app. right. now left.
Qed.

(** [metric] on a defined channel makes no [defineMetric] call. *)
Lemma metric_on_defined_channel
    (name : string) (x : num) (y : metric_y) (now : float) (c : Context) :
  dict_mem name (defined_metrics c) = true ->
  count (is_define_metric_for name)
    (emitted c (after (CallMetric name x y now) c)) = 0%nat.
Proof.
  intros Hdef. destruct c. cbn [defined_metrics] in Hdef.
  unfold_methods. reduce_m. rewrite Hdef. cbn [negb]. exec_all.
  all: unfold count; trace_norm; reflexivity.
Qed.

(** C4: [metric(name, x, y)] for a name not defined before, on a live
    context, makes exactly one [defineMetric] call for that name; the next
    flush of the metric buffer, whatever else was called in between, makes
    exactly one [channelData] call for it; and no later [metric] call with
    the same name makes a [defineMetric] call for it. *)
Theorem metric_defines_channel_once
    (c : Context) (name : string) (x : num) (y : metric_y) (now : float) :
  dict_mem name (defined_metrics c) = false ->
  is_stopped (metric_subject c) = false ->
  fst (metric name x y now c) = Ok tt ->
  let c1 := after (CallMetric name x y now) c in
  count (is_define_metric_for name) (emitted c c1) = 1%nat
  /\ (forall ks,
        existsb flushes_metrics ks = false ->
        let c2 := run ks c1 in
        count (is_channel_data_for name) (emitted c2 (after TickMetric c2)) = 1%nat)
  /\ (forall ks x' y' now',
        let c2 := run ks c1 in
        count (is_define_metric_for name)
          (emitted c2 (after (CallMetric name x' y' now') c2)) = 0%nat).
Proof.
  intros Hnew Hlive Hret c1.
  destruct (metric_on_new_channel name x y now c Hnew Hlive Hret)
    as (Hone & Hdef & Hrow).
  fold c1 in Hone, Hdef, Hrow.
  split; [exact Hone |]. split.
  - intros ks Hks c2.
    destruct (run_holds_row name ks c1 Hks Hrow) as [Hlive2 Hin2]. fold c2 in Hlive2, Hin2.
    destruct (tick_metric_run c2 Hlive2) as (Hem & _).
    rewrite Hem. unfold count. rewrite channel_calls_count.
    apply existsb_eqb_In in Hin2. now rewrite Hin2.
  - intros ks x' y' now' c2. apply metric_on_defined_channel.
    apply run_defined_stays_defined. exact Hdef.
Qed.

Lemma metric_defines_channel_once_witness :
  let c := init "" in
  let y := YList [Some (PyFloat 1.5); None] in
  let c1 := after (CallMetric "loss" (PyInt 3) y 1700000000.25) c in
  count (is_define_metric_for "loss") (emitted c c1) = 1%nat
  /\ (forall ks,
        existsb flushes_metrics ks = false ->
        let c2 := run ks c1 in
        count (is_channel_data_for "loss") (emitted c2 (after TickMetric c2)) = 1%nat)
  /\ (forall ks x' y' now',
        let c2 := run ks c1 in
        count (is_define_metric_for "loss")
          (emitted c2 (after (CallMetric "loss" x' y' now') c2)) = 0%nat).
Proof.
  exact (metric_defines_channel_once (init "") "loss" (PyInt 3)
           (YList [Some (PyFloat 1.5); None]) 1700000000.25%float
           eq_refl eq_refl eq_refl).
Defined.

(** * Further properties *)

(** ** The debugger controller *)

Lemma dict_mem_del {V : Type} (i k : string) (d : dict V) :
  NoDup (map fst d) ->
  dict_mem i (dict_del k d) = dict_mem i d && negb (String.eqb k i).
Proof.
  unfold dict_mem.
  induction d as [|(k', v) d IH]; intros Hnd; cbn [dict_del existsb map fst] in *.
  - reflexivity.
  - inversion Hnd as [|? ? Hnotin Hnd']; subst.
    destruct (String.eqb_spec k' k) as [->|Hne].
    + destruct (String.eqb_spec k i) as [->|Hki]; cbn [orb negb].
      * rewrite andb_false_r.
        destruct (existsb (fun kv => String.eqb (fst kv) i) d) eqn:E; [| reflexivity].
        exfalso. apply Hnotin. apply (proj1 (dict_mem_In i d)). exact E.
      * now rewrite andb_true_r.
    + cbn [existsb fst]. rewrite (IH Hnd').
      destruct (String.eqb_spec k' i) as [->|Hk'i]; cbn [orb].
      * destruct (String.eqb_spec k i); [congruence | reflexivity].
      * reflexivity.
Qed.

Lemma dict_set_keys {V : Type} (k : string) (v : V) (d : dict V) :
  map fst (dict_set k v d) =
    if dict_mem k d then map fst d else map fst d ++ [k].
Proof.
  unfold dict_mem. induction d as [|(k', v') d IH]; cbn [dict_set map fst existsb app].
  - reflexivity.
  - destruct (String.eqb_spec k' k) as [->|Hne]; cbn [map fst orb].
    + reflexivity.
    + rewrite IH. now destruct (existsb _ d).
Qed.

Lemma dict_set_NoDup {V : Type} (k : string) (v : V) (d : dict V) :
  NoDup (map fst d) -> NoDup (map fst (dict_set k v d)).
Proof.
  intros Hnd. rewrite dict_set_keys. destruct (dict_mem k d) eqn:E; [exact Hnd |].
  apply dict_mem_false in E.
  apply NoDup_rev in Hnd. rewrite <- (rev_involutive (map fst d ++ [k])).
  apply NoDup_rev. rewrite rev_app_distr. cbn [rev app]. constructor; [| exact Hnd].
  rewrite <- in_rev. exact E.
Qed.

Lemma dict_del_subseq {V : Type} (k : string) (d : dict V) :
  subseq (map fst (dict_del k d)) (map fst d).
Proof.
  induction d as [|(k', v) d IH]; cbn [dict_del map fst]; [constructor |].
  destruct (String.eqb k' k); cbn [map fst]; [| now constructor].
  constructor. apply subseq_refl.
Qed.

Lemma subseq_NoDup {A : Type} (l1 l2 : list A) : subseq l1 l2 -> NoDup l2 -> NoDup l1.
Proof.
  induction 1 as [|x l1 l2 H IH|x l1 l2 H IH]; intros Hnd; [constructor | |];
    inversion Hnd as [|? ? Hnotin Hnd']; subst; [auto |].
  constructor; [| auto]. intros Hin. apply Hnotin.
  assert (Hall : Forall (fun y => In y l2) l2) by (apply Forall_forall; auto).
  pose proof (subseq_Forall _ _ _ H Hall) as Hsub.
  rewrite Forall_forall in Hsub. auto.
Qed.

Lemma dict_del_NoDup {V : Type} (k : string) (d : dict V) :
  NoDup (map fst d) -> NoDup (map fst (dict_del k d)).
Proof. apply subseq_NoDup, dict_del_subseq. Qed.

Lemma debugger_perform_NoDup (k : debugger_call) (j : JobDebuggerController) :
  NoDup (map fst (watching_layers j)) ->
  NoDup (map fst (watching_layers (debugger_perform k j))).
Proof.
  intros Hnd. destruct k as [|id|id]; cbn [debugger_perform].
  - exact Hnd.
  - now apply dict_set_NoDup.
  - unfold debugStopWatchLayer. destruct (dict_mem id (watching_layers j)); [| exact Hnd].
    now apply dict_del_NoDup.
Qed.

Lemma debugger_perform_watched (i : string) (k : debugger_call) (j : JobDebuggerController) :
  NoDup (map fst (watching_layers j)) ->
  dict_mem i (watching_layers (debugger_perform k j)) =
    watched_after i [k] (dict_mem i (watching_layers j)).
Proof.
  intros Hnd. destruct k as [|id|id]; cbn [debugger_perform watched_after].
  - reflexivity.
  - cbn [debugStartWatchLayer watching_layers]. rewrite dict_mem_set.
    destruct (String.eqb id i); [apply orb_true_r | apply orb_false_r].
  - unfold debugStopWatchLayer.
    destruct (dict_mem id (watching_layers j)) eqn:E; cbn [watching_layers].
    + rewrite dict_mem_del by exact Hnd.
      destruct (String.eqb id i); [apply andb_false_r | apply andb_true_r].
    + destruct (String.eqb_spec id i) as [->|]; [exact E | reflexivity].
Qed.

(** X1: after any calls on the debugger controller, a layer is watched
    exactly when the last call about it was [debugStartWatchLayer] (or,
    with no call about it, when it was watched before); the keys of
    [watching_layers] stay distinct, and there is one [{'mode': 'all'}]
    snapshot request per [debugSnapshot] call, whatever else was called. *)
Theorem watching_follows_last_call
    (ks : list debugger_call) (j : JobDebuggerController) (i : string) :
  NoDup (map fst (watching_layers j)) ->
  let j' := debugger_run ks j in
  dict_mem i (watching_layers j') = watched_after i ks (dict_mem i (watching_layers j))
  /\ NoDup (map fst (watching_layers j'))
  /\ snapshot j' =
       snapshot j ++ repeat [("mode"%string, VStr "all")]
                       (length (filter is_snapshot_call ks)).
Proof.
  revert j. induction ks as [|k ks IH]; intros j Hnd; cbn zeta.
  - cbn. split; [reflexivity | split; [exact Hnd | now rewrite app_nil_r]].
  - unfold debugger_run. cbn [fold_left]. fold (debugger_run ks (debugger_perform k j)).
    destruct (IH (debugger_perform k j) (debugger_perform_NoDup k j Hnd))
      as (Hw & Hn & Hs).
    split; [| split; [exact Hn |]].
    + rewrite Hw, debugger_perform_watched by exact Hnd.
      destruct k; reflexivity.
    + rewrite Hs. destruct k as [|id|id]; cbn [debugger_perform filter is_snapshot_call].
      * cbn [debugSnapshot snapshot length repeat]. now rewrite <- app_assoc.
      * reflexivity.
      * unfold debugStopWatchLayer.
        now destruct (dict_mem id (watching_layers j)).
Qed.

Lemma watching_follows_last_call_witness :
  let ks := [DebugStartWatchLayer "conv1"; DebugSnapshot; DebugStartWatchLayer "fc";
             DebugStopWatchLayer "conv1"; DebugStopWatchLayer "conv1"] in
  let j' := debugger_run ks new_debugger in
  watching_layers j' = [("fc"%string, true)]
  /\ dict_mem "conv1" (watching_layers j') = false
  /\ NoDup (map fst (watching_layers j'))
  /\ snapshot j' = [[("mode"%string, VStr "all")]].
Proof.
  pose proof (watching_follows_last_call
                [DebugStartWatchLayer "conv1"; DebugSnapshot; DebugStartWatchLayer "fc";
                 DebugStopWatchLayer "conv1"; DebugStopWatchLayer "conv1"]
                new_debugger "conv1" (NoDup_nil string)) as H.
  cbv zeta in H. destruct H as (Hw & Hn & Hs).
  split; [reflexivity |]. split; [exact Hw |]. split; [exact Hn | exact Hs].
Defined.

Lemma dict_del_set_fresh {V : Type} (k : string) (v : V) (d : dict V) :
  dict_mem k d = false -> dict_del k (dict_set k v d) = d.
Proof.
  unfold dict_mem. induction d as [|(k', v') d IH]; cbn [dict_set dict_del existsb fst].
  - intros _. now rewrite String.eqb_refl.
  - intros H. apply orb_false_elim in H. destruct H as [Hk Hd].
    rewrite Hk. cbn [dict_del]. rewrite Hk. now rewrite IH.
Qed.

(** X2: unwatching a layer that is not watched changes nothing (the
    missing key is tested, not deleted); watching twice is the same as
    watching once; and watching a layer that was not watched, then
    unwatching it, gives back the controller as it was. *)
Theorem unwatch_undoes_watch (id : string) (j : JobDebuggerController) :
  dict_mem id (watching_layers j) = false ->
  debugStopWatchLayer id j = j
  /\ debugStartWatchLayer id (debugStartWatchLayer id j) = debugStartWatchLayer id j
  /\ debugStopWatchLayer id (debugStartWatchLayer id j) = j.
Proof.
  intros Hfresh. destruct j as [wl sn]. cbn [watching_layers] in Hfresh.
  split; [| split].
  - unfold debugStopWatchLayer. cbn [watching_layers]. now rewrite Hfresh.
  - unfold debugStartWatchLayer. cbn [watching_layers snapshot]. f_equal.
    clear Hfresh. induction wl as [|(k', v') wl IH]; cbn [dict_set].
    + now rewrite String.eqb_refl.
    + destruct (String.eqb k' id) eqn:E; cbn [dict_set]; rewrite E; [reflexivity |].
      now rewrite IH.
  - unfold debugStopWatchLayer, debugStartWatchLayer. cbn [watching_layers snapshot].
    rewrite dict_mem_set, String.eqb_refl, orb_true_r.
    now rewrite dict_del_set_fresh.
Qed.

Lemma unwatch_undoes_watch_witness :
  let j := debugStartWatchLayer "fc" new_debugger in
  debugStopWatchLayer "conv1" j = j
  /\ debugStartWatchLayer "conv1" (debugStartWatchLayer "conv1" j) =
       debugStartWatchLayer "conv1" j
  /\ debugStopWatchLayer "conv1" (debugStartWatchLayer "conv1" j) = j.
Proof.
  exact (unwatch_undoes_watch "conv1" (debugStartWatchLayer "fc" new_debugger) eq_refl).
Defined.

(** ** Shutdown and the buffers *)

Lemma str_app_nil_r (s : string) : (s ++ "")%string = s.
Proof. induction s as [|a s IH]; cbn; [reflexivity | now rewrite IH]. Qed.

Lemma str_app_assoc (a b c : string) : ((a ++ b) ++ c)%string = (a ++ (b ++ c))%string.
Proof. induction a as [|x a IH]; cbn; [reflexivity | now rewrite IH]. Qed.

Lemma fold_append (l : list string) (acc : string) :
  fold_left String.append l acc = (acc ++ fold_left String.append l "")%string.
Proof.
  revert acc. induction l as [|s l IH]; intros acc; cbn [fold_left].
  - now rewrite str_app_nil_r.
  - rewrite IH, (IH (""%string ++ s)%string). cbn [String.append].
    now rewrite str_app_assoc.
Qed.

Lemma fold_append_snoc (l : list string) (s : string) :
  fold_left String.append (l ++ [s]) ""%string =
    (fold_left String.append l "" ++ s)%string.
Proof. now rewrite fold_left_app. Qed.

Lemma sent_log_app (a b : list event) :
  sent_log (a ++ b) = (sent_log a ++ sent_log b)%string.
Proof.
  induction a as [|e a IH]; cbn [app sent_log]; [reflexivity |].
  now rewrite IH, str_app_assoc.
Qed.

Lemma sent_log_channel_calls (l : dict bytes) :
  sent_log (map channel_data_call l) = ""%string.
Proof. induction l as [|a l IH]; [reflexivity | exact IH]. Qed.

Lemma init_latch_ok (logs : string) : latch_ok (init logs).
Proof.
  unfold latch_ok, init. cbn [log_subject metric_subject speed_report_subject shutting_down].
  destruct (0 <? String.length logs)%nat; cbn; repeat split; discriminate.
Qed.

(** Case analysis on a context that satisfies [latch_ok]. *)
Ltac latch_cases c H :=
  destruct c as [dm [lp lst] [mp mst] [sp sst] sd lit lbt ji jis spi w tr];
  unfold latch_ok in H;
  cbn [log_subject metric_subject speed_report_subject shutting_down
       is_stopped pending] in H;
  destruct H as (Hl & Hm & Hs & Hp); subst lst mst sst;
  destruct sd;
  [ destruct (Hp eq_refl) as [-> ->] | ];
  clear Hp.

Lemma after_latch_ok (k : call) (c : Context) : latch_ok c -> latch_ok (after k c).
Proof.
  intros H. latch_cases c H.
  all: destruct k; unfold_methods; exec_all.
  all: unfold latch_ok, on_next, new_subject;
    cbn [log_subject metric_subject speed_report_subject shutting_down
         is_stopped pending];
    repeat split; intros; try discriminate; reflexivity.
Qed.

Lemma run_latch_ok (ks : list call) (c : Context) : latch_ok c -> latch_ok (run ks c).
Proof.
  revert c. induction ks as [|k ks IH]; intros c Hc; [exact Hc |].
  cbn [run fold_left]. apply IH, after_latch_ok, Hc.
Qed.

Ltac log_norm :=
  unfold buffered_log, on_next, new_subject;
  cbn [trace log_subject shutting_down is_stopped pending];
  repeat match goal with
         | |- context [match ?l with [] => _ | _ :: _ => _ end] => destruct l
         end;
  rewrite ?sent_log_app;
  cbn [sent_log log_payload String.eqb Ascii.eqb Bool.eqb app logged];
  rewrite ?sent_log_channel_calls, ?fold_append_snoc;
  cbn [fold_left String.append];
  rewrite ?str_app_nil_r, ?str_app_assoc; cbn [String.append];
  rewrite ?str_app_nil_r.

(** What one call adds to the text sent or waiting to be sent. *)
Lemma after_log_text (k : call) (c : Context) :
  latch_ok c ->
  (sent_log (trace (after k c)) ++ buffered_log (after k c))%string =
    ((sent_log (trace c) ++ buffered_log c)
       ++ (if shutting_down c then "" else logged [k]))%string
  /\ shutting_down (after k c) = shutting_down c || is_shutdown_call k.
Proof.
  intros H. latch_cases c H.
  all: destruct k; unfold_methods; exec_all.
  all: log_norm; split; reflexivity.
Qed.

Lemma run_log_text (ks : list call) (c : Context) :
  latch_ok c ->
  (sent_log (trace (run ks c)) ++ buffered_log (run ks c))%string =
    ((sent_log (trace c) ++ buffered_log c)
       ++ (if shutting_down c then "" else logged ks))%string.
Proof.
  revert c. induction ks as [|k ks IH]; intros c Hc.
  - cbn [run fold_left logged]. destruct (shutting_down c); now rewrite str_app_nil_r.
  - cbn [run fold_left]. fold (run ks (after k c)).
    destruct (after_log_text k c Hc) as [Htext Hlatch].
    rewrite (IH _ (after_latch_ok k c Hc)), Htext, Hlatch, str_app_assoc. f_equal.
    destruct (shutting_down c); [reflexivity |]. cbn [orb].
    destruct k; cbn [is_shutdown_call logged]; rewrite ?str_app_nil_r; reflexivity.
Qed.

(** X3: no log text is lost, repeated or reordered.  After any calls, the
    text sent in [log] calls followed by the text still in the log buffer
    is the text captured before the context existed followed by every
    string given to [log] before the first [shutdown], in order.  What is
    given to [log] after [shutdown] is dropped. *)
Theorem log_text_is_conserved (logs : string) (ks : list call) :
  let c := run ks (init logs) in
  (sent_log (trace c) ++ buffered_log c)%string = (logs ++ logged ks)%string.
Proof.
  intros c. subst c. rewrite (run_log_text ks (init logs) (init_latch_ok logs)).
  f_equal. unfold buffered_log, init. cbn [trace log_subject sent_log String.append].
  destruct logs; reflexivity.
Qed.

Lemma app_nil_event (t : list event) : t = t ++ [].
Proof. now rewrite app_nil_r. Qed.

(** After the latch is set, a call makes no [channelData] and no [log]
    call, and the latch stays set. *)
Lemma after_shutdown_no_data (k : call) (c : Context) :
  latch_ok c -> shutting_down c = true ->
  shutting_down (after k c) = true
  /\ exists es, trace (after k c) = trace c ++ es /\ Forall carries_no_data es.
Proof.
  intros H Hsd. latch_cases c H; [| discriminate Hsd].
  destruct k; unfold_methods; exec_all.
  all: try match goal with
           | H : is_stopped _ = _ |- _ => cbn [is_stopped] in H; discriminate H
           end.
  all: cbn [shutting_down trace]; split; [reflexivity |].
  all: repeat match goal with
              | |- context [match ?l with [] => _ | _ :: _ => _ end] => destruct l
              end.
  all: first [ exists []; split; [apply app_nil_event | constructor]
             | rewrite <- ?app_assoc; cbn [app]; eexists; split; [reflexivity |];
               repeat constructor ].
Qed.

Lemma run_shutdown_no_data (ks : list call) (c : Context) :
  latch_ok c -> shutting_down c = true ->
  latch_ok (run ks c)
  /\ shutting_down (run ks c) = true
  /\ exists es, trace (run ks c) = trace c ++ es /\ Forall carries_no_data es.
Proof.
  revert c. induction ks as [|k ks IH]; intros c Hc Hsd.
  - split; [exact Hc | split; [exact Hsd |]].
    exists []. split; [apply app_nil_event | constructor].
  - cbn [run fold_left]. fold (run ks (after k c)).
    destruct (after_shutdown_no_data k c Hc Hsd) as (Hsd' & es & Ht & Hes).
    destruct (IH (after k c) (after_latch_ok k c Hc) Hsd') as (Hl & Hsd'' & es' & Ht' & Hes').
    split; [exact Hl | split; [exact Hsd'' |]].
    exists (es ++ es'). split.
    + now rewrite Ht', Ht, app_assoc.
    + apply Forall_app. split; assumption.
Qed.

(** X4: once [shutdown] has been called, whatever is called afterwards
    makes no [channelData] call and no [log] call: rows and text pushed
    after shutdown are dropped without an error, and the two buffers stay
    empty. *)
Theorem nothing_flushed_after_shutdown (logs : string) (before later : list call) :
  let c := run (before ++ [CallShutdown]) (init logs) in
  let c' := run later c in
  Forall carries_no_data (emitted c c')
  /\ pending (metric_subject c') = []
  /\ pending (log_subject c') = []
  /\ shutting_down c' = true.
Proof.
  intros c c'.
  assert (Hc : latch_ok c) by apply run_latch_ok, init_latch_ok.
  assert (Hsd : shutting_down c = true).
  { unfold c. rewrite (proj2 (run_teardown logs (before ++ [CallShutdown]))).
    rewrite existsb_app. cbn [existsb is_shutdown_call]. apply orb_true_r. }
  destruct (run_shutdown_no_data later c Hc Hsd) as (Hl & Hsd' & es & Ht & Hes).
  fold c' in Hl, Hsd', Ht.
  destruct Hl as (_ & _ & _ & Hp). destruct (Hp Hsd') as [Hpl Hpm].
  repeat split; try assumption.
  unfold emitted. rewrite Ht, skipn_length_app. exact Hes.
Qed.

(** X5: the first [shutdown] sends what is waiting: it completes the
    metric subject, which sends one [channelData] call per channel of the
    metric buffer, completes the log subject, which sends the waiting text
    in one [log] call if there is any, and then closes the client, in this
    order.  The rows waiting in the speed buffer are not sent and stay
    where they are. *)
Theorem shutdown_flushes_pending (logs : string) (ks : list call) :
  existsb is_shutdown_call ks = false ->
  let c := run ks (init logs) in
  let c' := after CallShutdown c in
  fst (shutdown c) = Ok tt
  /\ emitted c c' =
       [Completed MetricDispatcher]
         ++ map channel_data_call (grouped (pending (metric_subject c)))
         ++ [Completed LogDispatcher]
         ++ match pending (log_subject c) with
            | [] => []
            | _ :: _ => [JobAction "log" [VStr "main_0"; VStr (buffered_log c)]]
            end
         ++ [ClientShutdown]
  /\ speed_report_subject c' = speed_report_subject c
  /\ pending (metric_subject c') = []
  /\ pending (log_subject c') = [].
Proof.
  intros Hks c c'.
  assert (Hc : latch_ok c) by apply run_latch_ok, init_latch_ok.
  assert (Hsd : shutting_down c = false).
  { unfold c. now rewrite (proj2 (run_teardown logs ks)). }
  subst c'. generalize dependent c. intros c Hc Hsd.
  latch_cases c Hc; [discriminate Hsd |].
  unfold_methods. exec_all.
  all: try match goal with
           | H : is_stopped _ = _ |- _ => cbn [is_stopped] in H; discriminate H
           end.
  rewrite packed_grouped. unfold buffered_log.
  cbn [speed_report_subject metric_subject log_subject pending].
  split; [reflexivity |]. split; [| repeat split].
  trace_norm. destruct lp; reflexivity.
Qed.

Lemma shutdown_flushes_pending_witness :
  let ks := [CallMetric "loss" (PyInt 3) (YScalar (Some (PyFloat 1.5))) 1700000000.25;
             CallLog "epoch done";
             CallStep 1 (Some 10) (Some 32) 1700000001] in
  let c := run ks (init "") in
  let c' := after CallShutdown c in
  fst (shutdown c) = Ok tt
  /\ emitted c c' =
       [Completed MetricDispatcher]
         ++ map channel_data_call (grouped (pending (metric_subject c)))
         ++ [Completed LogDispatcher]
         ++ match pending (log_subject c) with
            | [] => []
            | _ :: _ => [JobAction "log" [VStr "main_0"; VStr (buffered_log c)]]
            end
         ++ [ClientShutdown]
  /\ speed_report_subject c' = speed_report_subject c
  /\ pending (metric_subject c') = []
  /\ pending (log_subject c') = [].
Proof.
  exact (shutdown_flushes_pending ""
           [CallMetric "loss" (PyInt 3) (YScalar (Some (PyFloat 1.5))) 1700000000.25;
            CallLog "epoch done";
            CallStep 1 (Some 10) (Some 32) 1700000001]
           eq_refl).
Defined.

(** ** The speed row of [step] *)

Lemma speed_row_packed (x t s : float) :
  struct_pack speed_fmt [AInt 1; AFloat x; AFloat t; AFloat s] =
    Ok (le_bytes 1 1 ++ pack_d x ++ pack_d t ++ pack_d s ++ []).
Proof. reflexivity. Qed.

Lemma speed_row_unpacked (x t s : float) :
  length (le_bytes 1 1 ++ pack_d x ++ pack_d t ++ pack_d s ++ []) = 25%nat
  /\ unpack_speed_row (le_bytes 1 1 ++ pack_d x ++ pack_d t ++ pack_d s ++ []) =
       Some {| speed_version := 1;
               iteration_fraction := x;
               speed_timestamp := t;
               speed_per_second := s |}.
Proof.
  split.
  - rewrite !length_app, !pack_d_length. reflexivity.
  - unfold unpack_speed_row.
    rewrite take_app by apply le_bytes_length.
    rewrite take_app by apply pack_d_length.
    rewrite take_app by apply pack_d_length.
    rewrite take_app by apply pack_d_length.
    now rewrite !unpack_d_pack_d.
Qed.

Lemma int_truediv_nonzero (a b : Z) (q : float) : int_truediv a b = Ok q -> b <> 0.
Proof.
  unfold int_truediv. destruct (Z.eqb_spec b 0); [discriminate | auto].
Qed.

Lemma int_div_float_ok (z : Z) (b v : float) :
  int_div_float z b = Ok v ->
  exists fz, float_of_int z = Ok fz /\ (b =? 0)%float = false /\ v = (fz / b)%float.
Proof.
  unfold int_div_float. destruct (float_of_int z) as [fz|]; [| discriminate].
  cbn [rbind]. unfold float_truediv. destruct (b =? 0)%float; [discriminate |].
  intros H. exists fz. repeat split. congruence.
Qed.

Lemma rbind_ok {A B : Type} (r : result A) (k : A -> result B) (b : B) :
  rbind r k = Ok b -> exists a, r = Ok a /\ k a = Ok b.
Proof. destruct r as [a|e]; cbn [rbind]; [eauto | discriminate]. Qed.

(** Taking apart the hypotheses that say that a computation returned. *)
Ltac inv_ok :=
  repeat match goal with
         | H : Raise _ = Ok _ |- _ => discriminate H
         | H : rbind _ _ = Ok _ |- _ =>
             let a := fresh "a" in
             let Ha := fresh "Ha" in
             apply rbind_ok in H; destruct H as (a & Ha & H)
         | H : Ok (Some (PyFloat _)) = Ok _ |- _ => injection H as <-
         | H : match ?o with Some _ => _ | None => Raise _ end = Ok _ |- _ =>
             destruct o; [| discriminate H]
         end.

(** X6: a [step] that returns has pushed exactly one row into the speed
    buffer: 25 bytes that read back as version 1, the progress
    [job_iteration + current / total], the clock reading, and the speed,
    which is [size] on the first step and [size / elapsed] afterwards.
    Returning also means that [total] was a non-zero int and [size] an
    int. *)
Theorem step_pushes_one_speed_row
    (current : Z) (total size : option Z) (now : float) (c : Context) :
  is_stopped (speed_report_subject c) = false ->
  fst (step current total size now c) = Ok tt ->
  let c' := after (CallStep current total size now) c in
  exists t sz frac x fsz row speed,
    total = Some t /\ t <> 0 /\ size = Some sz
    /\ int_truediv current t = Ok frac
    /\ int_add_float (job_iteration c) frac = Ok x
    /\ float_of_int sz = Ok fsz
    /\ pending (speed_report_subject c') = pending (speed_report_subject c) ++ [row]
    /\ length row = 25%nat
    /\ unpack_speed_row row =
         Some {| speed_version := 1;
                 iteration_fraction := x;
                 speed_timestamp := now;
                 speed_per_second := speed |}
    /\ (truthy (last_batch_time c) = false -> speed = fsz)
    /\ (truthy (last_batch_time c) = true ->
        exists elapsed,
          float_sub_num now (last_batch_time c) = Ok elapsed
          /\ speed = (fsz / elapsed)%float).
Proof.
  intros Hlive. destruct c as [dm ls ms [sp sst] sd lit lbt ji jis spi w tr].
  cbn [speed_report_subject is_stopped] in Hlive. subst sst.
  unfold_methods. exec_all.
  all: intros Hret; try discriminate Hret; clear Hret.
  all: cbn [speed_report_subject on_next is_stopped pending job_iteration last_batch_time].
  all: inv_ok.
  all: match goal with
       | H : struct_pack speed_fmt _ = Ok ?r |- _ =>
           rewrite speed_row_packed in H;
           let E := fresh "E" in
           match type of H with
           | Ok ?b = Ok _ => assert (E : r = b) by congruence
           end;
           clear H; subst r
       | _ => idtac
       end.
  all: try match goal with
           | H : float_of_opt (option_map PyInt ?s) = Ok _ |- _ =>
               destruct s; cbn [float_of_opt option_map to_float] in H;
               [| discriminate H]
           end.
  all: try match goal with
           | H : float_of_opt (Some (PyFloat _)) = Ok _ |- _ =>
               cbn [float_of_opt to_float] in H; injection H as <-
           end.
  all: try match goal with
           | H : int_div_float _ _ = Ok _ |- _ =>
               apply int_div_float_ok in H; destruct H as (? & ? & ? & ->)
           end.
  all: repeat match goal with
              | H1 : ?t = Ok ?a, H2 : ?t = Ok ?b |- _ =>
                  assert (b = a) by congruence; subst b; clear H2
              end.
  all: do 7 eexists.
  all: repeat (split; [first [ reflexivity | eassumption
                             | eapply int_truediv_nonzero; eassumption
                             | apply speed_row_unpacked
                             | discriminate
                             | intros _; reflexivity ] |]).
  all: first [ intros _; eexists; split; [eassumption | reflexivity]
             | intros Hf; discriminate Hf ].
Qed.

Lemma step_pushes_one_speed_row_witness :
  let c := init "" in
  let c' := after (CallStep 1 (Some 10) (Some 32) 100) c in
  exists t sz frac x fsz row speed,
    Some 10 = Some t /\ t <> 0 /\ Some 32 = Some sz
    /\ int_truediv 1 t = Ok frac
    /\ int_add_float (job_iteration c) frac = Ok x
    /\ float_of_int sz = Ok fsz
    /\ pending (speed_report_subject c') = pending (speed_report_subject c) ++ [row]
    /\ length row = 25%nat
    /\ unpack_speed_row row =
         Some {| speed_version := 1;
                 iteration_fraction := x;
                 speed_timestamp := 100;
                 speed_per_second := speed |}
    /\ (truthy (last_batch_time c) = false -> speed = fsz)
    /\ (truthy (last_batch_time c) = true ->
        exists elapsed,
          float_sub_num 100 (last_batch_time c) = Ok elapsed
          /\ speed = (fsz / elapsed)%float).
Proof.
  exact (step_pushes_one_speed_row 1 (Some 10) (Some 32) 100%float (init "")
           eq_refl eq_refl).
Defined.

(** ** Clock readings *)

Lemma finite_cases (f : float) :
  is_finite f = true ->
  (exists s, Prim2SF f = S754_zero s) \/ (exists s m e, Prim2SF f = S754_finite s m e).
Proof.
  unfold is_finite, is_nan, is_infinity.
  rewrite !FloatAxioms.eqb_spec, abs_spec.
  destruct (Prim2SF f) as [s|s| |s m e]; eauto.
  - destruct s; cbn; intros H; discriminate H.
  - cbn. intros H. discriminate H.
Qed.

(** A finite reading minus itself is zero. *)
Lemma sub_self (f : float) : is_finite f = true -> (f - f)%float = 0%float.
Proof.
  intros Hf. apply Prim2SF_inj. rewrite sub_spec.
  change (Prim2SF 0) with (S754_zero false).
  destruct (finite_cases f Hf) as [[s ->] | (s & m & e & ->)].
  - destruct s; reflexivity.
  - unfold SF64sub, SFsub. rewrite Z.sub_diag. reflexivity.
Qed.

(** X7: a [step] that reads the same finite, non-zero clock value as the
    call that last set [last_batch_time] divides [size] by an elapsed time
    of zero: it raises [ZeroDivisionError], and all it has done by then is
    the ['step'] patch. *)
Theorem step_at_unchanged_clock_fails
    (current t sz : Z) (now frac x fsz : float) (c : Context) :
  is_finite now = true ->
  (now =? 0)%float = false ->
  last_batch_time c = PyFloat now ->
  int_truediv current t = Ok frac ->
  int_add_float (job_iteration c) frac = Ok x ->
  float_of_int sz = Ok fsz ->
  step current (Some t) (Some sz) now c =
    (Raise ZeroDivisionError, set_trace (trace c ++ [Patch "step" (VInt current)]) c).
Proof.
  intros Hfin Hnz Hlast Hfrac Hx Hsz. destruct c.
  cbn [last_batch_time] in Hlast. cbn [job_iteration] in Hx. subst.
  unfold step. reduce_m. rewrite Hfrac. reduce_m. rewrite Hx. reduce_m.
  cbn [truthy]. rewrite Hnz. cbn [negb].
  unfold float_sub_num, int_div_float, float_truediv. cbn [to_float rbind].
  rewrite (sub_self now Hfin), Hsz. cbn [rbind].
  reflexivity.
Qed.

Lemma step_at_unchanged_clock_fails_witness :
  let c := after (CallIteration 0 (Some 10) 100) (init "") in
  step 1 (Some 10) (Some 32) 100 c =
    (Raise ZeroDivisionError, set_trace (trace c ++ [Patch "step" (VInt 1)]) c).
Proof.
  refine (step_at_unchanged_clock_fails 1 10 32 100 _ _ _
            (after (CallIteration 0 (Some 10) 100) (init ""))
            eq_refl eq_refl eq_refl _ _ _);
    vm_compute; reflexivity.
Defined.

(** ** What the calls can raise *)

Lemma rbind_raise {A B : Type} (r : result A) (k : A -> result B) (e : exn) :
  rbind r k = Raise e -> r = Raise e \/ exists a, r = Ok a /\ k a = Raise e.
Proof.
  destruct r as [a|e']; cbn [rbind]; intros H; [right; exists a; auto | left; congruence].
Qed.

Lemma float_of_int_raise (z : Z) (e : exn) :
  float_of_int z = Raise e -> e = OverflowError.
Proof.
  unfold float_of_int. destruct (binary_normalize 53 1024 z 0 false); congruence.
Qed.

Lemma to_float_raise (x : num) (e : exn) : to_float x = Raise e -> e = OverflowError.
Proof. destruct x; cbn [to_float]; [apply float_of_int_raise | discriminate]. Qed.

Lemma float_sub_num_raise (a : float) (b : num) (e : exn) :
  float_sub_num a b = Raise e -> e = OverflowError.
Proof.
  unfold float_sub_num. intros H. apply rbind_raise in H.
  destruct H as [H | (? & _ & H)]; [eapply to_float_raise; eassumption | discriminate H].
Qed.

Lemma float_mul_int_raise (a : float) (z : Z) (e : exn) :
  float_mul_int a z = Raise e -> float_of_int z = Raise e /\ e = OverflowError.
Proof.
  unfold float_mul_int. intros H. apply rbind_raise in H.
  destruct H as [H | (? & _ & H)]; [| discriminate H].
  split; [exact H | eapply float_of_int_raise; eassumption].
Qed.

Lemma int_add_float_raise (z : Z) (b : float) (e : exn) :
  int_add_float z b = Raise e -> e = OverflowError.
Proof.
  unfold int_add_float. intros H. apply rbind_raise in H.
  destruct H as [H | (? & _ & H)]; [eapply float_of_int_raise; eassumption | discriminate H].
Qed.

Lemma int_truediv_raise (a b : Z) (e : exn) :
  int_truediv a b = Raise e -> (e = ZeroDivisionError /\ b = 0) \/ e = OverflowError.
Proof.
  unfold int_truediv. destruct (Z.eqb_spec b 0) as [-> | _]; [left; split; congruence |].
  destruct (a =? 0); [discriminate |].
  destruct (SFdiv_core_binary 53 1024 (Z.abs a) 0 (Z.abs b) 0) as [[q x] l].
  destruct (binary_round_aux 53 1024 (xorb (a <? 0) (b <? 0)) q x l); try discriminate.
  right. congruence.
Qed.

Lemma int_div_float_raise (z : Z) (b : float) (e : exn) :
  int_div_float z b = Raise e ->
  (e = ZeroDivisionError /\ (b =? 0)%float = true) \/ e = OverflowError.
Proof.
  unfold int_div_float. intros H. apply rbind_raise in H.
  destruct H as [H | (fz & _ & H)]; [right; eapply float_of_int_raise; eassumption |].
  unfold float_truediv in H. destruct (b =? 0)%float; [| discriminate H].
  left. split; congruence.
Qed.

Lemma num_mul_raise (a : num) (z : Z) (e : exn) :
  num_mul a (PyInt z) = Raise e ->
  float_of_int z = Raise e /\ e = OverflowError /\ exists f, a = PyFloat f.
Proof.
  destruct a as [x|f]; cbn [num_mul to_float rbind]; [discriminate |].
  intros H. apply rbind_raise in H. destruct H as [H | (? & _ & H)]; [| discriminate H].
  split; [exact H |]. split; [eapply float_of_int_raise; eassumption | eauto].
Qed.

Lemma init_clocks_ok (logs : string) : clocks_ok (init logs).
Proof. split; left; reflexivity. Qed.

Lemma after_clocks_ok (k : call) (c : Context) : clocks_ok c -> clocks_ok (after k c).
Proof.
  intros [Hi Hb]. destruct c as [dm ls ms sp sd lit lbt ji jis spi w tr]. cbn [last_iteration_time last_batch_time] in Hi, Hb.
  destruct k; unfold_methods.
  all: exec_all.
  all: split; cbn [last_iteration_time last_batch_time];
    first [ assumption | right; eexists; reflexivity ].
Qed.

Lemma run_clocks_ok (ks : list call) (c : Context) : clocks_ok c -> clocks_ok (run ks c).
Proof.
  revert c. induction ks as [|k ks IH]; intros c Hc; [exact Hc |].
  cbn [run fold_left]. apply IH, after_clocks_ok, Hc.
Qed.

(** X8: in a context reached by any sequence of calls, [iteration] can
    only fail at the very end, when the number of iterations left is too
    large for a float in the ['eta'] product: it raises [OverflowError],
    the counters, the clock fields and the window are already updated and
    the ['iteration'] patch is sent, but no ['eta'] patch. *)
Theorem iteration_fails_only_on_eta
    (logs : string) (ks : list call) (current : Z) (total : option Z)
    (now : float) (e : exn) :
  let c := run ks (init logs) in
  let c' := after (CallIteration current total now) c in
  fst (iteration current total now c) = Raise e ->
  e = OverflowError
  /\ 0 < job_iterations c' - current
  /\ float_of_int (job_iterations c' - current) = Raise OverflowError
  /\ job_iteration c' = current
  /\ last_iteration_time c' = PyFloat now
  /\ last_batch_time c' = PyFloat now
  /\ In (Patch "iteration" (VInt current)) (emitted c c')
  /\ (forall v, ~ In (Patch "eta" v) (emitted c c')).
Proof.
  intros c c'. subst c'.
  destruct (run_clocks_ok ks (init logs) (init_clocks_ok logs)) as [Hi _].
  fold c in Hi. clearbody c.
  destruct c as [dm ls ms sp sd lit lbt ji jis spi w tr]. cbn [last_iteration_time] in Hi.
  unfold_methods.
  destruct Hi as [-> | [fl ->]].
  all: exec_all; try no_mean_failure.
  all: try match goal with
           | H : float_sub_num _ (PyFloat _) = Raise _ |- _ =>
               unfold float_sub_num in H; cbn [to_float rbind] in H; discriminate H
           end.
  all: try match goal with
           | H : truthy (PyInt 0) = true |- _ => discriminate H
           | H : truthy_opt None = true |- _ => discriminate H
           end.
  all: intros Hret; try discriminate Hret.
  all: assert (e0 = e) by congruence; subst e0; clear Hret.
  all: match goal with
       | H : num_mul _ _ = Raise _ |- _ =>
           apply num_mul_raise in H; destruct H as (H & -> & _)
       end.
  all: trace_norm.
  all: cbn [job_iterations job_iteration last_iteration_time last_batch_time].
  all: repeat (split; [first [ reflexivity | assumption | apply Z.ltb_lt; assumption
                             | cbn [In]; tauto ] |]).
  all: intros v Hin; cbn [In] in Hin;
    repeat (destruct Hin as [Hin | Hin]; try discriminate Hin); contradiction.
Qed.

Lemma iteration_fails_only_on_eta_witness :
  let c := run [CallIteration 0 (Some 10) 100] (init "") in
  let c' := after (CallIteration 1 (Some (2 ^ 1024)) 101) c in
  OverflowError = OverflowError
  /\ 0 < job_iterations c' - 1
  /\ float_of_int (job_iterations c' - 1) = Raise OverflowError
  /\ job_iteration c' = 1
  /\ last_iteration_time c' = PyFloat 101
  /\ last_batch_time c' = PyFloat 101
  /\ In (Patch "iteration" (VInt 1)) (emitted c c')
  /\ (forall v, ~ In (Patch "eta" v) (emitted c c')).
Proof.
  refine (iteration_fails_only_on_eta "" [CallIteration 0 (Some 10) 100] 1
            (Some (2 ^ 1024)) 101 OverflowError _).
  vm_compute. reflexivity.
Defined.

(** Taking apart the hypotheses that say that a computation raised. *)
Ltac inv_raise :=
  repeat match goal with
         | H : Ok _ = Raise _ |- _ => discriminate H
         | H : Raise _ = Raise _ |- _ => injection H as <-
         | H : rbind _ _ = Raise _ |- _ =>
             let a := fresh "a" in
             let Ha := fresh "Ha" in
             apply rbind_raise in H; destruct H as [H | (a & Ha & H)]
         | H : match ?o with Some _ => _ | None => _ end = Raise _ |- _ =>
             is_var o; destruct o
         | H : float_of_opt (option_map PyInt ?s) = Raise _ |- _ =>
             is_var s; destruct s; cbn [float_of_opt option_map to_float] in H
         | H : float_of_opt (Some (PyFloat _)) = Raise _ |- _ =>
             cbn [float_of_opt to_float] in H
         | H : float_of_opt None = Raise _ |- _ =>
             cbn [float_of_opt] in H
         | H : struct_pack speed_fmt _ = Raise _ |- _ =>
             rewrite speed_row_packed in H
         end.

(** X9: what a failing [step] raises, and why: [TypeError] only when
    [total] or [size] is [None]; [ZeroDivisionError] only when [total] is
    [0] or the clock has not moved since [last_batch_time] was set;
    otherwise [OverflowError], from an int too large for a float.  It never
    raises anything else. *)
Theorem step_failure_causes
    (current : Z) (total size : option Z) (now : float) (c : Context) (e : exn) :
  fst (step current total size now c) = Raise e ->
  (e = TypeError /\ (total = None \/ size = None))
  \/ (e = ZeroDivisionError
      /\ (total = Some 0
          \/ (truthy (last_batch_time c) = true
              /\ exists elapsed,
                   float_sub_num now (last_batch_time c) = Ok elapsed
                   /\ (elapsed =? 0)%float = true)))
  \/ e = OverflowError.
Proof.
  destruct c as [dm ls ms sp sd lit lbt ji jis spi w tr].
  unfold_methods. exec_all; try no_mean_failure.
  all: intros Hret; try discriminate Hret.
  all: cbn [last_batch_time].
  all: inv_ok; inv_raise.
  all: try match goal with
           | H : int_truediv _ _ = Raise _ |- _ =>
               apply int_truediv_raise in H; destruct H as [[-> ->] | ->]
           | H : int_div_float _ _ = Raise _ |- _ =>
               apply int_div_float_raise in H; destruct H as [[-> H] | ->]
           | H : int_add_float _ _ = Raise _ |- _ => apply int_add_float_raise in H; subst
           | H : float_sub_num _ _ = Raise _ |- _ => apply float_sub_num_raise in H; subst
           | H : float_mul_int _ _ = Raise _ |- _ =>
               apply float_mul_int_raise in H; destruct H as [_ ->]
           | H : float_of_int _ = Raise _ |- _ => apply float_of_int_raise in H; subst
           end.
  all: first [ left; split; [reflexivity | auto]
             | right; right; reflexivity
             | right; left; split; [reflexivity |];
               first [ left; reflexivity
                     | right; split; [reflexivity | eexists; split; eassumption] ] ].
Qed.

Lemma step_failure_causes_witness :
  (TypeError = TypeError /\ (@None Z = None \/ @None Z = None))
  \/ (TypeError = ZeroDivisionError
      /\ (@None Z = Some 0
          \/ (truthy (last_batch_time (init "")) = true
              /\ exists elapsed,
                   float_sub_num 0 (last_batch_time (init "")) = Ok elapsed
                   /\ (elapsed =? 0)%float = true)))
  \/ TypeError = OverflowError.
Proof.
  exact (step_failure_causes 1 None None 0 (init "") TypeError eq_refl).
Defined.

(** ** The row of a [metric] call *)

(** The loop of [metric] fails exactly when a conversion to float fails. *)
Lemma pack_values_rmap (y : list (option num)) (acc : bytes) :
  pack_values acc y =
    (let? fys := rmap value_float y in Ok (acc ++ concat (map pack_d fys)))%result.
Proof.
  destruct (rmap value_float y) as [fys|e] eqn:E.
  - cbn [rbind]. now apply pack_values_ok.
  - cbn [rbind]. revert acc e E. induction y as [|y1 y IH]; intros acc e E.
    + discriminate E.
    + cbn [rmap] in E. cbn [pack_values].
      destruct (value_float y1) as [v|e1]; cbn [rbind] in *; [| injection E as ->; reflexivity].
      cbn [struct_pack pack_one rbind].
      destruct (rmap value_float y) as [vs|e2]; cbn [rbind] in E; [discriminate E |].
      rewrite (IH _ e2 eq_refl). injection E as ->. reflexivity.
Qed.

Lemma metric_header_packed (n : Z) (fx now : float) :
  struct_pack metric_fmt [AInt 1; AInt n; AFloat fx; AFloat now] =
    if (0 <=? n) && (n <? 65536) then Ok (metric_header n fx now) else Raise StructError.
Proof.
  unfold metric_fmt. cbn [struct_pack pack_one]. unfold pack_uint.
  change (256 ^ Z.of_nat 2) with 65536.
  replace ((0 <=? 1) && (1 <? 256 ^ Z.of_nat 1)) with true by reflexivity.
  cbn [rbind]. destruct ((0 <=? n) && (n <? 65536)); reflexivity.
Qed.

(** ** A [metric] call that fails *)

Section UntypedMetric.

Variable float_of_str : string -> option float.

Local Abbreviation float_of_obj := (Untyped.float_of_obj float_of_str).

Lemma float_of_obj_raise (o : Untyped.pyobj) (e : exn) :
  float_of_obj o = Raise e -> e = TypeError \/ e = ValueError \/ e = OverflowError.
Proof.
  destruct o as [|n|s|l|l]; cbn [Untyped.float_of_obj]; intros H.
  - left. congruence.
  - right. right. eapply to_float_raise; eassumption.
  - destruct (float_of_str s); [discriminate H |]. right. left. congruence.
  - left. congruence.
  - left. congruence.
Qed.

Lemma float_of_number_raise (o : Untyped.pyobj) (e : exn) :
  number_or_none o = true -> o <> Untyped.ONone ->
  float_of_obj o = Raise e -> e = OverflowError.
Proof.
  destruct o as [|n|s|l|l]; cbn; intros Hn Ho H; try discriminate Hn; try congruence.
  eapply to_float_raise; eassumption.
Qed.

Lemma untyped_value_float_raise (v : Untyped.pyobj) (e : exn) :
  Untyped.value_float float_of_str v = Raise e ->
  v <> Untyped.ONone /\ float_of_obj v = Raise e.
Proof.
  destruct v; cbn [Untyped.value_float]; intros H; try discriminate H;
    (split; [discriminate | exact H]).
Qed.

Lemma untyped_pack_values_raise (y : list Untyped.pyobj) (acc : bytes) (e : exn) :
  Untyped.pack_values float_of_str acc y = Raise e ->
  exists v, In v y /\ v <> Untyped.ONone /\ float_of_obj v = Raise e.
Proof.
  revert acc. induction y as [|y1 y IH]; intros acc H; cbn [Untyped.pack_values] in H.
  - discriminate H.
  - apply rbind_raise in H. destruct H as [H | (f & _ & H)].
    + apply untyped_value_float_raise in H. exists y1. cbn [In]. tauto.
    + cbn [struct_pack pack_one rbind] in H.
      destruct (IH _ H) as (v & Hin & Hv). exists v. cbn [In]. tauto.
Qed.

Lemma untyped_metric_row_raise
    (x : Untyped.pyobj) (y : list Untyped.pyobj) (now : float) (e : exn) :
  Untyped.metric_row float_of_str x y now = Raise e ->
  float_of_obj x = Raise e
  \/ (e = StructError /\ 65535 < Z.of_nat (length y))
  \/ (exists v, In v y /\ v <> Untyped.ONone /\ float_of_obj v = Raise e).
Proof.
  unfold Untyped.metric_row. intros H.
  apply rbind_raise in H. destruct H as [H | (fx & _ & H)]; [left; exact H |].
  right.
  apply rbind_raise in H. destruct H as [H | (hdr & _ & H)].
  - left. rewrite metric_header_packed in H.
    destruct (Z.ltb_spec (Z.of_nat (length y)) 65536) as [Hlt | Hge].
    + replace (0 <=? Z.of_nat (length y)) with true in H
        by (symmetry; apply Z.leb_le; lia).
      discriminate H.
    + rewrite andb_false_r in H. split; [congruence | lia].
  - right. eapply untyped_pack_values_raise; eassumption.
Qed.

(** On numbers, [Untyped.metric] is [metric]. *)
Lemma untyped_pack_values_numbers (y : list (option num)) (acc : bytes) :
  Untyped.pack_values float_of_str acc (map obj_of_opt y) = pack_values acc y.
Proof.
  revert acc. induction y as [|y1 y IH]; intros acc; [reflexivity |].
  cbn [map Untyped.pack_values pack_values].
  replace (Untyped.value_float float_of_str (obj_of_opt y1)) with (value_float y1)
    by (destruct y1; reflexivity).
  destruct (value_float y1); cbn [rbind]; [| reflexivity].
  destruct (struct_pack [fmt_d] [AFloat a]); cbn [rbind]; [apply IH | reflexivity].
Qed.

Lemma untyped_as_list_numbers (y : metric_y) :
  Untyped.as_list (obj_of_y y) = map obj_of_opt (as_list y).
Proof. destruct y as [l|[n|]]; reflexivity. Qed.

Lemma untyped_values_numbers (l : list (option num)) :
  map Untyped.value_of_obj (map obj_of_opt l) = map value_of_opt l.
Proof.
  rewrite map_map. apply map_ext. intros [n|]; reflexivity.
Qed.

Lemma untyped_metric_numbers
    (name : string) (x : num) (y : metric_y) (now : float) (c : Context) :
  Untyped.metric float_of_str name (Untyped.ONum x) (obj_of_y y) now c =
    metric name x y now c.
Proof.
  unfold Untyped.metric, metric, Untyped.metric_row, metric_row.
  rewrite untyped_as_list_numbers, untyped_values_numbers, length_map.
  cbn [Untyped.float_of_obj].
  destruct (to_float x) as [fx|e]; cbn [rbind]; [| reflexivity].
  destruct (struct_pack metric_fmt _) as [hdr|e]; cbn [rbind]; [| reflexivity].
  rewrite untyped_pack_values_numbers. reflexivity.
Qed.

(** X10: a failing [metric] call, whatever the arguments.  What it raises
    comes from [float(x)], or is [struct.error] because there are more
    than 65535 values, or comes from [float()] of a value that is not
    [None]: so it is [TypeError] ([None] for [x], a list, a tuple),
    [ValueError] (a string that is not a numeral), [OverflowError] (an int
    too large) or [struct.error], and with numbers only the last two.  The
    channel is defined all the same, the [defineMetric] call being sent if
    it was not defined before, but no row is buffered and no [lastValue]
    patch is sent. *)
Theorem failed_metric_still_defines
    (name : string) (x y : Untyped.pyobj) (now : float) (c : Context) (e : exn) :
  fst (Untyped.metric float_of_str name x y now c) = Raise e ->
  let c' := snd (Untyped.metric float_of_str name x y now c) in
  let values := Untyped.as_list y in
  (float_of_obj x = Raise e
   \/ (e = StructError /\ 65535 < Z.of_nat (length values))
   \/ (exists v, In v values /\ v <> Untyped.ONone /\ float_of_obj v = Raise e))
  /\ (e = TypeError \/ e = ValueError \/ e = OverflowError \/ e = StructError)
  /\ (is_number x = true -> forallb number_or_none values = true ->
      e = OverflowError \/ e = StructError)
  /\ dict_mem name (defined_metrics c') = true
  /\ metric_subject c' = metric_subject c
  /\ emitted c c' =
       (if dict_mem name (defined_metrics c) then []
        else [JobAction "defineMetric" [VStr name; VDict []]]).
Proof.
  intros Hret c' values. subst c' values.
  assert (Hrow : Untyped.metric_row float_of_str x (Untyped.as_list y) now = Raise e).
  { revert Hret. unfold Untyped.metric, define_metric. destruct c. exec_m.
    all: intros Hret; try discriminate Hret; congruence. }
  pose proof (untyped_metric_row_raise _ _ _ _ Hrow) as Hcause.
  split; [exact Hcause |]. split; [| split].
  - destruct Hcause as [H | [[-> _] | (v & _ & _ & H)]]; [| tauto |];
      apply float_of_obj_raise in H; tauto.
  - intros Hx Hy. destruct Hcause as [H | [[-> _] | (v & Hin & Hv & H)]]; [| tauto |].
    + left. destruct x; try discriminate Hx. eapply to_float_raise. exact H.
    + left. rewrite forallb_forall in Hy. eapply float_of_number_raise; eauto.
  - clear Hcause Hret. destruct c as [dm ls ms sp sd lit lbt ji jis spi w tr].
    unfold Untyped.metric, define_metric. reduce_m. rewrite Hrow.
    destruct (dict_mem name dm) eqn:Hmem; cbn [negb]; reduce_m.
    all: trace_norm.
    all: rewrite ?dict_mem_set, ?String.eqb_refl, ?orb_true_r, ?Hmem.
    all: repeat split.
Qed.

End UntypedMetric.

Lemma failed_metric_still_defines_witness :
  let parse := fun _ : string => @None float in
  let c := init "" in
  let c' := snd (Untyped.metric parse "loss" (Untyped.ONum (PyInt 1))
                   (Untyped.OList [Untyped.ONone; Untyped.OStr "abc"]) 0 c) in
  let values := Untyped.as_list (Untyped.OList [Untyped.ONone; Untyped.OStr "abc"]) in
  (Untyped.float_of_obj parse (Untyped.ONum (PyInt 1)) = Raise ValueError
   \/ (ValueError = StructError /\ 65535 < Z.of_nat (length values))
   \/ (exists v, In v values /\ v <> Untyped.ONone
                 /\ Untyped.float_of_obj parse v = Raise ValueError))
  /\ (ValueError = TypeError \/ ValueError = ValueError
      \/ ValueError = OverflowError \/ ValueError = StructError)
  /\ (is_number (Untyped.ONum (PyInt 1)) = true ->
      forallb number_or_none values = true ->
      ValueError = OverflowError \/ ValueError = StructError)
  /\ dict_mem "loss" (defined_metrics c') = true
  /\ metric_subject c' = metric_subject c
  /\ emitted c c' =
       (if dict_mem "loss" (defined_metrics c) then []
        else [JobAction "defineMetric" [VStr "loss"; VDict []]]).
Proof.
  exact (failed_metric_still_defines (fun _ => None) "loss" (Untyped.ONum (PyInt 1))
           (Untyped.OList [Untyped.ONone; Untyped.OStr "abc"]) 0 (init "")
           ValueError eq_refl).
Defined.

(** ** The first [step] *)

Lemma other_calls_keep_progress (k : call) (c : Context) :
  records k = false -> progress_untouched c (after k c).
Proof.
  intros Hk. destruct k; try discriminate Hk;
    destruct c as [dm ls ms sp sd lit lbt ji jis spi w tr]; unfold_methods.
  all: exec_all; repeat split.
Qed.

Lemma run_keeps_progress (ks : list call) (c : Context) :
  no_progress_call ks = true -> progress_untouched c (run ks c).
Proof.
  revert c. induction ks as [|k ks IH]; intros c Hks; [repeat split |].
  cbn [no_progress_call forallb] in Hks. apply andb_true_iff in Hks.
  destruct Hks as [Hk Hks]. apply negb_true_iff in Hk.
  cbn [run fold_left].
  destruct (other_calls_keep_progress k c Hk) as (H1 & H2 & H3 & H4 & H5 & H6).
  destruct (IH (after k c) Hks) as (G1 & G2 & G3 & G4 & G5 & G6).
  unfold progress_untouched, run in *. repeat split; congruence.
Qed.

Lemma float_of_int_0 : float_of_int 0 = Ok 0%float.
Proof. reflexivity. Qed.

(** X11: the first [step] of a job, before any [iteration] and with no
    earlier [step], has no elapsed time to divide by: it reports [size]
    itself as the speed, records no sample and sends no ['eta'] and no
    ['secondsPerIteration'] patch.  It returns whenever [current / total]
    and [float(size)] can be computed. *)
Theorem first_step_reports_size
    (logs : string) (ks : list call) (current t sz : Z) (now frac fsz : float) :
  no_progress_call ks = true ->
  int_truediv current t = Ok frac ->
  float_of_int sz = Ok fsz ->
  let c := run ks (init logs) in
  let c' := after (CallStep current (Some t) (Some sz) now) c in
  fst (step current (Some t) (Some sz) now c) = Ok tt
  /\ emitted c c' =
       [Patch "step" (VInt current); Patch "speed" (VInt sz); Patch "steps" (VInt t)]
  /\ seconds_per_iterations c' = []
  /\ seconds_per_iteration c' = PyInt 0
  /\ last_batch_time c' = PyFloat now.
Proof.
  intros Hks Hfrac Hsz c c'. subst c'.
  destruct (run_keeps_progress ks (init logs) Hks) as (_ & Hb & Hi & _ & Hr & Hw).
  fold c in Hb, Hi, Hr, Hw. clearbody c.
  destruct c as [dm ls ms sp sd lit lbt ji jis spi w tr].
  cbn in Hb, Hi, Hr, Hw. subst.
  pose proof (int_truediv_nonzero _ _ _ Hfrac) as Ht.
  unfold_methods. exec_all.
  all: try (exfalso; congruence).
  all: try match goal with
           | H : int_add_float 0 _ = Raise _ |- _ =>
               unfold int_add_float in H; rewrite float_of_int_0 in H; discriminate H
           | H : truthy (PyInt 0) = true |- _ => discriminate H
           | H : (0 <? length (prune _ []))%nat = true |- _ => discriminate H
           | H : float_of_opt (option_map PyInt (Some _)) = Raise _ |- _ =>
               cbn [float_of_opt option_map to_float] in H; congruence
           | H : struct_pack speed_fmt _ = Raise _ |- _ =>
               rewrite speed_row_packed in H; discriminate H
           | H : truthy_opt (Some _) = false |- _ =>
               cbn [truthy_opt] in H; apply negb_false_iff, Z.eqb_eq in H; contradiction
           end.
  all: trace_norm.
  all: repeat split.
Qed.

Lemma first_step_reports_size_witness :
  let c := run [CallLog "start"; CallMetric "loss" (PyInt 0) (YScalar None) 99]
             (init "") in
  let c' := after (CallStep 0 (Some 100) (Some 1000) 100) c in
  fst (step 0 (Some 100) (Some 1000) 100 c) = Ok tt
  /\ emitted c c' =
       [Patch "step" (VInt 0); Patch "speed" (VInt 1000); Patch "steps" (VInt 100)]
  /\ seconds_per_iterations c' = []
  /\ seconds_per_iteration c' = PyInt 0
  /\ last_batch_time c' = PyFloat 100.
Proof.
  exact (first_step_reports_size ""
           [CallLog "start"; CallMetric "loss" (PyInt 0) (YScalar None) 99]
           0 100 1000 100 0 1000 eq_refl eq_refl eq_refl).
Defined.

(** ** The newest sample *)

Lemma last_n_snoc {A : Type} (n : nat) (l : list A) (x : A) :
  last_n (S n) (l ++ [x]) = last_n n l ++ [x].
Proof.
  unfold last_n. rewrite length_app, skipn_app. cbn [length].
  replace (length l + 1 - S n)%nat with (length l - n)%nat by lia.
  replace (length l - n - length l)%nat with 0%nat by lia.
  reflexivity.
Qed.

Lemma prune_snoc (now : float) (w : list sample) (s : sample) :
  recent now s = true ->
  prune now (w ++ [s]) = last_n 29 (filter (recent now) w) ++ [s].
Proof.
  intros Hs. unfold prune. rewrite filter_app. cbn [filter]. rewrite Hs.
  apply last_n_snoc.
Qed.

Lemma recent_now (now d : float) :
  is_finite now = true -> recent now {| diff := d; when := now |} = true.
Proof. intros H. unfold recent. cbn [when]. now rewrite (sub_self now H). Qed.

Lemma prune_newest (now d : float) (w : list sample) :
  is_finite now = true ->
  exists older,
    prune now (w ++ [{| diff := d; when := now |}]) = older ++ [{| diff := d; when := now |}]
    /\ subseq older w.
Proof.
  intros H. exists (last_n 29 (filter (recent now) w)). split.
  - apply prune_snoc, recent_now, H.
  - unfold last_n. eapply subseq_trans; [apply subseq_skipn | apply subseq_filter].
Qed.

(** X12: with a finite clock reading, the sample a call records is never
    pruned away by the same call: it is the last element of the window the
    call leaves, after a selection of the older samples.  For [iteration]
    the sample is the time since [last_iteration_time]; for [step] it is
    the time since [last_batch_time] multiplied by [total], stored in the
    same window. *)
Theorem newest_sample_is_kept (now : float) (c : Context) :
  is_finite now = true ->
  (forall current total d,
     truthy (last_iteration_time c) = true ->
     float_sub_num now (last_iteration_time c) = Ok d ->
     exists older,
       seconds_per_iterations (after (CallIteration current total now) c) =
         older ++ [{| diff := d; when := now |}]
       /\ subseq older (seconds_per_iterations c))
  /\ (forall current t size elapsed d,
        truthy (last_batch_time c) = true ->
        float_sub_num now (last_batch_time c) = Ok elapsed ->
        float_mul_int elapsed t = Ok d ->
        fst (step current (Some t) size now c) = Ok tt ->
        exists older,
          seconds_per_iterations (after (CallStep current (Some t) size now) c) =
            older ++ [{| diff := d; when := now |}]
          /\ subseq older (seconds_per_iterations c)).
Proof.
  intros Hfin. destruct c as [dm ls ms sp sd lit lbt ji jis spi w tr].
  cbn [last_iteration_time last_batch_time seconds_per_iterations].
  split.
  - intros current total d Ht Hd. unfold_methods. exec_all.
    all: try (exfalso; congruence).
    all: cbn [seconds_per_iterations].
    all: match goal with
         | |- context [{| diff := ?a; when := _ |}] =>
             assert (a = d) by congruence; subst a
         end.
    all: apply prune_newest, Hfin.
  - intros current t size elapsed d Ht He Hd. unfold_methods. exec_all.
    all: intros Hret; try discriminate Hret; try (exfalso; congruence).
    all: cbn [seconds_per_iterations].
    all: match goal with
         | H : rbind (float_sub_num _ _) (fun _ => float_mul_int _ _) = Ok ?a |- _ =>
             rewrite He in H; cbn [rbind] in H;
             assert (a = d) by congruence; subst a
         end.
    all: apply prune_newest, Hfin.
Qed.

Lemma newest_sample_is_kept_witness :
  let c := after (CallIteration 5 (Some 10) 100) (init "") in
  is_finite 101 = true
  /\ (exists older,
        seconds_per_iterations (after (CallIteration 6 None 101) c) =
          older ++ [{| diff := 1; when := 101 |}]
        /\ subseq older (seconds_per_iterations c))
  /\ (exists older,
        seconds_per_iterations (after (CallStep 1 (Some 10) (Some 32) 101) c) =
          older ++ [{| diff := 10; when := 101 |}]
        /\ subseq older (seconds_per_iterations c)).
Proof.
  split; [reflexivity |]. split.
  - exact (proj1 (newest_sample_is_kept 101
                    (after (CallIteration 5 (Some 10) 100) (init "")) eq_refl)
             6 None 1%float eq_refl eq_refl).
  - exact (proj2 (newest_sample_is_kept 101
                    (after (CallIteration 5 (Some 10) 100) (init "")) eq_refl)
             1 10 (Some 32) 1%float 10%float eq_refl eq_refl eq_refl eq_refl).
Defined.

(** ** Which call touches what *)

(** X13: whether they return or raise, [iteration] and [step] never touch
    the defined channels, the log and metric buffers or the shutdown flag;
    the other calls and the ticks never touch the progress counters, the
    clock fields, the window or the rate; and the speed buffer is changed
    by [step] and by its own tick only. *)
Theorem calls_keep_to_their_fields (k : call) (c : Context) :
  let c' := after k c in
  (records k = true -> telemetry_untouched c c')
  /\ (records k = false -> progress_untouched c c')
  /\ (touches_speed_buffer k = false ->
      speed_report_subject c' = speed_report_subject c).
Proof.
  destruct c as [dm ls ms sp sd lit lbt ji jis spi w tr].
  destruct k; unfold_methods.
  all: exec_all.
  all: split; [| split]; intros Hk; try discriminate Hk; repeat split.
Qed.

(** ** The rows of a channel, read back one after another *)

Lemma concat_pack_d_length (fs : list float) :
  length (concat (map pack_d fs)) = (8 * length fs)%nat.
Proof.
  induction fs as [|f fs IH]; [reflexivity |].
  cbn [map concat length]. rewrite length_app, pack_d_length, IH. lia.
Qed.

(** A row that was built is a header followed by the packed values. *)
Lemma metric_row_built (x : num) (y : list (option num)) (now : float) (row : bytes) :
  metric_row x y now = Ok row ->
  exists fx fys,
    to_float x = Ok fx
    /\ rmap value_float y = Ok fys
    /\ Z.of_nat (length y) <= 65535
    /\ row = metric_header (Z.of_nat (length y)) fx now ++ concat (map pack_d fys).
Proof.
  unfold metric_row. intros H.
  apply rbind_ok in H. destruct H as (fx & Hx & H).
  apply rbind_ok in H. destruct H as (hdr & Hhdr & H).
  rewrite metric_header_packed in Hhdr.
  destruct ((0 <=? Z.of_nat (length y)) && (Z.of_nat (length y) <? 65536)) eqn:Hn;
    [| discriminate Hhdr].
  apply andb_true_iff in Hn. destruct Hn as [_ Hn]. apply Z.ltb_lt in Hn.
  rewrite pack_values_rmap in H. apply rbind_ok in H. destruct H as (fys & Hy & H).
  exists fx, fys. repeat split; [assumption | assumption | lia | congruence].
Qed.

Lemma metric_row_unpacked (n : nat) (fx now : float) (fys : list float) :
  Z.of_nat n <= 65535 ->
  length fys = n ->
  unpack_metric_row (metric_header (Z.of_nat n) fx now ++ concat (map pack_d fys)) =
    Some {| version := 1;
            value_count := Z.of_nat n;
            x_coordinate := fx;
            timestamp := now;
            values := fys |}.
Proof.
  intros Hn Hlen. unfold unpack_metric_row, metric_header. rewrite <- !app_assoc.
  rewrite take_app by apply le_bytes_length.
  rewrite take_app by apply le_bytes_length.
  rewrite take_app by apply pack_d_length.
  rewrite take_app by apply pack_d_length.
  cbn [app].
  rewrite (le_int_le_bytes 2 (Z.of_nat n))
    by (change (256 ^ Z.of_nat 2) with 65536; lia).
  rewrite Nat2Z.id, <- Hlen, unpack_doubles_packed, !unpack_d_pack_d.
  reflexivity.
Qed.

Lemma metric_rows_unpacked (calls : list metric_args) (rows : list bytes) (fuel : nat) :
  rmap row_of_args calls = Ok rows ->
  (length calls <= fuel)%nat ->
  exists recs,
    rmap record_of_args calls = Ok recs
    /\ unpack_metric_rows fuel (concat rows) = Some recs.
Proof.
  revert rows fuel. induction calls as [|[[x y] now] calls IH]; intros rows fuel H Hfuel.
  - cbn [rmap] in H. assert (rows = []) by congruence. subst rows.
    exists []. split; [reflexivity |]. destruct fuel; reflexivity.
  - cbn [rmap] in H.
    apply rbind_ok in H. destruct H as (row & Hrow & H).
    apply rbind_ok in H. destruct H as (rest & Hrest & H).
    assert (rows = row :: rest) by congruence. subst rows. clear H.
    destruct fuel as [|fuel]; [cbn [length] in Hfuel; lia |].
    destruct (IH rest fuel Hrest ltac:(cbn [length] in Hfuel; lia)) as (recs & Hrecs & Hun).
    cbn [row_of_args] in Hrow.
    destruct (metric_row_built _ _ _ _ Hrow) as (fx & fys & Hx & Hy & Hn & ->).
    pose proof (rmap_length _ _ _ Hy) as Hlen.
    exists ({| version := 1;
               value_count := Z.of_nat (length y);
               x_coordinate := fx;
               timestamp := now;
               values := fys |} :: recs).
    split.
    + cbn [rmap record_of_args]. unfold record_of. rewrite Hx, Hy. cbn [rbind].
      rewrite Hrecs. reflexivity.
    + cbn [concat].
      set (row := metric_header (Z.of_nat (length y)) fx now ++ concat (map pack_d fys)).
      assert (Hrowlen : length row = (19 + 8 * length y)%nat).
      { subst row. unfold metric_header.
        rewrite !length_app, !le_bytes_length, !pack_d_length, concat_pack_d_length.
        cbn [length]. lia. }
      assert (Hhead : exists tl,
                 row ++ concat rest =
                   le_bytes 1 1 ++ le_bytes 2 (Z.of_nat (length y)) ++ tl).
      { subst row. unfold metric_header. rewrite <- !app_assoc. eauto. }
      destruct Hhead as (tl & Hhead).
      destruct (row ++ concat rest) as [|b0 bs0] eqn:Hbs.
      { apply (f_equal (@length byte)) in Hbs. rewrite length_app, Hrowlen in Hbs.
        cbn [length] in Hbs. lia. }
      cbn [unpack_metric_rows]. rewrite Hhead.
      rewrite take_app by apply le_bytes_length.
      rewrite take_app by apply le_bytes_length.
      rewrite (le_int_le_bytes 2 (Z.of_nat (length y)))
        by (change (256 ^ Z.of_nat 2) with 65536; lia).
      rewrite Nat2Z.id, <- Hhead, <- Hbs.
      rewrite take_app by exact Hrowlen.
      subst row. rewrite metric_row_unpacked by (assumption || lia).
      rewrite Hun. reflexivity.
Qed.

Lemma metric_row_length (x : num) (y : list (option num)) (now : float) (row : bytes) :
  metric_row x y now = Ok row -> length row = (19 + 8 * length y)%nat.
Proof.
  intros H. destruct (metric_row_built _ _ _ _ H) as (fx & fys & _ & Hy & _ & ->).
  unfold metric_header.
  rewrite !length_app, !le_bytes_length, !pack_d_length, concat_pack_d_length.
  rewrite (rmap_length _ _ _ Hy). cbn [length]. lia.
Qed.

(** Every row takes at least one byte, so a payload has at most as many
    rows as bytes. *)
Lemma payload_length (calls : list metric_args) (rows : list bytes) :
  rmap row_of_args calls = Ok rows -> (length calls <= length (concat rows))%nat.
Proof.
  revert rows. induction calls as [|[[x y] now] calls IH]; intros rows H.
  - cbn [length]. lia.
  - cbn [rmap] in H.
    apply rbind_ok in H. destruct H as (row & Hrow & H).
    apply rbind_ok in H. destruct H as (rest & Hrest & H).
    assert (rows = row :: rest) by congruence. subst rows.
    cbn [concat length]. rewrite length_app.
    cbn [row_of_args] in Hrow. rewrite (metric_row_length _ _ _ _ Hrow).
    specialize (IH rest Hrest). lia.
Qed.

(** X14: the rows of successful [metric] calls, concatenated as a flush
    concatenates the rows of one channel, can be read back one after
    another: the value count of each header tells where its row ends, and
    the records come out in the order of the calls, each with version 1,
    its number of values, [float(x)], its clock reading and its values. *)
Theorem channel_payload_reads_back (calls : list metric_args) (rows : list bytes) :
  rmap row_of_args calls = Ok rows ->
  exists recs,
    rmap record_of_args calls = Ok recs
    /\ length recs = length calls
    /\ unpack_metric_rows (length (concat rows)) (concat rows) = Some recs.
Proof.
  intros H.
  destruct (metric_rows_unpacked calls rows (length (concat rows)) H
              (payload_length calls rows H)) as (recs & Hrecs & Hun).
  exists recs. split; [exact Hrecs |]. split; [| exact Hun].
  eapply rmap_length; eassumption.
Qed.

Lemma channel_payload_reads_back_witness :
  let calls := [(PyInt 3, [Some (PyFloat 1.5); None], 100%float);
                (PyFloat 4, [], 101%float);
                (PyInt 5, [Some (PyInt 7)], 102%float)] in
  exists rows,
    rmap row_of_args calls = Ok rows
    /\ exists recs,
         rmap record_of_args calls = Ok recs
         /\ length recs = length calls
         /\ unpack_metric_rows (length (concat rows)) (concat rows) = Some recs.
Proof.
  eexists. split; [vm_compute; reflexivity |].
  apply channel_payload_reads_back. vm_compute. reflexivity.
Defined.

(** ** A [metric] call that returns *)

(** X15: in a context reached by any sequence of calls, [metric] returns
    whenever its row can be built, and its last act is the [lastValue]
    patch with the values as they were given.  Before [shutdown] the
    call adds exactly one item to the metric buffer, the row under the
    channel name; after [shutdown] it returns and patches all the same,
    but the row is dropped. *)
Theorem metric_buffers_one_row
    (logs : string) (ks : list call) (name : string) (x : num) (y : metric_y)
    (now : float) (row : bytes) :
  let c := run ks (init logs) in
  let c' := after (CallMetric name x y now) c in
  metric_row x (as_list y) now = Ok row ->
  fst (metric name x y now c) = Ok tt
  /\ emitted c c' =
       (if dict_mem name (defined_metrics c) then []
        else [JobAction "defineMetric" [VStr name; VDict []]])
       ++ [Patch ("channels." ++ name ++ ".lastValue")
             (VList (map value_of_opt (as_list y)))]
  /\ pending (metric_subject c') =
       (if shutting_down c then []
        else pending (metric_subject c) ++ [{| item_id := name; item_row := row |}]).
Proof.
  intros c c' Hrow. subst c'.
  pose proof (run_latch_ok ks (init logs) (init_latch_ok logs)) as Hlatch.
  fold c in Hlatch. clearbody c.
  destruct c as [dm ls [mp mst] sp sd lit lbt ji jis spi w tr].
  destruct Hlatch as (_ & Hm & _ & Hempty).
  cbn [metric_subject is_stopped shutting_down log_subject pending] in Hm, Hempty.
  subst mst.
  unfold_methods. exec_m.
  all: try (exfalso; congruence).
  all: trace_norm.
  all: cbn [on_next is_stopped pending defined_metrics shutting_down].
  all: match goal with
       | H : Ok ?a = Ok ?r |- _ => assert (a = r) by congruence; subst a
       end.
  all: try match goal with
           | H : ?P -> _ /\ ?m = [] |- _ =>
               destruct (H eq_refl) as [_ ->]
           end.
  all: repeat match goal with
              | H : negb _ = _ |- _ => apply (f_equal negb) in H;
                                       rewrite negb_involutive in H; cbn [negb] in H
              end.
  all: repeat split; first [reflexivity | exfalso; congruence].
Qed.

Lemma metric_buffers_one_row_witness :
  let c := run [CallMetric "loss" (PyInt 1) (YScalar (Some (PyFloat 0.5))) 100]
             (init "") in
  let c' := after (CallMetric "loss" (PyInt 2) (YList [None]) 101) c in
  exists row,
    metric_row (PyInt 2) [None] 101 = Ok row
    /\ fst (metric "loss" (PyInt 2) (YList [None]) 101 c) = Ok tt
    /\ emitted c c' =
         (if dict_mem "loss" (defined_metrics c) then []
          else [JobAction "defineMetric" [VStr "loss"; VDict []]])
         ++ [Patch ("channels." ++ "loss" ++ ".lastValue")
               (VList (map value_of_opt [None]))]
    /\ pending (metric_subject c') =
         (if shutting_down c then []
          else pending (metric_subject c) ++ [{| item_id := "loss"; item_row := row |}]).
Proof.
  eexists. split; [vm_compute; reflexivity |].
  apply (metric_buffers_one_row ""
           [CallMetric "loss" (PyInt 1) (YScalar (Some (PyFloat 0.5))) 100]
           "loss" (PyInt 2) (YList [None]) 101).
  vm_compute. reflexivity.
Defined.
